(** * Inbound playlist synchronisation (server/lib/activitypub/playlist.ts)

    A shallow embedding of the functions that fetch a remote playlist, turn
    the fetched objects into database attributes, replace the element rows of
    the playlist and refresh an outdated playlist.

    Asynchronous functions are computations over an explicit store (the two
    tables the module writes and the trace of logger and thumbnail calls) that
    either resolve with a value or reject with an error.  The callbacks given
    to [Bluebird.map] are run one at a time, in the order in which Bluebird
    starts them. *)

From Stdlib Require Import List ZArith Ascii String Bool Lia Permutation.
Import ListNotations.
Local Open Scope string_scope.
Local Open Scope Z_scope.
Local Open Scope list_scope.

(** ** Values read from fetched JSON *)

(** The fields of a fetched object that the module copies without looking at
    their type.  [JsUndefined] is an absent field. *)
Inductive JsValue : Type :=
| JsUndefined
| JsNull
| JsBool (b : bool)
| JsNumber (n : Z)
| JsString (s : string).

(** JavaScript's ToBoolean on these values. *)
Definition truthy (v : JsValue) : bool :=
  match v with
  | JsUndefined | JsNull => false
  | JsBool b => b
  | JsNumber n => negb (Z.eqb n 0)
  | JsString s => negb (String.eqb s EmptyString)
  end.

(** [a || b] *)
Definition js_or (a b : JsValue) : JsValue := if truthy a then a else b.

(** ** Federation objects *)

Record ActivityIconObject : Type := { icon_url : string }.

(** The [to] field of a fetched object, by what [to.indexOf] is: the method
    of an array, the method of a string, or nothing that can be called
    (the field is absent, null, a number, an object). *)
Inductive Audience : Type :=
| AudienceArray (items : list string)
| AudienceString (text : string)
| AudienceOther.

Record PlaylistObject : Type := {
  po_id : string;
  po_name : string;
  po_content : string;
  po_uuid : string;
  po_published : Z;
  po_updated : Z;
  po_to : Audience;
  po_attributedTo : option (list string);  (* None: not an array *)
  po_icon : option ActivityIconObject      (* None: undefined *)
}.

Record PlaylistElementObject : Type := {
  eo_id : string;
  eo_url : string;
  eo_position : JsValue;
  eo_startTimestamp : JsValue;
  eo_stopTimestamp : JsValue
}.

(** The decoded body of a response. *)
Inductive Body : Type :=
| BodyOther
| BodyPlaylist (o : PlaylistObject)
| BodyElement (e : PlaylistElementObject).

(** ** Models *)

Inductive VideoPlaylistPrivacy : Type := PUBLIC | UNLISTED | PRIVATE.

Record AccountModel : Type := { acc_id : Z }.
Record VideoModel : Type := { video_id : Z }.
Record VideoChannelModel : Type := { channel_id : Z }.
Record ActorModel : Type := { VideoChannel : option VideoChannelModel }.

(** What [playlistObjectToDBAttributes] returns. *)
Record PlaylistAttributes : Type := {
  pa_name : string;
  pa_description : string;
  pa_privacy : VideoPlaylistPrivacy;
  pa_url : string;
  pa_uuid : string;
  pa_ownerAccountId : Z;
  pa_videoChannelId : option Z;
  pa_createdAt : Z;
  pa_updatedAt : Z
}.

(** A playlist, as a row of its table and as the object handed to callers. *)
Record VideoPlaylistModel : Type := {
  pl_id : Z;
  pl_name : string;
  pl_description : string;
  pl_privacy : VideoPlaylistPrivacy;
  pl_url : string;
  pl_uuid : string;
  pl_ownerAccountId : Z;
  pl_videoChannelId : option Z;
  pl_createdAt : Z;
  pl_updatedAt : Z;
  pl_lastRefreshedAt : Z
}.

(** What [playlistElementObjectToDBAttributes] returns: a row of the element
    table, apart from the surrogate key the database adds. *)
Record ElementAttributes : Type := {
  el_position : JsValue;
  el_url : string;
  el_startTimestamp : JsValue;
  el_stopTimestamp : JsValue;
  el_videoPlaylistId : Z;
  el_videoId : Z
}.

(** ** Store and computations *)

Inductive LogLevel : Type := Debug | Info | Warn.

(** What a run leaves outside the tables: the calls of the logger, the calls
    of [generateThumbnailFromUrl] and the images written by
    [downloadImage]. *)
Inductive Event : Type :=
| Log (level : LogLevel) (message : string) (subject : string)
| ThumbnailAttempt (playlistId : Z)
| ImageDownloaded (url : string) (destName : string).

Record Store : Type := {
  playlists : list VideoPlaylistModel;
  elements : list ElementAttributes;
  events : list Event                      (* most recent first *)
}.

Inductive Outcome (A : Type) : Type :=
| Resolved (a : A)
| Rejected (err : string).
Arguments Resolved {A} a.
Arguments Rejected {A} err.

Definition Async (A : Type) : Type := Store -> Outcome A * Store.

Definition ret {A} (a : A) : Async A := fun s => (Resolved a, s).

Definition throw {A} (err : string) : Async A := fun s => (Rejected err, s).

Definition bind {A B} (c : Async A) (k : A -> Async B) : Async B :=
  fun s =>
    match c s with
    | (Resolved a, s') => k a s'
    | (Rejected err, s') => (Rejected err, s')
    end.

(** [try { body } catch (err) { handler }] *)
Definition tryCatch {A} (body : Async A) (handler : string -> Async A) : Async A :=
  fun s =>
    match body s with
    | (Resolved a, s') => (Resolved a, s')
    | (Rejected err, s') => handler err s'
    end.

Declare Scope async_scope.
Delimit Scope async_scope with async.
Notation "x <- c ;; k" := (bind c (fun x => k))
  (at level 61, c at next level, right associativity) : async_scope.
Notation "c ;;; k" := (bind c (fun _ => k))
  (at level 61, right associativity) : async_scope.
Local Open Scope async_scope.

Definition logger (level : LogLevel) (message subject : string) : Async unit :=
  fun s => (Resolved tt,
            {| playlists := playlists s; elements := elements s;
               events := Log level message subject :: events s |}).

Definition emit (e : Event) : Async unit :=
  fun s => (Resolved tt,
            {| playlists := playlists s; elements := elements s;
               events := e :: events s |}).

(** The order in which [Bluebird.map] starts its callbacks when at most one
    may be in flight: the callback of the first item is started at once, the
    other items are queued as they are met, and each time a callback
    settles the next item is taken from the end of the queue. *)
Definition bluebirdOrder {A} (array : list A) : list A :=
  match array with
  | [] => []
  | first :: queued => first :: rev queued
  end.

(** The callbacks of the items, each started when the one before it has
    resolved; a rejection is the rejection of the whole. *)
Fixpoint callInTurn {A} (callback : A -> Async unit) (items : list A) : Async unit :=
  match items with
  | [] => ret tt
  | x :: rest => callback x ;;; callInTurn callback rest
  end.

(** [Bluebird.map(array, callback, { concurrency: CRAWL_REQUEST_CONCURRENCY })]
    at the concurrency 1 that CRAWL_REQUEST_CONCURRENCY stands for (the
    constant is not among the sources); it rejects as soon as a callback
    rejects, and the items still queued are not started. *)
Definition bluebirdMap {A} (callback : A -> Async unit) (array : list A) : Async unit :=
  callInTurn callback (bluebirdOrder array).

(** ** The collaborators of the module

    Everything the module imports and that answers from outside the store:
    the remote hosts, the clock, the resolvers, the constants. *)
Record World : Type := {
  now : Z;
  VIDEO_PLAYLIST_REFRESH_INTERVAL : Z;
  ACTIVITY_PUB_PUBLIC : string;
  (* what a GET of the URL answers: status code and decoded body; None when
     the request itself rejects *)
  response : string -> option (Z * Body);
  (* the structural rules of the two validators *)
  playlistObjectShape : PlaylistObject -> bool;
  playlistElementObjectShape : PlaylistElementObject -> bool;
  (* the host part of a URL, when it parses *)
  host : string -> option string;
  (* the actor behind an identifier; None when its resolution rejects *)
  actorOf : string -> option ActorModel;
  (* the local video of a video URL; None when its resolution rejects *)
  videoOf : string -> option VideoModel;
  (* the pages of item URLs of a collection; None when the crawl rejects *)
  pagesOf : string -> option (list (list string));
  (* whether the image behind a URL can be fetched *)
  imageFetched : string -> bool;
  (* the constraints of the element table: is this row accepted, given the
     rows already there *)
  elementRowAccepted : list ElementAttributes -> ElementAttributes -> bool
}.

(** ** Concrete worlds

    A remote host, [remote.example], publishes one playlist of three
    elements; a second host, [evil.example], answers with objects that
    declare identifiers of the first. *)

Fixpoint untilSlash (s : string) : string :=
  match s with
  | EmptyString => EmptyString
  | String c rest =>
      if Ascii.eqb c "/"%char then EmptyString else String c (untilSlash rest)
  end.

(** The host of an https URL. *)
Definition hostOf (url : string) : option string :=
  if String.prefix "https://" url
  then Some (untilSlash (substring 8 (String.length url) url))
  else None.

Definition PUBLIC_AUDIENCE : string := "https://www.w3.org/ns/activitystreams#Public".

Definition remotePlaylistUrl : string := "https://remote.example/playlists/1".
Definition evilPlaylistUrl : string := "https://evil.example/playlists/9".

Definition elementUrl1 : string := "https://remote.example/playlists/1/elements/1".
Definition elementUrl2 : string := "https://remote.example/playlists/1/elements/2".
Definition elementUrl3 : string := "https://remote.example/playlists/1/elements/3".

Definition videoUrl1 : string := "https://remote.example/videos/1".
Definition videoUrl2 : string := "https://remote.example/videos/2".
Definition videoUrl3 : string := "https://remote.example/videos/3".

Definition remoteManifest : PlaylistObject :=
  {| po_id := remotePlaylistUrl;
     po_name := "Remote mix";
     po_content := "Fresh description";
     po_uuid := "6b1f0c3a";
     po_published := 100;
     po_updated := 700;
     po_to := AudienceArray [PUBLIC_AUDIENCE];
     po_attributedTo := None;
     po_icon := Some {| icon_url := "https://remote.example/icon.jpg" |} |}.

(** What [evil.example] serves: a well-formed manifest that declares the
    identifier of the playlist of [remote.example]. *)
Definition forgedManifest : PlaylistObject :=
  {| po_id := remotePlaylistUrl;
     po_name := "Hijacked";
     po_content := "Served by another host";
     po_uuid := "6b1f0c3a";
     po_published := 100;
     po_updated := 900;
     po_to := AudienceArray [PUBLIC_AUDIENCE];
     po_attributedTo := None;
     po_icon := None |}.

Definition elementObject (id videoUrl : string) (position start : JsValue)
    : PlaylistElementObject :=
  {| eo_id := id;
     eo_url := videoUrl;
     eo_position := position;
     eo_startTimestamp := start;
     eo_stopTimestamp := JsUndefined |}.

(** The responses of the two hosts; [position2] is the position the second
    element declares. *)
Definition responses (playlistAnswer : option (Z * Body)) (position2 : JsValue)
    (uri : string) : option (Z * Body) :=
  if String.eqb uri remotePlaylistUrl then playlistAnswer
  else if String.eqb uri evilPlaylistUrl then Some (200, BodyPlaylist forgedManifest)
  else if String.eqb uri elementUrl1
  then Some (200, BodyElement (elementObject elementUrl1 videoUrl1 (JsNumber 1) (JsNumber 0)))
  else if String.eqb uri elementUrl2
  then Some (200, BodyElement (elementObject elementUrl2 videoUrl2 position2 (JsNumber 30)))
  else if String.eqb uri elementUrl3
  then Some (200, BodyElement (elementObject elementUrl3 videoUrl3 (JsNumber 3) JsUndefined))
  else None.

(** The videos that resolve; [second] is the answer for the second video. *)
Definition videos (second : option VideoModel) (url : string) : option VideoModel :=
  if String.eqb url videoUrl1 then Some {| video_id := 11 |}
  else if String.eqb url videoUrl2 then second
  else if String.eqb url videoUrl3 then Some {| video_id := 13 |}
  else None.

(** An element table with a unique index on the element URL. *)
Definition uniqueUrl (table : list ElementAttributes) (row : ElementAttributes) : bool :=
  negb (existsb (fun r => String.eqb (el_url r) (el_url row)) table).

(** A validator of element objects that asks for an integer position. *)
Definition requiresPosition (e : PlaylistElementObject) : bool :=
  match eo_position e with
  | JsNumber _ => true
  | _ => false
  end.

Definition world (playlistAnswer : option (Z * Body)) (position2 : JsValue)
    (second : option VideoModel) (items : list (list string)) : World :=
  {| now := 1000;
     VIDEO_PLAYLIST_REFRESH_INTERVAL := 100;
     ACTIVITY_PUB_PUBLIC := PUBLIC_AUDIENCE;
     response := responses playlistAnswer position2;
     playlistObjectShape := fun _ => true;
     playlistElementObjectShape := requiresPosition;
     host := hostOf;
     actorOf := fun _ => None;
     videoOf := videos second;
     pagesOf := fun uri => if String.eqb uri remotePlaylistUrl then Some items else None;
     imageFetched := fun _ => false;
     elementRowAccepted := uniqueUrl |}.

Definition validAnswer : option (Z * Body) := Some (200, BodyPlaylist remoteManifest).

(** Everything answers and resolves. *)
Definition healthyWorld : World :=
  world validAnswer (JsNumber 2) (Some {| video_id := 12 |})
        [[elementUrl1; elementUrl2]; [elementUrl3]].

(** The second video does not resolve. *)
Definition secondVideoMissingWorld : World :=
  world validAnswer (JsNumber 2) None [[elementUrl1; elementUrl2]; [elementUrl3]].

(** The second element declares no position. *)
Definition positionMissingWorld : World :=
  world validAnswer JsUndefined (Some {| video_id := 12 |})
        [[elementUrl1; elementUrl2]; [elementUrl3]].

(** The collection lists its first element twice. *)
Definition duplicateItemWorld : World :=
  world validAnswer (JsNumber 2) (Some {| video_id := 12 |})
        [[elementUrl1; elementUrl2; elementUrl1]].

(** The collection has one item, whose video does not resolve. *)
Definition onlyUnresolvedItemWorld : World :=
  world validAnswer (JsNumber 2) None [[elementUrl2]].

(** The collection is empty. *)
Definition emptyCollectionWorld : World :=
  world validAnswer (JsNumber 2) (Some {| video_id := 12 |}) [[]].

(** The playlist is gone. *)
Definition goneWorld : World :=
  world (Some (404, BodyOther)) (JsNumber 2) (Some {| video_id := 12 |}) [].

(** The playlist URL answers with something that is not a playlist. *)
Definition invalidBodyWorld : World :=
  world (Some (200, BodyOther)) (JsNumber 2) (Some {| video_id := 12 |}) [].

(** The local copy of the remote playlist, last refreshed two intervals
    ago, with one element from an earlier reconciliation. *)
Definition stalePlaylist : VideoPlaylistModel :=
  {| pl_id := 7;
     pl_name := "Old name";
     pl_description := "Old description";
     pl_privacy := UNLISTED;
     pl_url := remotePlaylistUrl;
     pl_uuid := "6b1f0c3a";
     pl_ownerAccountId := 3;
     pl_videoChannelId := None;
     pl_createdAt := 100;
     pl_updatedAt := 500;
     pl_lastRefreshedAt := 800 |}.

Definition oldElement : ElementAttributes :=
  {| el_position := JsNumber 1;
     el_url := "https://remote.example/playlists/1/elements/0";
     el_startTimestamp := JsNull;
     el_stopTimestamp := JsNull;
     el_videoPlaylistId := 7;
     el_videoId := 10 |}.

(** An element of another playlist. *)
Definition foreignElement : ElementAttributes :=
  {| el_position := JsNumber 1;
     el_url := "https://other.example/playlists/4/elements/1";
     el_startTimestamp := JsNull;
     el_stopTimestamp := JsNull;
     el_videoPlaylistId := 8;
     el_videoId := 10 |}.

Definition storeBefore : Store :=
  {| playlists := [stalePlaylist];
     elements := [foreignElement; oldElement];
     events := [] |}.

(** The same world with another answer of the image host. *)
Definition withImages (fetched : string -> bool) (w : World) : World :=
  {| now := now w;
     VIDEO_PLAYLIST_REFRESH_INTERVAL := VIDEO_PLAYLIST_REFRESH_INTERVAL w;
     ACTIVITY_PUB_PUBLIC := ACTIVITY_PUB_PUBLIC w;
     response := response w;
     playlistObjectShape := playlistObjectShape w;
     playlistElementObjectShape := playlistElementObjectShape w;
     host := host w;
     actorOf := actorOf w;
     videoOf := videoOf w;
     pagesOf := pagesOf w;
     imageFetched := fetched;
     elementRowAccepted := elementRowAccepted w |}.

(** The same manifest with another icon. *)
Definition withIcon (icon : option ActivityIconObject) (o : PlaylistObject)
    : PlaylistObject :=
  {| po_id := po_id o;
     po_name := po_name o;
     po_content := po_content o;
     po_uuid := po_uuid o;
     po_published := po_published o;
     po_updated := po_updated o;
     po_to := po_to o;
     po_attributedTo := po_attributedTo o;
     po_icon := icon |}.

(** The same world with other actors behind the identifiers. *)
Definition withActors (actors : string -> option ActorModel) (w : World) : World :=
  {| now := now w;
     VIDEO_PLAYLIST_REFRESH_INTERVAL := VIDEO_PLAYLIST_REFRESH_INTERVAL w;
     ACTIVITY_PUB_PUBLIC := ACTIVITY_PUB_PUBLIC w;
     response := response w;
     playlistObjectShape := playlistObjectShape w;
     playlistElementObjectShape := playlistElementObjectShape w;
     host := host w;
     actorOf := actors;
     videoOf := videoOf w;
     pagesOf := pagesOf w;
     imageFetched := imageFetched w;
     elementRowAccepted := elementRowAccepted w |}.

Definition channelActorUrl : string := "https://remote.example/video-channels/mixes".

(** The manifest of the remote playlist, attributed to one actor. *)
Definition attributedManifest : PlaylistObject :=
  {| po_id := remotePlaylistUrl;
     po_name := "Remote mix";
     po_content := "Fresh description";
     po_uuid := "6b1f0c3a";
     po_published := 100;
     po_updated := 700;
     po_to := AudienceArray [PUBLIC_AUDIENCE];
     po_attributedTo := Some [channelActorUrl];
     po_icon := None |}.

(** The remote playlist answers the attributed manifest, and no actor
    resolves. *)
Definition attributedWorld : World :=
  world (Some (200, BodyPlaylist attributedManifest)) (JsNumber 2)
        (Some {| video_id := 12 |}) [[elementUrl1; elementUrl2]; [elementUrl3]].

(** The manifest of the remote playlist with a string as audience. *)
Definition stringAudienceManifest : PlaylistObject :=
  {| po_id := remotePlaylistUrl;
     po_name := "Remote mix";
     po_content := "Fresh description";
     po_uuid := "6b1f0c3a";
     po_published := 100;
     po_updated := 700;
     po_to := AudienceString PUBLIC_AUDIENCE;
     po_attributedTo := None;
     po_icon := None |}.

Definition stringAudienceWorld : World :=
  world (Some (200, BodyPlaylist stringAudienceManifest)) (JsNumber 2)
        (Some {| video_id := 12 |}) [[elementUrl1; elementUrl2]; [elementUrl3]].

(** A store that does not know the remote playlist. *)
Definition storeWithoutPlaylist : Store :=
  {| playlists := []; elements := [foreignElement]; events := [] |}.

(** The healthy world in which the attributed actor is a channel. *)
Definition channelWorld : World :=
  withActors (fun url => if String.eqb url channelActorUrl
                         then Some {| VideoChannel := Some {| channel_id := 21 |} |}
                         else None)
             healthyWorld.

(** * Notifications (server/lib/notifier.ts)

    The notifier creates a web notification for each user whose setting asks
    for one, pushes it on the user's socket, collects the addresses of the
    users whose setting asks for an email and hands them to the emailer in
    one batch.  The functions that start a notification and attach a
    [.catch] to it are run to their end here. *)
Module Notifier.

(** [value & flag] on JavaScript numbers: both operands go through ToInt32. *)
Definition toInt32 (n : Z) : Z := (n + 2 ^ 31) mod 2 ^ 32 - 2 ^ 31.

Definition js_and (a b : Z) : Z := Z.land (toInt32 a) (toInt32 b).

Inductive VideoPrivacy : Type := PUBLIC | UNLISTED | PRIVATE.

Inductive VideoState : Type := PUBLISHED | TO_TRANSCODE | TO_IMPORT.

Inductive UserNotificationType : Type :=
| NEW_VIDEO_FROM_SUBSCRIPTION
| NEW_COMMENT_ON_MY_VIDEO
| COMMENT_MENTION
| MY_VIDEO_PUBLISHED.

(** The settings of a user, one UserNotificationSettingValue each. *)
Record NotificationSettingModel : Type := {
  newVideoFromSubscription : Z;
  newCommentOnMyVideo : Z;
  commentMention : Z;
  myVideoPublished : Z
}.

Record UserModel : Type := {
  user_id : Z;
  username : string;
  email : string;
  emailVerified : option bool;             (* None: null *)
  Account : AccountModel;
  NotificationSetting : NotificationSettingModel
}.

Record VideoModel : Type := {
  video_id : Z;
  video_url : string;
  privacy : VideoPrivacy;
  state : VideoState;
  waitTranscoding : bool;
  VideoBlacklist : bool;                   (* the relation is loaded *)
  ScheduleVideoUpdate : bool;              (* the relation is loaded *)
  channelActorId : Z                       (* video.VideoChannel.actorId *)
}.

Record VideoCommentModel : Type := {
  comment_id : Z;
  comment_url : string;
  videoId : Z;
  accountId : Z;
  commentAccountUserId : option Z;         (* comment.Account.userId *)
  videoIsOwned : bool;                     (* comment.Video.isOwned() *)
  mentions : list string                   (* comment.extractMentions() *)
}.

(** The attributes given to [UserNotificationModel.create]. *)
Record UserNotificationModel : Type := {
  type : UserNotificationType;
  userId : Z;
  notifiedVideoId : option Z;
  notifiedCommentId : option Z
}.

(** A call of the emailer: the kind of notification, the addresses and the
    URL of the video or comment it is about. *)
Record Mail : Type := {
  kind : UserNotificationType;
  recipients : list string;
  about : string
}.

Inductive Level : Type := LevelDebug | LevelInfo | LevelError.

Record Store : Type := {
  notifications : list UserNotificationModel;     (* rows created, oldest first *)
  sockets : list (Z * UserNotificationModel);     (* sendNotification calls, oldest first *)
  mails : list Mail;                              (* emailer calls, oldest first *)
  logs : list (Level * string)                    (* most recent first *)
}.

Definition Job (A : Type) : Type := Store -> Outcome A * Store.

Definition ret {A} (a : A) : Job A := fun s => (Resolved a, s).

Definition throw {A} (err : string) : Job A := fun s => (Rejected err, s).

Definition bind {A B} (c : Job A) (k : A -> Job B) : Job B :=
  fun s =>
    match c s with
    | (Resolved a, s') => k a s'
    | (Rejected err, s') => (Rejected err, s')
    end.

(** [promise.catch(handler)] *)
Definition catch {A} (body : Job A) (handler : string -> Job A) : Job A :=
  fun s =>
    match body s with
    | (Resolved a, s') => (Resolved a, s')
    | (Rejected err, s') => handler err s'
    end.

Declare Scope job_scope.
Delimit Scope job_scope with job.
Notation "x <- c ;; k" := (bind c (fun x => k))
  (at level 61, c at next level, right associativity) : job_scope.
Notation "c ;;; k" := (bind c (fun _ => k))
  (at level 61, right associativity) : job_scope.
Local Open Scope job_scope.

Definition logger (level : Level) (message : string) : Job unit :=
  fun s => (Resolved tt,
            {| notifications := notifications s; sockets := sockets s;
               mails := mails s; logs := (level, message) :: logs s |}).

(** What the notifier asks of the models, the configuration and the
    constants of UserNotificationSettingValue. *)
Record Env : Type := {
  NONE : Z;
  WEB : Z;
  EMAIL : Z;
  REQUIRES_EMAIL_VERIFICATION : bool;
  (* UserModel.listUserSubscribersOf; None when it rejects *)
  subscribersOf : Z -> option (list UserModel);
  (* UserModel.listByUsernames; None when it rejects *)
  usersNamed : list string -> option (list UserModel);
  (* UserModel.loadByVideoId; None when it rejects, Some None for null *)
  ownerOfVideo : Z -> option (option UserModel);
  (* AccountBlocklistModel.isAccountMutedByMulti(accountIds, targetAccountId):
     the accounts among accountIds that mute the target; None when it rejects *)
  mutedByMulti : list Z -> Z -> option (Z -> bool);
  (* AccountBlocklistModel.isAccountMutedBy(accountId, targetAccountId) *)
  mutedBy : Z -> Z -> option bool;
  (* whether UserNotificationModel.create rejects for these attributes *)
  createRefused : UserNotificationModel -> bool
}.

Section WithEnv.

Variable env : Env.

(** [UserNotificationModel.create(attributes)] *)
Definition create (attributes : UserNotificationModel) : Job UserNotificationModel :=
  fun s =>
    if createRefused env attributes
    then (Rejected "cannot create notification", s)
    else (Resolved attributes,
          {| notifications := notifications s ++ [attributes]; sockets := sockets s;
             mails := mails s; logs := logs s |}).

(** [PeerTubeSocket.Instance.sendNotification(userId, notification)] *)
Definition sendNotification (userId : Z) (notification : UserNotificationModel) : Job unit :=
  fun s => (Resolved tt,
            {| notifications := notifications s;
               sockets := sockets s ++ [(userId, notification)];
               mails := mails s; logs := logs s |}).

(** A call of one of the [Emailer.Instance.add...Notification(emails, ...)]. *)
Definition addMail (kind : UserNotificationType) (about : string) (emails : list string)
    : Job unit :=
  fun s => (Resolved tt,
            {| notifications := notifications s; sockets := sockets s;
               mails := mails s ++ [{| kind := kind; recipients := emails; about := about |}];
               logs := logs s |}).

Definition isEmailEnabled (user : UserModel) (value : Z) : JsValue :=
  if REQUIRES_EMAIL_VERIFICATION env
     && match emailVerified user with Some false => true | _ => false end
  then JsBool false
  else JsNumber (js_and value (EMAIL env)).

Definition isWebNotificationEnabled (value : Z) : JsValue :=
  JsNumber (js_and value (WEB env)).

Record NotifyOptions : Type := {
  users : list UserModel;
  notificationCreator : UserModel -> Job UserNotificationModel;
  emailSender : list string -> Job unit;
  settingGetter : UserModel -> Z
}.

(** The loop of [notify] over the users left, [emails] being the array it
    pushes to. *)
Fixpoint notifyUsers (options : NotifyOptions) (left : list UserModel)
    (emails : list string) : Job (list string) :=
  match left with
  | [] => ret emails
  | user :: rest =>
      (if truthy (isWebNotificationEnabled (settingGetter options user))
       then notification <- notificationCreator options user ;;
            sendNotification (user_id user) notification
       else ret tt) ;;;
      notifyUsers options rest
        (if truthy (isEmailEnabled user (settingGetter options user))
         then emails ++ [email user]
         else emails)
  end.

Definition notify (options : NotifyOptions) : Job unit :=
  emails <- notifyUsers options (users options) [] ;;
  match emails with
  | [] => ret tt
  | _ :: _ => emailSender options emails
  end.

Definition notifySubscribersOfNewVideo (video : VideoModel) : Job unit :=
  match subscribersOf env (channelActorId video) with
  | None => throw "cannot list subscribers"
  | Some subscribers =>
      logger LevelInfo "Notifying %d users of new video %s." ;;;
      notify
        {| users := subscribers;
           settingGetter := fun user => newVideoFromSubscription (NotificationSetting user);
           notificationCreator := fun user =>
             create {| type := NEW_VIDEO_FROM_SUBSCRIPTION; userId := user_id user;
                       notifiedVideoId := Some (video_id video);
                       notifiedCommentId := None |};
           emailSender := addMail NEW_VIDEO_FROM_SUBSCRIPTION (video_url video) |}
  end.

Definition notifyOnNewVideo (video : VideoModel) : Job unit :=
  (* Only notify on public and published videos which are not blacklisted *)
  if match privacy video with PUBLIC => false | _ => true end
     || match state video with PUBLISHED => false | _ => true end
     || VideoBlacklist video
  then ret tt
  else
    catch (notifySubscribersOfNewVideo video)
          (fun err => logger LevelError "Cannot notify subscribers of new video %s.").

Definition notifyOwnedVideoHasBeenPublished (video : VideoModel) : Job unit :=
  match ownerOfVideo env (video_id video) with
  | None => throw "cannot load user"
  | Some None => ret tt
  | Some (Some user) =>
      logger LevelInfo "Notifying user %s of the publication of its video %s." ;;;
      notify
        {| users := [user];
           settingGetter := fun user => myVideoPublished (NotificationSetting user);
           notificationCreator := fun user =>
             create {| type := MY_VIDEO_PUBLISHED; userId := user_id user;
                       notifiedVideoId := Some (video_id video);
                       notifiedCommentId := None |};
           emailSender := addMail MY_VIDEO_PUBLISHED (video_url video) |}
  end.

Definition notPublished (video : VideoModel) : bool :=
  match state video with PUBLISHED => false | _ => true end.

Definition notifyOnVideoPublishedAfterTranscoding (video : VideoModel) : Job unit :=
  (* don't notify if didn't wait for transcoding or video is still
     blacklisted/waiting for scheduled update *)
  if negb (waitTranscoding video) || VideoBlacklist video || ScheduleVideoUpdate video
  then ret tt
  else
    catch (notifyOwnedVideoHasBeenPublished video)
          (fun err => logger LevelError
             "Cannot notify owner that its video %s has been published after transcoding.").

Definition notifyOnVideoPublishedAfterScheduledUpdate (video : VideoModel) : Job unit :=
  (* don't notify if video is still blacklisted or waiting for transcoding *)
  if VideoBlacklist video || (waitTranscoding video && notPublished video)
  then ret tt
  else
    catch (notifyOwnedVideoHasBeenPublished video)
          (fun err => logger LevelError
             "Cannot notify owner that its video %s has been published after scheduled update.").

Definition notifyOnVideoPublishedAfterRemovedFromAutoBlacklist (video : VideoModel)
    : Job unit :=
  (* don't notify if video is still waiting for transcoding or scheduled update *)
  if ScheduleVideoUpdate video || (waitTranscoding video && notPublished video)
  then ret tt
  else
    catch (notifyOwnedVideoHasBeenPublished video)
          (fun err => logger LevelError
             "Cannot notify owner that its video %s has been published after removed from auto-blacklist.").

Definition commentNotification (type : UserNotificationType) (comment : VideoCommentModel)
    (user : UserModel) : UserNotificationModel :=
  {| type := type; userId := user_id user;
     notifiedVideoId := None; notifiedCommentId := Some (comment_id comment) |}.

Definition notifyVideoOwnerOfNewComment (comment : VideoCommentModel) : Job unit :=
  if negb (videoIsOwned comment) then ret tt
  else
    match ownerOfVideo env (videoId comment) with
    | None => throw "cannot load user"
    | Some None => ret tt
    | Some (Some user) =>
        (* Not our user or user comments its own video *)
        if match commentAccountUserId comment with
           | Some commenter => commenter =? user_id user
           | None => false
           end
        then ret tt
        else
          match mutedBy env (acc_id (Account user)) (accountId comment) with
          | None => throw "cannot read blocklist"
          | Some true => ret tt
          | Some false =>
              logger LevelInfo "Notifying user %s of new comment %s." ;;;
              notify
                {| users := [user];
                   settingGetter := fun user => newCommentOnMyVideo (NotificationSetting user);
                   notificationCreator := fun user =>
                     create (commentNotification NEW_COMMENT_ON_MY_VIDEO comment user);
                   emailSender := addMail NEW_COMMENT_ON_MY_VIDEO (comment_url comment) |}
          end
    end.

Definition notifyOfCommentMention (comment : VideoCommentModel) : Job unit :=
  let extractedUsernames := mentions comment in
  logger LevelDebug "Extracted %d username from comment %s." ;;;
  match usersNamed env extractedUsernames with
  | None => throw "cannot list users"
  | Some users0 =>
      users1 <-
        (if videoIsOwned comment
         then
           match ownerOfVideo env (videoId comment) with
           | None => throw "cannot load user"
           | Some None =>
               (* userException.id is read once per user *)
               match users0 with
               | [] => ret []
               | _ :: _ => throw "TypeError: cannot read property id of null"
               end
           | Some (Some userException) =>
               ret (filter (fun u => negb (user_id u =? user_id userException)) users0)
           end
         else ret users0) ;;
      (* Don't notify if I mentioned myself *)
      let users2 := filter (fun u => negb (acc_id (Account u) =? accountId comment)) users1 in
      match users2 with
      | [] => ret tt
      | _ :: _ =>
          match mutedByMulti env (map (fun u => acc_id (Account u)) users2)
                             (accountId comment) with
          | None => throw "cannot read blocklist"
          | Some accountMutedHash =>
              logger LevelInfo "Notifying %d users of new comment %s." ;;;
              notify
                {| users := users2;
                   settingGetter := fun user =>
                     if accountMutedHash (acc_id (Account user)) then NONE env
                     else commentMention (NotificationSetting user);
                   notificationCreator := fun user =>
                     create (commentNotification COMMENT_MENTION comment user);
                   emailSender := addMail COMMENT_MENTION (comment_url comment) |}
          end
      end
  end.

(** *** What [notify] does, in closed form *)

Definition wantsWeb (options : NotifyOptions) (user : UserModel) : bool :=
  truthy (isWebNotificationEnabled (settingGetter options user)).

Definition wantsEmail (options : NotifyOptions) (user : UserModel) : bool :=
  truthy (isEmailEnabled user (settingGetter options user)).

(** The users reached before the first refused creation, and whether the
    end of the list is reached. *)
Fixpoint reached (refused : UserModel -> bool) (options : NotifyOptions)
    (left : list UserModel) : list UserModel * bool :=
  match left with
  | [] => ([], true)
  | user :: rest =>
      if wantsWeb options user && refused user then ([], false)
      else let (r, ok) := reached refused options rest in (user :: r, ok)
  end.

(** The options the callers of [notify] build: the creator creates a row
    from attributes, the sender queues one mail. *)
Definition optionsOf (us : list UserModel) (getter : UserModel -> Z)
    (attributes : UserModel -> UserNotificationModel) (mailKind : UserNotificationType)
    (mailAbout : string) : NotifyOptions :=
  {| users := us;
     settingGetter := getter;
     notificationCreator := fun user => create (attributes user);
     emailSender := addMail mailKind mailAbout |}.

(** The store after notifications were created and pushed for the users
    [web] and the mails [newMails] were queued. *)
Definition delivered (attributes : UserModel -> UserNotificationModel)
    (web : list UserModel) (newMails : list Mail) (s : Store) : Store :=
  {| notifications := notifications s ++ map attributes web;
     sockets := sockets s ++ map (fun u => (user_id u, attributes u)) web;
     mails := mails s ++ newMails;
     logs := logs s |}.

(** The one mail for the addresses, none when there is no address. *)
Definition batch (mailKind : UserNotificationType) (mailAbout : string)
    (emails : list string) : list Mail :=
  match emails with
  | [] => []
  | _ :: _ => [{| kind := mailKind; recipients := emails; about := mailAbout |}]
  end.

End WithEnv.

(** *** A concrete installation *)

Definition user (i : Z) (name : string) (verified : option bool) (setting : Z) : UserModel :=
  {| user_id := i;
     username := name;
     email := (name ++ "@local.example")%string;
     emailVerified := verified;
     Account := {| acc_id := 100 + i |};
     NotificationSetting :=
       {| newVideoFromSubscription := setting;
          newCommentOnMyVideo := setting;
          commentMention := setting;
          myVideoPublished := setting |} |}.

(** Web and email; web only; email only, with an unverified address; web
    and email, on an account that mutes bob; web and email, with a row the
    table refuses. *)
Definition alice : UserModel := user 1 "alice" (Some true) 3.
Definition carol : UserModel := user 2 "carol" None 1.
Definition bob : UserModel := user 3 "bob" (Some false) 2.
Definition dave : UserModel := user 4 "dave" (Some true) 3.
Definition erin : UserModel := user 99 "erin" (Some true) 3.

Definition installation : Env :=
  {| NONE := 0;
     WEB := 1;
     EMAIL := 2;
     REQUIRES_EMAIL_VERIFICATION := true;
     subscribersOf := fun _ => Some [alice; carol; bob; dave];
     usersNamed := fun _ => Some [alice; carol; bob; dave];
     ownerOfVideo := fun _ => Some (Some alice);
     mutedByMulti := fun _ _ => Some (fun account => account =? 104);
     mutedBy := fun _ _ => Some false;
     createRefused := fun n => userId n =? 99 |}.

Definition publicVideo : VideoModel :=
  {| video_id := 5;
     video_url := "https://local.example/videos/5";
     privacy := PUBLIC;
     state := PUBLISHED;
     waitTranscoding := true;
     VideoBlacklist := false;
     ScheduleVideoUpdate := false;
     channelActorId := 8 |}.

(** A comment of bob on the video of alice that mentions everybody. *)
Definition mentionComment : VideoCommentModel :=
  {| comment_id := 40;
     comment_url := "https://local.example/videos/5/comments/40";
     videoId := 5;
     accountId := 103;
     commentAccountUserId := Some 3;
     videoIsOwned := true;
     mentions := ["alice"; "carol"; "bob"; "dave"] |}.

Definition emptyStore : Store :=
  {| notifications := []; sockets := []; mails := []; logs := [] |}.

End Notifier.

(** * The action dropdown (client/src/app/shared/buttons/action-dropdown.component.ts) *)
Module ActionDropdown.

Section Entry.

Variable T : Type.

(** A [DropdownAction<T>]; every field is optional. *)
Record DropdownAction : Type := {
  label : option string;
  handler : option (T -> unit);
  isDisplayed : option (T -> bool)
}.

(** [DropdownAction<T>[] | DropdownAction<T>[][]]: a list of actions, or a
    list of groups of actions. *)
Inductive Actions : Type :=
| Flat (actions : list DropdownAction)
| Grouped (groups : list (list DropdownAction)).

(** [this.actions] is returned when it is not empty and its first element is
    an array; otherwise it is wrapped in an array. *)
Definition getActions (actions : Actions) : list (list DropdownAction) :=
  match actions with
  | Grouped (first :: rest) => first :: rest
  | Grouped [] => [[]]
  | Flat l => [l]
  end.

Definition areActionsDisplayed (actions : list DropdownAction) (entry : T) : bool :=
  existsb (fun a => match isDisplayed a with
                    | None => true
                    | Some displayed => displayed entry
                    end)
          actions.

(** All the actions given to the component. *)
Definition allActions (actions : Actions) : list DropdownAction :=
  match actions with
  | Flat l => l
  | Grouped groups => List.concat groups
  end.

End Entry.

Arguments Flat {T} actions.
Arguments Grouped {T} groups.
Arguments getActions {T} actions.
Arguments areActionsDisplayed {T} actions entry.
Arguments allActions {T} actions.
Arguments isDisplayed {T} d.

End ActionDropdown.

(** * Scheduled video updates (the ScheduleVideoUpdateModel class)

    The table is a list of rows, with the columns the queries read; [now] is
    what [new Date()] gives when the query is built. *)
Module ScheduleVideoUpdate.

Record ScheduleVideoUpdateModel : Type := {
  updateAt : Z;
  videoId : Z
}.

(** [where: { updateAt: { [Op.lte]: new Date() } }] *)
Definition isDue (now : Z) (row : ScheduleVideoUpdateModel) : bool :=
  updateAt row <=? now.

(** [findOne(query).then(res => !!res)] *)
Definition areVideosToUpdate (now : Z) (table : list ScheduleVideoUpdateModel) : bool :=
  match find (isDue now) table with
  | Some _ => true
  | None => false
  end.

(** [findAll(query)] *)
Definition listVideosToUpdate (now : Z) (table : list ScheduleVideoUpdateModel)
    : list ScheduleVideoUpdateModel :=
  filter (isDue now) table.


End ScheduleVideoUpdate.

(** * The cache of previews (the VideosPreviewCache class) *)
Module VideosPreviewCache.

Record VideoModel : Type := {
  uuid : string;
  isOwned : bool;
  getPreviewName : string
}.

(** What the cache asks of the models, the configuration and its parent
    class. *)
Record Env : Type := {
  (* VideoModel.loadByUUIDWithFile *)
  loadByUUIDWithFile : string -> option VideoModel;
  (* VideoModel.loadAndPopulateAccountAndServerAndTags *)
  loadAndPopulateAccountAndServerAndTags : string -> option VideoModel;
  PREVIEWS_DIR : string;                    (* CONFIG.STORAGE.PREVIEWS_DIR *)
  STATIC_PREVIEWS : string;                 (* STATIC_PATHS.PREVIEWS *)
  CACHE_PREVIEWS_DIRECTORY : string;        (* FILES_CACHE.PREVIEWS.DIRECTORY *)
  join : string -> string -> string         (* path.join *)
}.

(** The calls made to the parent class. *)
Inductive Call : Type :=
| LoadFromLRU (key : string)
| SaveRemoteVideoFile (video : VideoModel) (remoteStaticPath destPath : string).

Definition Job (A : Type) : Type := list Call -> Outcome A * list Call.

(** [this.loadFromLRU(key)] and [this.saveRemoteVideoFileAndReturnPath(...)]
    belong to the parent class: the calls are recorded, their results are
    the parent's. *)
Record Parent : Type := {
  loadFromLRU : string -> Outcome (option string);
  saveRemoteVideoFileAndReturnPath : VideoModel -> string -> string -> Outcome (option string)
}.

Section WithEnv.

Variable env : Env.
Variable parent : Parent.

Definition getFilePath (videoUUID : string) : Job (option string) :=
  fun calls =>
    match loadByUUIDWithFile env videoUUID with
    | None => (Resolved None, calls)
    | Some video =>
        if isOwned video
        then (Resolved (Some (join env (PREVIEWS_DIR env) (getPreviewName video))), calls)
        else (loadFromLRU parent videoUUID, LoadFromLRU videoUUID :: calls)
    end.

Definition loadRemoteFile (key : string) : Job (option string) :=
  fun calls =>
    match loadAndPopulateAccountAndServerAndTags env key with
    | None => (Resolved None, calls)
    | Some video =>
        if isOwned video
        then (Rejected "Cannot load remote preview of owned video.", calls)
        else
          let remoteStaticPath := join env (STATIC_PREVIEWS env) (getPreviewName video) in
          let destPath := join env (CACHE_PREVIEWS_DIRECTORY env) (getPreviewName video) in
          (saveRemoteVideoFileAndReturnPath parent video remoteStaticPath destPath,
           SaveRemoteVideoFile video remoteStaticPath destPath :: calls)
    end.

End WithEnv.

End VideosPreviewCache.

Section Playlist.

Variable w : World.

(** *** Imported helpers *)

(** [doRequest({ uri, json: true, activityPub: true })] *)
Definition doRequest (uri : string) : Async (Z * Body) :=
  match response w uri with
  | Some r => ret r
  | None => throw "request failed"
  end.

(** Modelled from the spec: [isPlaylistObjectValid] of
    helpers/custom-validators/activitypub/playlist is not among the sources;
    it is a structural check of the body (required fields present, correct
    types), whose rules are the world's. *)
Definition isPlaylistObjectValid (body : Body) : bool :=
  match body with
  | BodyPlaylist o => playlistObjectShape w o
  | _ => false
  end.

(** Modelled from the spec: [isPlaylistElementObjectValid] of the same file,
    likewise. *)
Definition isPlaylistElementObjectValid (body : Body) : bool :=
  match body with
  | BodyElement e => playlistElementObjectShape w e
  | _ => false
  end.

(** Modelled from the spec: [checkUrlsSameHost] of helpers/activitypub is not
    among the sources; sameHost(declaredId, fetchedFromUrl) holds when both
    URLs have a host and the hosts match. *)
Definition checkUrlsSameHost (url1 url2 : string) : bool :=
  match host w url1, host w url2 with
  | Some h1, Some h2 => String.eqb h1 h2
  | _, _ => false
  end.

Definition getOrCreateActorAndServerAndModel (actorUrl : string) : Async ActorModel :=
  match actorOf w actorUrl with
  | Some a => ret a
  | None => throw "cannot resolve actor"
  end.

(** [getOrCreateVideoAndAccountAndChannel({ videoObject: { id }, fetchType: 'only-video' })] *)
Definition getOrCreateVideoAndAccountAndChannel (id : string) : Async VideoModel :=
  match videoOf w id with
  | Some v => ret v
  | None => throw "cannot resolve video"
  end.

(** Modelled from the spec: [crawlCollectionPage] of ./crawl is not among
    the sources; it walks the paginated collection from its root and hands
    the items of each page to the handler, in turn.  Which pages it reaches
    is the world's. *)
Fixpoint crawlHandlePages {A} (handler : A -> list string -> A) (acc : A)
    (pages : list (list string)) : A :=
  match pages with
  | [] => acc
  | items :: rest => crawlHandlePages handler (handler acc items) rest
  end.

Definition crawlCollectionPage {A} (uri : string) (handler : A -> list string -> A)
    (acc : A) : Async A :=
  match pagesOf w uri with
  | Some pages => ret (crawlHandlePages handler acc pages)
  | None => throw "cannot crawl collection"
  end.

(** *** The playlist and element models *)

Definition sameUrl (url : string) (p : VideoPlaylistModel) : bool :=
  String.eqb (pl_url p) url.

Definition sameId (id : Z) (p : VideoPlaylistModel) : bool :=
  Z.eqb (pl_id p) id.

Definition ofPlaylist (playlistId : Z) (e : ElementAttributes) : bool :=
  Z.eqb (el_videoPlaylistId e) playlistId.

(** Modelled from the spec: [VideoPlaylistModel.doesPlaylistExist] is not
    among the sources; the URL is the external identifier of a playlist, and
    a playlist exists when a row carries it. *)
Definition doesPlaylistExist (url : string) : Async bool :=
  fun s => (Resolved (existsb (sameUrl url) (playlists s)), s).

Definition nextId (rows : list VideoPlaylistModel) : Z :=
  1 + fold_right (fun p m => Z.max (pl_id p) m) 0 rows.

Definition updateRow (a : PlaylistAttributes) (p : VideoPlaylistModel) : VideoPlaylistModel :=
  {| pl_id := pl_id p;
     pl_name := pa_name a;
     pl_description := pa_description a;
     pl_privacy := pa_privacy a;
     pl_url := pl_url p;
     pl_uuid := pl_uuid p;
     pl_ownerAccountId := pl_ownerAccountId p;
     pl_videoChannelId := pa_videoChannelId a;
     pl_createdAt := pl_createdAt p;
     pl_updatedAt := pa_updatedAt a;
     pl_lastRefreshedAt := pl_lastRefreshedAt p |}.

Definition insertRow (a : PlaylistAttributes) (id : Z) : VideoPlaylistModel :=
  {| pl_id := id;
     pl_name := pa_name a;
     pl_description := pa_description a;
     pl_privacy := pa_privacy a;
     pl_url := pa_url a;
     pl_uuid := pa_uuid a;
     pl_ownerAccountId := pa_ownerAccountId a;
     pl_videoChannelId := pa_videoChannelId a;
     pl_createdAt := pa_createdAt a;
     pl_updatedAt := pa_updatedAt a;
     pl_lastRefreshedAt := now w |}.

(** Modelled from the spec: [VideoPlaylistModel.upsert] of
    models/video/video-playlist is not among the sources.  The row is looked
    up by external identifier: if no row exists for that URL, one is inserted
    with the manifest-derived attributes; if one exists, its name,
    description, visibility, channel reference and updated timestamp are
    updated in place.  The row is returned. *)
Definition upsertRows (a : PlaylistAttributes) (rows : list VideoPlaylistModel)
    : VideoPlaylistModel * list VideoPlaylistModel :=
  match find (sameUrl (pa_url a)) rows with
  | Some p =>
      (updateRow a p,
       map (fun q => if sameUrl (pa_url a) q then updateRow a q else q) rows)
  | None =>
      let p := insertRow a (nextId rows) in
      (p, rows ++ [p])
  end.

Definition upsert (a : PlaylistAttributes) : Async VideoPlaylistModel :=
  fun s =>
    let (p, rows) := upsertRows a (playlists s) in
    (Resolved p, {| playlists := rows; elements := elements s; events := events s |}).

(** Modelled from the spec: [isOutdated] of the playlist model is not among
    the sources; a playlist is stale once now - lastRefreshedAt exceeds the
    configured refresh interval. *)
Definition isOutdated (p : VideoPlaylistModel) : bool :=
  VIDEO_PLAYLIST_REFRESH_INTERVAL w <? now w - pl_lastRefreshedAt p.

Definition refreshed (p : VideoPlaylistModel) : VideoPlaylistModel :=
  {| pl_id := pl_id p;
     pl_name := pl_name p;
     pl_description := pl_description p;
     pl_privacy := pl_privacy p;
     pl_url := pl_url p;
     pl_uuid := pl_uuid p;
     pl_ownerAccountId := pl_ownerAccountId p;
     pl_videoChannelId := pl_videoChannelId p;
     pl_createdAt := pl_createdAt p;
     pl_updatedAt := pl_updatedAt p;
     pl_lastRefreshedAt := now w |}.

(** Modelled from the spec: [setAsRefreshed] of the playlist model is not
    among the sources; it marks lastRefreshedAt = now without altering
    content, on the object and on its row. *)
Definition setAsRefreshed (p : VideoPlaylistModel) : Async VideoPlaylistModel :=
  fun s =>
    (Resolved (refreshed p),
     {| playlists := map (fun q => if sameId (pl_id p) q then refreshed q else q)
                         (playlists s);
        elements := elements s; events := events s |}).

(** Modelled from the spec: [destroy] on a playlist deletes the local
    playlist and its elements. *)
Definition destroy (p : VideoPlaylistModel) : Async unit :=
  fun s =>
    (Resolved tt,
     {| playlists := filter (fun q => negb (sameId (pl_id p) q)) (playlists s);
        elements := filter (fun e => negb (ofPlaylist (pl_id p) e)) (elements s);
        events := events s |}).

(** [videoPlaylist.OwnerAccount]: the account the row refers to. *)
Definition OwnerAccount (p : VideoPlaylistModel) : AccountModel :=
  {| acc_id := pl_ownerAccountId p |}.

(** [playlist.getThumbnailName()], not among the sources: a file name made
    from the uuid of the playlist. *)
Definition getThumbnailName (p : VideoPlaylistModel) : string :=
  ("playlist-" ++ pl_uuid p ++ ".jpg")%string.

(** Modelled from the spec: [VideoPlaylistElementModel.deleteAllOf] deletes
    every existing element of the playlist. *)
Definition deleteAllOf (playlistId : Z) : Async unit :=
  fun s =>
    (Resolved tt,
     {| playlists := playlists s;
        elements := filter (fun e => negb (ofPlaylist playlistId e)) (elements s);
        events := events s |}).

(** [VideoPlaylistElementModel.create(element, { transaction })]: the row is
    appended, or the call rejects when the table refuses the row. *)
Definition create (element : ElementAttributes) : Async unit :=
  fun s =>
    if elementRowAccepted w (elements s) element
    then (Resolved tt,
          {| playlists := playlists s;
             elements := elements s ++ [element];
             events := events s |})
    else (Rejected "insert refused", s).

(** [sequelizeTypescript.transaction(async t => body)]: the writes of the
    body are committed when it resolves and rolled back when it rejects. *)
Definition transaction {A} (body : Async A) : Async A :=
  fun s =>
    match body s with
    | (Resolved a, s') => (Resolved a, s')
    | (Rejected err, s') =>
        (Rejected err,
         {| playlists := playlists s; elements := elements s; events := events s' |})
    end.

(** [downloadImage(url, destDir, destName, size)] *)
Definition downloadImageTo (url destName : string) : Async unit :=
  if imageFetched w url
  then emit (ImageDownloaded url destName)
  else throw "cannot download image".

(** *** server/lib/activitypub/playlist.ts *)

(** [to.indexOf(searched) !== -1]: a search among the items of an array, a
    search for a substring in a string; [None] when [to.indexOf] is not a
    function and the call throws a TypeError. *)
Definition indexOfFinds (to : Audience) (searched : string) : option bool :=
  match to with
  | AudienceArray items => Some (existsb (String.eqb searched) items)
  | AudienceString text =>
      Some (match String.index 0 searched text with Some _ => true | None => false end)
  | AudienceOther => None
  end.

(** The result is [None] when the function throws. *)
Definition playlistObjectToDBAttributes (playlistObject : PlaylistObject)
    (byAccount : AccountModel) (to : Audience) : option PlaylistAttributes :=
  match indexOfFinds to (ACTIVITY_PUB_PUBLIC w) with
  | None => None
  | Some found =>
      let privacy := if found then PUBLIC else UNLISTED in
      Some {| pa_name := po_name playlistObject;
              pa_description := po_content playlistObject;
              pa_privacy := privacy;
              pa_url := po_id playlistObject;
              pa_uuid := po_uuid playlistObject;
              pa_ownerAccountId := acc_id byAccount;
              pa_videoChannelId := None;
              pa_createdAt := po_published playlistObject;
              pa_updatedAt := po_updated playlistObject |}
  end.

Definition playlistElementObjectToDBAttributes (elementObject : PlaylistElementObject)
    (videoPlaylist : VideoPlaylistModel) (video : VideoModel) : ElementAttributes :=
  {| el_position := eo_position elementObject;
     el_url := eo_id elementObject;
     el_startTimestamp := js_or (eo_startTimestamp elementObject) JsNull;
     el_stopTimestamp := js_or (eo_stopTimestamp elementObject) JsNull;
     el_videoPlaylistId := pl_id videoPlaylist;
     el_videoId := video_id video |}.

Definition generateThumbnailFromUrl (playlist : VideoPlaylistModel)
    (icon : option ActivityIconObject) : Async unit :=
  emit (ThumbnailAttempt (pl_id playlist)) ;;;
  let thumbnailName := getThumbnailName playlist in
  match icon with
  | Some i => downloadImageTo (icon_url i) thumbnailName
  | None => throw "TypeError: cannot read property url of undefined"
  end.

Definition fetchRemoteVideoPlaylist (playlistUrl : string)
    : Async (Z * option PlaylistObject) :=
  logger Info "Fetching remote playlist %s." playlistUrl ;;;
  r <- doRequest playlistUrl ;;
  let (statusCode, body) := r in
  match body with
  | BodyPlaylist o =>
      if negb (isPlaylistObjectValid body)
         || negb (checkUrlsSameHost (po_id o) playlistUrl)
      then logger Debug "Remote video playlist JSON is not valid." playlistUrl ;;;
           ret (statusCode, None)
      else ret (statusCode, Some o)
  | _ =>
      (* isPlaylistObjectValid(body) === false *)
      logger Debug "Remote video playlist JSON is not valid." playlistUrl ;;;
      ret (statusCode, None)
  end.

(** The body of the callback of [Bluebird.map] in
    [resetVideoPlaylistElements]; [elementsToCreate] is the array the
    callbacks push to. *)
Definition fetchPlaylistElement (playlist : VideoPlaylistModel)
    (elementsToCreate : list ElementAttributes) (elementUrl : string)
    : Async (list ElementAttributes) :=
  tryCatch
    (r <- doRequest elementUrl ;;
     let body := snd r in
     match body with
     | BodyElement e =>
         if negb (isPlaylistElementObjectValid body)
         then throw "Invalid body in video get playlist element"
         else if negb (checkUrlsSameHost (eo_id e) elementUrl)
         then throw "Playlist element url host is different from the AP object id"
         else
           video <- getOrCreateVideoAndAccountAndChannel (eo_url e) ;;
           ret (elementsToCreate ++ [playlistElementObjectToDBAttributes e playlist video])
     | _ => throw "Invalid body in video get playlist element"
     end)
    (fun err =>
       logger Warn "Cannot add playlist element %s." elementUrl ;;;
       ret elementsToCreate).

(** The callbacks of the element URLs, each started when the one before it
    has settled. *)
Fixpoint pushPlaylistElements (playlist : VideoPlaylistModel)
    (elementsToCreate : list ElementAttributes) (elementUrls : list string)
    : Async (list ElementAttributes) :=
  match elementUrls with
  | [] => ret elementsToCreate
  | elementUrl :: rest =>
      acc <- fetchPlaylistElement playlist elementsToCreate elementUrl ;;
      pushPlaylistElements playlist acc rest
  end.

(** The [Bluebird.map] of [resetVideoPlaylistElements]: the callbacks push
    to [elementsToCreate] in the order in which Bluebird starts them, not in
    the order of [elementUrls]. *)
Definition fetchPlaylistElements (playlist : VideoPlaylistModel)
    (elementUrls : list string) : Async (list ElementAttributes) :=
  pushPlaylistElements playlist [] (bluebirdOrder elementUrls).

(** [for (const element of elementsToCreate) await create(element)] *)
Fixpoint createAll (elementsToCreate : list ElementAttributes) : Async unit :=
  match elementsToCreate with
  | [] => ret tt
  | element :: rest => create element ;;; createAll rest
  end.

Definition resetVideoPlaylistElements (elementUrls : list string)
    (playlist : VideoPlaylistModel) : Async unit :=
  elementsToCreate <- fetchPlaylistElements playlist elementUrls ;;
  transaction (deleteAllOf (pl_id playlist) ;;; createAll elementsToCreate) ;;;
  logger Info "Reset playlist %s with %s elements." (pl_url playlist) ;;;
  ret tt.

Definition withChannel (a : PlaylistAttributes) (videoChannelId : option Z)
    : PlaylistAttributes :=
  {| pa_name := pa_name a;
     pa_description := pa_description a;
     pa_privacy := pa_privacy a;
     pa_url := pa_url a;
     pa_uuid := pa_uuid a;
     pa_ownerAccountId := pa_ownerAccountId a;
     pa_videoChannelId := videoChannelId;
     pa_createdAt := pa_createdAt a;
     pa_updatedAt := pa_updatedAt a |}.

Definition createOrUpdateVideoPlaylist (playlistObject : PlaylistObject)
    (byAccount : AccountModel) (to : Audience) : Async unit :=
  match playlistObjectToDBAttributes playlistObject byAccount to with
  | None => throw "TypeError: to.indexOf cannot be called"
  | Some playlistAttributes =>
      playlistAttributes <-
        match po_attributedTo playlistObject with
        | Some [attributedTo] =>
            actor <- getOrCreateActorAndServerAndModel attributedTo ;;
            match VideoChannel actor with
            | Some channel =>
                ret (withChannel playlistAttributes (Some (channel_id channel)))
            | None =>
                logger Warn "Attributed to of video playlist %s is not a video channel."
                       (po_id playlistObject) ;;;
                ret playlistAttributes
            end
        | _ => ret playlistAttributes
        end ;;
      playlist <- upsert playlistAttributes ;;
      accItems <- crawlCollectionPage (po_id playlistObject)
                    (fun accItems items => accItems ++ items) [] ;;
      (* Empty playlists generally do not have a miniature, so skip this *)
      match accItems with
      | [] => ret tt
      | _ :: _ =>
          tryCatch
            (generateThumbnailFromUrl playlist (po_icon playlistObject))
            (fun err => logger Warn "Cannot generate thumbnail of %s." (po_id playlistObject))
      end ;;;
      resetVideoPlaylistElements accItems playlist
  end.

(** The callback of [Bluebird.map] in [createAccountPlaylists].  Its last
    statement, [return createOrUpdateVideoPlaylist(...)], hands the promise
    back without awaiting it: the [try] block is left before the promise
    settles, so a rejection of the reconciliation is not caught and rejects
    the callback.  [returned] is what the [try] statement leaves to
    return. *)
Definition accountPlaylistCallback (account : AccountModel) (playlistUrl : string)
    : Async unit :=
  returned <-
    tryCatch
      (exists_ <- doesPlaylistExist playlistUrl ;;
       if exists_ then ret None
       else
         r <- doRequest playlistUrl ;;
         let body := snd r in
         match body with
         | BodyPlaylist o =>
             if negb (isPlaylistObjectValid body)
             then throw "Invalid playlist object when fetch account playlists"
             else
               match po_to o with
               | AudienceArray to => ret (Some (o, AudienceArray to))
               | _ => throw "Playlist does not have an audience."
               end
         | _ => throw "Invalid playlist object when fetch account playlists"
         end)
      (fun err => logger Warn "Cannot add playlist element %s." playlistUrl ;;; ret None) ;;
  match returned with
  | Some (o, to) => createOrUpdateVideoPlaylist o account to
  | None => ret tt
  end.

Definition createAccountPlaylists (playlistUrls : list string) (account : AccountModel)
    : Async unit :=
  bluebirdMap (accountPlaylistCallback account) playlistUrls.

(** The [try] block of [refreshVideoPlaylistIfNeeded]. *)
Definition refreshVideoPlaylist (videoPlaylist : VideoPlaylistModel)
    : Async (option VideoPlaylistModel) :=
  r <- fetchRemoteVideoPlaylist (pl_url videoPlaylist) ;;
  let (statusCode, playlistObject) := r in
  if statusCode =? 404
  then
    logger Info "Cannot refresh remote video playlist %s: it does not exist anymore. Deleting it."
           (pl_url videoPlaylist) ;;;
    destroy videoPlaylist ;;;
    ret None
  else
    match playlistObject with
    | None =>
        logger Warn "Cannot refresh remote playlist %s: invalid body." (pl_url videoPlaylist) ;;;
        videoPlaylist <- setAsRefreshed videoPlaylist ;;
        ret (Some videoPlaylist)
    | Some playlistObject =>
        let byAccount := OwnerAccount videoPlaylist in
        createOrUpdateVideoPlaylist playlistObject byAccount (po_to playlistObject) ;;;
        ret (Some videoPlaylist)
    end.

(** The result is [None] for [undefined]. *)
Definition refreshVideoPlaylistIfNeeded (videoPlaylist : VideoPlaylistModel)
    : Async (option VideoPlaylistModel) :=
  if negb (isOutdated videoPlaylist) then ret (Some videoPlaylist)
  else
    tryCatch
      (refreshVideoPlaylist videoPlaylist)
      (fun err =>
         logger Warn "Cannot refresh video playlist %s." (pl_url videoPlaylist) ;;;
         videoPlaylist <- setAsRefreshed videoPlaylist ;;
         ret (Some videoPlaylist)).

(** *** What a run computes, in closed form *)

(** The store with more events logged, the tables untouched. *)
Definition logged (evs : list Event) (s : Store) : Store :=
  {| playlists := playlists s; elements := elements s; events := evs ++ events s |}.

(** What an element URL resolves to: its object is fetched, has a valid
    shape, declares an identifier on the host it was fetched from, and its
    video resolves. *)
Definition resolve (elementUrl : string) : option (PlaylistElementObject * VideoModel) :=
  match response w elementUrl with
  | Some (_, BodyElement e) =>
      if playlistElementObjectShape w e && checkUrlsSameHost (eo_id e) elementUrl
      then match videoOf w (eo_url e) with
           | Some video => Some (e, video)
           | None => None
           end
      else None
  | _ => None
  end.

(** The objects and videos of the URLs that resolve, in the order of the
    list given. *)
Definition resolved (elementUrls : list string)
    : list (PlaylistElementObject * VideoModel) :=
  flat_map (fun u => match resolve u with Some r => [r] | None => [] end) elementUrls.

(** The candidate row of an element URL. *)
Definition candidate (playlist : VideoPlaylistModel) (elementUrl : string)
    : option ElementAttributes :=
  match resolve elementUrl with
  | Some (e, video) => Some (playlistElementObjectToDBAttributes e playlist video)
  | None => None
  end.

Definition candidates (playlist : VideoPlaylistModel) (elementUrls : list string)
    : list ElementAttributes :=
  flat_map (fun u => match candidate playlist u with Some a => [a] | None => [] end)
           elementUrls.

(** The warnings of the URLs that yield no candidate, oldest first. *)
Definition elementWarnings (playlist : VideoPlaylistModel) (elementUrls : list string)
    : list Event :=
  flat_map (fun u => match candidate playlist u with
                     | Some _ => []
                     | None => [Log Warn "Cannot add playlist element %s." u]
                     end)
           elementUrls.

(** The element table after the rows are inserted one by one, when the table
    accepts each of them. *)
Fixpoint insertAll (table rows : list ElementAttributes) : option (list ElementAttributes) :=
  match rows with
  | [] => Some table
  | r :: rest =>
      if elementRowAccepted w table r then insertAll (table ++ [r]) rest else None
  end.

Definition otherElements (playlistId : Z) (table : list ElementAttributes)
    : list ElementAttributes :=
  filter (fun e => negb (ofPlaylist playlistId e)) table.

Definition elementsOf (playlistId : Z) (table : list ElementAttributes)
    : list ElementAttributes :=
  filter (ofPlaylist playlistId) table.

Definition isThumbnailAttempt (e : Event) : bool :=
  match e with ThumbnailAttempt _ => true | _ => false end.

Definition thumbnailAttempts (evs : list Event) : nat :=
  List.length (filter isThumbnailAttempt evs).

(** The attributes after the attributed actor is looked at, with what is
    logged on the way; [None] when the resolution of the actor rejects. *)
Definition channelAttributes (playlistObject : PlaylistObject) (a : PlaylistAttributes)
    : option (PlaylistAttributes * list Event) :=
  match po_attributedTo playlistObject with
  | Some [attributedTo] =>
      match actorOf w attributedTo with
      | Some actor =>
          match VideoChannel actor with
          | Some channel => Some (withChannel a (Some (channel_id channel)), [])
          | None =>
              Some (a, [Log Warn "Attributed to of video playlist %s is not a video channel."
                            (po_id playlistObject)])
          end
      | None => None
      end
  | _ => Some (a, [])
  end.

(** What the thumbnail step adds to the trace, most recent first. *)
Definition thumbnailEvents (playlist : VideoPlaylistModel) (playlistObject : PlaylistObject)
    (accItems : list string) : list Event :=
  match accItems with
  | [] => []
  | _ :: _ =>
      match po_icon playlistObject with
      | Some i =>
          if imageFetched w (icon_url i)
          then [ImageDownloaded (icon_url i) (getThumbnailName playlist);
                ThumbnailAttempt (pl_id playlist)]
          else [Log Warn "Cannot generate thumbnail of %s." (po_id playlistObject);
                ThumbnailAttempt (pl_id playlist)]
      | None =>
          [Log Warn "Cannot generate thumbnail of %s." (po_id playlistObject);
           ThumbnailAttempt (pl_id playlist)]
      end
  end.

(** The manifest [fetchRemoteVideoPlaylist] hands back for a body: the body
    is a playlist object of valid shape whose identifier is on the host it
    was fetched from. *)
Definition trustedManifest (playlistUrl : string) (body : Body) : option PlaylistObject :=
  match body with
  | BodyPlaylist o =>
      if playlistObjectShape w o && checkUrlsSameHost (po_id o) playlistUrl
      then Some o else None
  | _ => None
  end.

(** The playlist table after [setAsRefreshed] on the playlist [id]. *)
Definition markRefreshed (id : Z) (rows : list VideoPlaylistModel)
    : list VideoPlaylistModel :=
  map (fun q => if sameId id q then refreshed q else q) rows.

(** The remote answers the playlist URL with a status other than 404 and a
    body that is not a trusted manifest. *)
Definition invalidBody (videoPlaylist : VideoPlaylistModel) : bool :=
  match response w (pl_url videoPlaylist) with
  | Some (statusCode, body) =>
      negb (statusCode =? 404)
      && match trustedManifest (pl_url videoPlaylist) body with
         | Some _ => false
         | None => true
         end
  | None => false
  end.

(** Following the words of the specification, for comparison with
    [playlistElementObjectToDBAttributes]: the position field preserves the
    candidate's order in the crawled sequence unless the candidate carries an
    explicit position, which then wins. *)
Definition positionBySpec (order : Z) (elementObject : PlaylistElementObject) : JsValue :=
  match eo_position elementObject with
  | JsUndefined | JsNull => JsNumber order
  | declared => declared
  end.

(** The channel reference [createOrUpdateVideoPlaylist] gives the row: the
    channel of the attributed actor when the manifest is attributed to
    exactly one actor and that actor has a channel, none otherwise. *)
Definition attributedChannel (playlistObject : PlaylistObject) : option Z :=
  match po_attributedTo playlistObject with
  | Some [attributedTo] =>
      match actorOf w attributedTo with
      | Some actor =>
          match VideoChannel actor with
          | Some channel => Some (channel_id channel)
          | None => None
          end
      | None => None
      end
  | _ => None
  end.

(** The attributes [createOrUpdateVideoPlaylist] upserts: those of the
    manifest, with the channel of the attributed actor; [None] when it
    throws or rejects before the upsert. *)
Definition upsertedAttributes (playlistObject : PlaylistObject) (byAccount : AccountModel)
    (to : Audience) : option PlaylistAttributes :=
  match playlistObjectToDBAttributes playlistObject byAccount to with
  | Some a0 =>
      match channelAttributes playlistObject a0 with
      | Some (a, _) => Some a
      | None => None
      end
  | None => None
  end.

(** The attributes a refresh of the playlist upserts: those of the trusted
    manifest the remote answers with a status other than 404; [None] when
    the refresh does not get to the upsert. *)
Definition refreshedAttributes (videoPlaylist : VideoPlaylistModel)
    : option PlaylistAttributes :=
  match response w (pl_url videoPlaylist) with
  | Some (statusCode, body) =>
      if statusCode =? 404 then None
      else
        match trustedManifest (pl_url videoPlaylist) body with
        | Some o => upsertedAttributes o (OwnerAccount videoPlaylist) (po_to o)
        | None => None
        end
  | None => None
  end.

(** The playlist table after the upsert of the attributes, when there is
    one. *)
Definition rowsAfterUpsert (attributes : option PlaylistAttributes)
    (rows : list VideoPlaylistModel) : list VideoPlaylistModel :=
  match attributes with
  | Some a => snd (upsertRows a rows)
  | None => rows
  end.

(** The element object declares a position. *)
Definition declaresPosition (elementObject : PlaylistElementObject) : bool :=
  match eo_position elementObject with
  | JsUndefined | JsNull => false
  | _ => true
  end.

(** The response to the URL is a playlist object of valid shape with an
    array as audience: what [createAccountPlaylists] asks of a body. *)
Definition storable (playlistUrl : string) : bool :=
  match response w playlistUrl with
  | Some (_, BodyPlaylist o) =>
      playlistObjectShape w o
      && match po_to o with AudienceArray _ => true | _ => false end
  | _ => false
  end.

(** ** Lemmas on the element replacement *)

Lemma logged_nil s : logged [] s = s.
Proof. destruct s; reflexivity. Qed.

Lemma logged_logged a b s : logged a (logged b s) = logged (a ++ b) s.
Proof. unfold logged; simpl. now rewrite app_assoc. Qed.

Lemma fetchPlaylistElement_run playlist acc u s :
  fetchPlaylistElement playlist acc u s =
  match candidate playlist u with
  | Some a => (Resolved (acc ++ [a]), s)
  | None => (Resolved acc, logged [Log Warn "Cannot add playlist element %s." u] s)
  end.
Proof.
  unfold fetchPlaylistElement, candidate, resolve, tryCatch, bind, doRequest.
  destruct (response w u) as [[status body]|]; simpl; [|reflexivity].
  destruct body as [|o|e]; simpl; try reflexivity.
  destruct (playlistElementObjectShape w e); simpl; [|reflexivity].
  destruct (checkUrlsSameHost (eo_id e) u); simpl; [|reflexivity].
  unfold getOrCreateVideoAndAccountAndChannel.
  destruct (videoOf w (eo_url e)); reflexivity.
Qed.

Lemma pushPlaylistElements_run playlist urls : forall acc s,
  pushPlaylistElements playlist acc urls s =
  (Resolved (acc ++ candidates playlist urls),
   logged (rev (elementWarnings playlist urls)) s).
Proof.
  induction urls as [|u rest IH]; intros acc s; simpl.
  - now rewrite app_nil_r, logged_nil.
  - unfold bind. rewrite fetchPlaylistElement_run.
    destruct (candidate playlist u) as [a|]; simpl; rewrite IH.
    + now rewrite <- app_assoc.
    + now rewrite logged_logged.
Qed.

Lemma insertAll_app table rows table' :
  insertAll table rows = Some table' -> table' = table ++ rows.
Proof.
  revert table. induction rows as [|r rest IH]; intros table H; simpl in *.
  - inversion H. now rewrite app_nil_r.
  - destruct (elementRowAccepted w table r); [|discriminate].
    apply IH in H. now rewrite H, <- app_assoc.
Qed.

Lemma createAll_run rows : forall s,
  match insertAll (elements s) rows with
  | Some table =>
      createAll rows s =
      (Resolved tt, {| playlists := playlists s; elements := table; events := events s |})
  | None =>
      exists s', createAll rows s = (Rejected "insert refused", s')
                 /\ events s' = events s
  end.
Proof.
  induction rows as [|r rest IH]; intros s; simpl.
  - destruct s; reflexivity.
  - unfold bind, create.
    destruct (elementRowAccepted w (elements s) r); simpl.
    + specialize (IH {| playlists := playlists s; elements := elements s ++ [r];
                        events := events s |}).
      simpl in IH. exact IH.
    + exists s. split; reflexivity.
Qed.

(** Bluebird starts every item once. *)
Lemma bluebirdOrder_Permutation {A} (array : list A) :
  Permutation (bluebirdOrder array) array.
Proof.
  destruct array as [|first queued]; [constructor|]. simpl.
  constructor. apply Permutation_sym, Permutation_rev.
Qed.

Lemma bluebirdOrder_In {A} (array : list A) x : In x (bluebirdOrder array) <-> In x array.
Proof.
  split; apply Permutation_in;
    [apply bluebirdOrder_Permutation | apply Permutation_sym, bluebirdOrder_Permutation].
Qed.

Lemma bluebirdOrder_length {A} (array : list A) :
  List.length (bluebirdOrder array) = List.length array.
Proof. apply Permutation_length, bluebirdOrder_Permutation. Qed.

(** The rows pushed are those of the URLs, whatever the order of the
    callbacks. *)
Lemma candidates_bluebirdOrder playlist urls :
  Permutation (candidates playlist (bluebirdOrder urls)) (candidates playlist urls).
Proof.
  unfold candidates. apply Permutation_flat_map, bluebirdOrder_Permutation.
Qed.

(** The run of [resetVideoPlaylistElements], in closed form. *)
Lemma resetVideoPlaylistElements_run urls playlist s :
  resetVideoPlaylistElements urls playlist s =
  let started := bluebirdOrder urls in
  let evs := rev (elementWarnings playlist started) in
  match insertAll (otherElements (pl_id playlist) (elements s))
                  (candidates playlist started) with
  | Some table =>
      (Resolved tt,
       {| playlists := playlists s; elements := table;
          events := Log Info "Reset playlist %s with %s elements." (pl_url playlist)
                    :: evs ++ events s |})
  | None =>
      (Rejected "insert refused",
       {| playlists := playlists s; elements := elements s; events := evs ++ events s |})
  end.
Proof.
  unfold resetVideoPlaylistElements, bind at 1, fetchPlaylistElements.
  rewrite pushPlaylistElements_run. simpl app. cbv zeta.
  generalize (bluebirdOrder urls) as started. intros started.
  unfold bind at 1, transaction, bind at 1, deleteAllOf.
  pose proof (createAll_run (candidates playlist started)
                {| playlists := playlists (logged (rev (elementWarnings playlist started)) s);
                   elements := otherElements (pl_id playlist) (elements s);
                   events := events (logged (rev (elementWarnings playlist started)) s) |}) as H.
  simpl in H. unfold otherElements in *. simpl.
  destruct (insertAll _ _) as [table|].
  - rewrite H. reflexivity.
  - destruct H as (s' & -> & Hev). rewrite Hev. reflexivity.
Qed.

Lemma candidate_playlistId playlist u a :
  candidate playlist u = Some a -> el_videoPlaylistId a = pl_id playlist.
Proof.
  unfold candidate, resolve.
  destruct (response w u) as [[? [| |e]]|]; try discriminate.
  destruct (_ && _); [|discriminate].
  destruct (videoOf w (eo_url e)); [|discriminate].
  intros H; inversion H; reflexivity.
Qed.

Lemma candidates_playlistId playlist urls a :
  In a (candidates playlist urls) -> el_videoPlaylistId a = pl_id playlist.
Proof.
  unfold candidates. rewrite in_flat_map. intros (u & _ & H).
  destruct (candidate playlist u) eqn:E; simpl in H; [|contradiction].
  destruct H as [<-|[]]. eapply candidate_playlistId; eauto.
Qed.

Lemma elementsOf_candidates playlist urls :
  elementsOf (pl_id playlist) (candidates playlist urls) = candidates playlist urls.
Proof.
  unfold elementsOf. apply forallb_filter_id. apply forallb_forall.
  intros a Ha. unfold ofPlaylist. apply Z.eqb_eq. eapply candidates_playlistId; eauto.
Qed.

Lemma otherElements_candidates playlist urls :
  otherElements (pl_id playlist) (candidates playlist urls) = [].
Proof.
  unfold otherElements.
  assert (H : forall a, In a (candidates playlist urls) ->
                        ofPlaylist (pl_id playlist) a = true).
  { intros a Ha. apply Z.eqb_eq. eapply candidates_playlistId; eauto. }
  induction (candidates playlist urls) as [|a l IH]; [reflexivity|].
  simpl. rewrite (H a (or_introl eq_refl)). simpl.
  apply IH. intros b Hb. apply H. now right.
Qed.

Lemma otherElements_idem id table :
  otherElements id (otherElements id table) = otherElements id table.
Proof.
  unfold otherElements. induction table as [|e l IH]; [reflexivity|].
  simpl. destruct (negb (ofPlaylist id e)) eqn:E; simpl; rewrite ?E, IH; reflexivity.
Qed.

Lemma otherElements_app id l1 l2 :
  otherElements id (l1 ++ l2) = otherElements id l1 ++ otherElements id l2.
Proof. apply filter_app. Qed.

Lemma elementsOf_app id l1 l2 :
  elementsOf id (l1 ++ l2) = elementsOf id l1 ++ elementsOf id l2.
Proof. apply filter_app. Qed.

Lemma elementsOf_otherElements id table :
  elementsOf id (otherElements id table) = [].
Proof.
  unfold elementsOf, otherElements. induction table as [|e l IH]; [reflexivity|].
  simpl. destruct (ofPlaylist id e) eqn:E; simpl; rewrite ?E; exact IH.
Qed.

(** The stored elements of the playlist after a run that resolves. *)
Lemma resetVideoPlaylistElements_stored urls playlist s :
  match fst (resetVideoPlaylistElements urls playlist s) with
  | Resolved _ =>
      elementsOf (pl_id playlist)
        (elements (snd (resetVideoPlaylistElements urls playlist s)))
      = candidates playlist (bluebirdOrder urls)
  | Rejected _ =>
      elements (snd (resetVideoPlaylistElements urls playlist s)) = elements s
  end.
Proof.
  rewrite resetVideoPlaylistElements_run. cbv zeta.
  destruct (insertAll _ _) as [table|] eqn:E; simpl; [|reflexivity].
  apply insertAll_app in E. subst table.
  now rewrite elementsOf_app, elementsOf_otherElements, elementsOf_candidates.
Qed.

(** ** Lemmas on the reconciliation *)

Lemma crawlHandlePages_concat pages : forall acc : list string,
  crawlHandlePages (fun accItems items => accItems ++ items) acc pages
  = acc ++ List.concat pages.
Proof.
  induction pages as [|items rest IH]; intros acc; simpl.
  - now rewrite app_nil_r.
  - rewrite IH. now rewrite app_assoc.
Qed.

(** The run of [createOrUpdateVideoPlaylist], in closed form. *)
Lemma createOrUpdateVideoPlaylist_run playlistObject byAccount to s :
  createOrUpdateVideoPlaylist playlistObject byAccount to s =
  match playlistObjectToDBAttributes playlistObject byAccount to with
  | None => (Rejected "TypeError: to.indexOf cannot be called", s)
  | Some a0 =>
      match channelAttributes playlistObject a0 with
      | None => (Rejected "cannot resolve actor", s)
      | Some (a, evs1) =>
          let (playlist, rows) := upsertRows a (playlists s) in
          match pagesOf w (po_id playlistObject) with
          | None =>
              (Rejected "cannot crawl collection",
               {| playlists := rows; elements := elements s; events := evs1 ++ events s |})
          | Some pages =>
              resetVideoPlaylistElements (List.concat pages) playlist
                {| playlists := rows; elements := elements s;
                   events := thumbnailEvents playlist playlistObject (List.concat pages)
                             ++ evs1 ++ events s |}
          end
      end
  end.
Proof.
  unfold createOrUpdateVideoPlaylist, channelAttributes.
  destruct (playlistObjectToDBAttributes playlistObject byAccount to) as [a0|];
    [|reflexivity].
  assert (K : forall a evs s1,
    s1 = logged evs s ->
    (playlist <- upsert a ;;
     accItems <- crawlCollectionPage (po_id playlistObject)
                   (fun accItems items => accItems ++ items) [] ;;
     match accItems with
     | [] => ret tt
     | _ :: _ =>
         tryCatch
           (generateThumbnailFromUrl playlist (po_icon playlistObject))
           (fun err => logger Warn "Cannot generate thumbnail of %s." (po_id playlistObject))
     end ;;;
     resetVideoPlaylistElements accItems playlist) s1 =
    let (playlist, rows) := upsertRows a (playlists s) in
    match pagesOf w (po_id playlistObject) with
    | None =>
        (Rejected "cannot crawl collection",
         {| playlists := rows; elements := elements s; events := evs ++ events s |})
    | Some pages =>
        resetVideoPlaylistElements (List.concat pages) playlist
          {| playlists := rows; elements := elements s;
             events := thumbnailEvents playlist playlistObject (List.concat pages)
                       ++ evs ++ events s |}
    end).
  { intros a evs s1 ->. unfold bind at 1, upsert. simpl.
    destruct (upsertRows a (playlists s)) as [playlist rows].
    unfold bind at 1, crawlCollectionPage.
    destruct (pagesOf w (po_id playlistObject)) as [pages|]; simpl; [|reflexivity].
    rewrite crawlHandlePages_concat. simpl.
    unfold bind at 1.
    destruct (List.concat pages) as [|item items]; simpl; [reflexivity|].
    unfold tryCatch, generateThumbnailFromUrl, bind at 1, emit, downloadImageTo. simpl.
    destruct (po_icon playlistObject) as [i|]; simpl; [|reflexivity].
    destruct (imageFetched w (icon_url i)); reflexivity. }
  destruct (po_attributedTo playlistObject) as [[|x [|y l]]|].
  - unfold bind at 1, ret at 1. cbv beta iota.
    apply (K a0 [] s). now rewrite logged_nil.
  - unfold bind at 1, bind at 1, getOrCreateActorAndServerAndModel.
    destruct (actorOf w x) as [actor|]; [|reflexivity].
    unfold ret at 1. cbv beta iota.
    destruct (VideoChannel actor) as [channel|].
    + unfold ret at 1. cbv beta iota.
      apply (K _ [] s). now rewrite logged_nil.
    + unfold bind at 1, logger at 1, ret at 1. cbv beta iota.
      apply (K a0 [Log Warn "Attributed to of video playlist %s is not a video channel."
                       (po_id playlistObject)]).
      reflexivity.
  - unfold bind at 1, ret at 1. cbv beta iota.
    apply (K a0 [] s). now rewrite logged_nil.
  - unfold bind at 1, ret at 1. cbv beta iota.
    apply (K a0 [] s). now rewrite logged_nil.
Qed.

Lemma sameUrl_updateRow url a q : sameUrl url (updateRow a q) = sameUrl url q.
Proof. reflexivity. Qed.

Lemma find_updated a rows p0 :
  find (sameUrl (pa_url a)) rows = Some p0 ->
  find (sameUrl (pa_url a))
       (map (fun q => if sameUrl (pa_url a) q then updateRow a q else q) rows)
  = Some (updateRow a p0).
Proof.
  induction rows as [|q rest IH]; simpl; [discriminate|].
  destruct (sameUrl (pa_url a) q) eqn:E.
  - intros H; inversion H; subst. now rewrite sameUrl_updateRow, E.
  - rewrite E. exact IH.
Qed.

Lemma map_update_absent a rows :
  find (sameUrl (pa_url a)) rows = None ->
  map (fun q => if sameUrl (pa_url a) q then updateRow a q else q) rows = rows.
Proof.
  induction rows as [|q rest IH]; simpl; [reflexivity|].
  destruct (sameUrl (pa_url a) q); [discriminate|].
  intros H. now rewrite IH.
Qed.

Lemma find_inserted a rows p :
  find (sameUrl (pa_url a)) rows = None ->
  sameUrl (pa_url a) p = true ->
  find (sameUrl (pa_url a)) (rows ++ [p]) = Some p.
Proof.
  intros Hnone Hp. induction rows as [|q rest IH]; simpl in *.
  - now rewrite Hp.
  - destruct (sameUrl (pa_url a) q); [discriminate|]. now apply IH.
Qed.

(** Upserting the same attributes again changes nothing and returns the same
    row. *)
Lemma upsertRows_idem a rows :
  upsertRows a (snd (upsertRows a rows)) = upsertRows a rows.
Proof.
  unfold upsertRows at 2 3.
  destruct (find (sameUrl (pa_url a)) rows) as [p0|] eqn:E; simpl.
  - unfold upsertRows. rewrite (find_updated _ _ _ E). f_equal.
    rewrite map_map. apply map_ext. intros q.
    destruct (sameUrl (pa_url a) q) eqn:Eq.
    + now rewrite sameUrl_updateRow, Eq.
    + now rewrite Eq.
  - unfold upsertRows.
    rewrite (find_inserted a rows (insertRow a (nextId rows)) E)
      by (unfold sameUrl; simpl; apply String.eqb_refl).
    f_equal. rewrite map_app, (map_update_absent _ _ E). simpl.
    unfold sameUrl at 1. simpl. now rewrite String.eqb_refl.
Qed.

(** Outcome and tables of the element replacement, from the tables alone. *)
Lemma resetVideoPlaylistElements_tables urls playlist s :
  let run := resetVideoPlaylistElements urls playlist s in
  playlists (snd run) = playlists s
  /\ match insertAll (otherElements (pl_id playlist) (elements s))
                     (candidates playlist (bluebirdOrder urls)) with
     | Some _ =>
         fst run = Resolved tt
         /\ elements (snd run)
            = otherElements (pl_id playlist) (elements s)
              ++ candidates playlist (bluebirdOrder urls)
     | None =>
         fst run = Rejected "insert refused" /\ elements (snd run) = elements s
     end.
Proof.
  cbv zeta. rewrite resetVideoPlaylistElements_run. cbv zeta.
  destruct (insertAll _ _) as [table|] eqn:E; simpl.
  - apply insertAll_app in E. now subst.
  - repeat split.
Qed.

Lemma otherElements_replaced id table cands :
  (forall a, In a cands -> el_videoPlaylistId a = id) ->
  otherElements id (otherElements id table ++ cands) = otherElements id table.
Proof.
  intros H. rewrite otherElements_app, otherElements_idem.
  assert (E : otherElements id cands = []).
  { unfold otherElements. induction cands as [|a l IH]; [reflexivity|].
    simpl. unfold ofPlaylist at 1.
    rewrite (proj2 (Z.eqb_eq _ _) (H a (or_introl eq_refl))). simpl.
    apply IH. intros b Hb. apply H. now right. }
  rewrite E. apply app_nil_r.
Qed.

(** Replacing the elements twice from the same URLs gives the same outcome
    and the same table as replacing them once. *)
Lemma resetVideoPlaylistElements_idem urls playlist s s1 :
  playlists s1 = playlists (snd (resetVideoPlaylistElements urls playlist s)) ->
  elements s1 = elements (snd (resetVideoPlaylistElements urls playlist s)) ->
  let once := resetVideoPlaylistElements urls playlist s in
  let twice := resetVideoPlaylistElements urls playlist s1 in
  fst twice = fst once
  /\ elements (snd twice) = elements (snd once)
  /\ playlists (snd twice) = playlists (snd once).
Proof.
  intros Hp He. cbv zeta.
  destruct (resetVideoPlaylistElements_tables urls playlist s) as [P1 T1].
  destruct (resetVideoPlaylistElements_tables urls playlist s1) as [P2 T2].
  cbv zeta in *.
  destruct (insertAll (otherElements (pl_id playlist) (elements s))
                      (candidates playlist (bluebirdOrder urls))) as [t|] eqn:E.
  - destruct T1 as [O1 E1].
    rewrite He, E1 in T2.
    rewrite otherElements_replaced in T2
      by (intros a Ha; eapply candidates_playlistId; eauto).
    rewrite E in T2. destruct T2 as [O2 E2].
    rewrite O1, O2, E1, E2, P2, Hp. auto.
  - destruct T1 as [O1 E1].
    rewrite He, E1, E in T2. destruct T2 as [O2 E2].
    rewrite O1, O2, E1, E2, P2, Hp. auto.
Qed.

(** ** Lemmas on the refresh *)

Lemma fetchRemoteVideoPlaylist_run playlistUrl s :
  fetchRemoteVideoPlaylist playlistUrl s =
  match response w playlistUrl with
  | None =>
      (Rejected "request failed",
       logged [Log Info "Fetching remote playlist %s." playlistUrl] s)
  | Some (statusCode, body) =>
      match trustedManifest playlistUrl body with
      | Some o =>
          (Resolved (statusCode, Some o),
           logged [Log Info "Fetching remote playlist %s." playlistUrl] s)
      | None =>
          (Resolved (statusCode, None),
           logged [Log Debug "Remote video playlist JSON is not valid." playlistUrl;
                   Log Info "Fetching remote playlist %s." playlistUrl] s)
      end
  end.
Proof.
  unfold fetchRemoteVideoPlaylist, bind, logger, doRequest, trustedManifest. simpl.
  destruct (response w playlistUrl) as [[statusCode body]|]; simpl; [|reflexivity].
  destruct body as [|o|e]; simpl; try reflexivity.
  destruct (playlistObjectShape w o); simpl; [|reflexivity].
  destruct (checkUrlsSameHost (po_id o) playlistUrl); reflexivity.
Qed.

(** The run of the [try] block, in closed form. *)
Lemma refreshVideoPlaylist_run videoPlaylist s :
  refreshVideoPlaylist videoPlaylist s =
  let url := pl_url videoPlaylist in
  let fetching := Log Info "Fetching remote playlist %s." url in
  let notValid := Log Debug "Remote video playlist JSON is not valid." url in
  match response w url with
  | None => (Rejected "request failed", logged [fetching] s)
  | Some (statusCode, body) =>
      let evs := match trustedManifest url body with
                 | Some _ => [fetching]
                 | None => [notValid; fetching]
                 end in
      if statusCode =? 404
      then
        (Resolved None,
         {| playlists := filter (fun q => negb (sameId (pl_id videoPlaylist) q)) (playlists s);
            elements := otherElements (pl_id videoPlaylist) (elements s);
            events := Log Info "Cannot refresh remote video playlist %s: it does not exist anymore. Deleting it." url
                      :: evs ++ events s |})
      else
        match trustedManifest url body with
        | None =>
            (Resolved (Some (refreshed videoPlaylist)),
             {| playlists := markRefreshed (pl_id videoPlaylist) (playlists s);
                elements := elements s;
                events := Log Warn "Cannot refresh remote playlist %s: invalid body." url
                          :: evs ++ events s |})
        | Some o =>
            let run := createOrUpdateVideoPlaylist o (OwnerAccount videoPlaylist) (po_to o)
                         (logged [fetching] s) in
            (match fst run with
             | Resolved _ => Resolved (Some videoPlaylist)
             | Rejected err => Rejected err
             end, snd run)
        end
  end.
Proof.
  unfold refreshVideoPlaylist, bind at 1. rewrite fetchRemoteVideoPlaylist_run. cbv zeta.
  destruct (response w (pl_url videoPlaylist)) as [[statusCode body]|]; [|reflexivity].
  destruct (trustedManifest (pl_url videoPlaylist) body) as [o|];
    destruct (statusCode =? 404); try reflexivity.
  unfold bind at 1.
  destruct (createOrUpdateVideoPlaylist o (OwnerAccount videoPlaylist) (po_to o) _)
    as [[[]|err] s']; reflexivity.
Qed.

(** The playlist table after a reconciliation, whatever its outcome: the
    former table when it stops before the upsert, the table as the upsert of
    the manifest's attributes left it otherwise. *)
Lemma createOrUpdateVideoPlaylist_rows playlistObject byAccount to s :
  playlists (snd (createOrUpdateVideoPlaylist playlistObject byAccount to s))
  = rowsAfterUpsert (upsertedAttributes playlistObject byAccount to) (playlists s).
Proof.
  rewrite createOrUpdateVideoPlaylist_run. unfold upsertedAttributes, rowsAfterUpsert.
  destruct (playlistObjectToDBAttributes playlistObject byAccount to) as [a0|];
    [|reflexivity].
  destruct (channelAttributes playlistObject a0) as [[a evs1]|]; [|reflexivity].
  destruct (upsertRows a (playlists s)) as [playlist rows] eqn:U. cbn [snd].
  destruct (pagesOf w (po_id playlistObject)) as [pages|]; [|reflexivity].
  match goal with
  | |- context [resetVideoPlaylistElements ?urls ?pl ?st] =>
      destruct (resetVideoPlaylistElements_tables urls pl st) as [P _]
  end.
  exact P.
Qed.

(** A rejected reconciliation leaves the element table as it was. *)
Lemma createOrUpdateVideoPlaylist_rejected playlistObject byAccount to s err :
  fst (createOrUpdateVideoPlaylist playlistObject byAccount to s) = Rejected err ->
  elements (snd (createOrUpdateVideoPlaylist playlistObject byAccount to s)) = elements s.
Proof.
  rewrite createOrUpdateVideoPlaylist_run.
  destruct (playlistObjectToDBAttributes playlistObject byAccount to) as [a0|];
    [|reflexivity].
  destruct (channelAttributes playlistObject a0) as [[a evs1]|]; [|reflexivity].
  destruct (upsertRows a (playlists s)) as [playlist rows].
  destruct (pagesOf w (po_id playlistObject)) as [pages|]; [|reflexivity].
  match goal with
  | |- context [resetVideoPlaylistElements ?urls ?pl ?st] =>
      destruct (resetVideoPlaylistElements_tables urls pl st) as [P T]
  end.
  cbv zeta in P, T. cbn [playlists elements] in P, T.
  destruct (insertAll _ _).
  - destruct T as [O _]. rewrite O. discriminate.
  - destruct T as [_ E]. intros _. exact E.
Qed.

(** What the upserted attributes carry of the manifest. *)
Lemma upsertedAttributes_manifest playlistObject byAccount to a :
  upsertedAttributes playlistObject byAccount to = Some a ->
  pa_name a = po_name playlistObject
  /\ pa_description a = po_content playlistObject
  /\ pa_url a = po_id playlistObject
  /\ pa_updatedAt a = po_updated playlistObject
  /\ pa_videoChannelId a = attributedChannel playlistObject.
Proof.
  unfold upsertedAttributes, playlistObjectToDBAttributes, channelAttributes,
    attributedChannel.
  destruct (indexOfFinds to (ACTIVITY_PUB_PUBLIC w)) as [found|]; [|discriminate].
  destruct (po_attributedTo playlistObject) as [[|x [|y l]]|];
    try (intros H; inversion H; subst; now repeat split).
  destruct (actorOf w x) as [actor|]; [|discriminate].
  destruct (VideoChannel actor); intros H; inversion H; subst; now repeat split.
Qed.

(** The upserted attributes are those of the manifest with the channel of
    the attributed actor. *)
Lemma upsertedAttributes_withChannel playlistObject byAccount to a :
  upsertedAttributes playlistObject byAccount to = Some a ->
  exists a0, playlistObjectToDBAttributes playlistObject byAccount to = Some a0
             /\ a = withChannel a0 (attributedChannel playlistObject).
Proof.
  unfold upsertedAttributes, playlistObjectToDBAttributes, channelAttributes,
    attributedChannel.
  destruct (indexOfFinds to (ACTIVITY_PUB_PUBLIC w)) as [found|]; [|discriminate].
  destruct (po_attributedTo playlistObject) as [[|x [|y l]]|];
    try (intros H; inversion H; subst; eexists; split; reflexivity).
  destruct (actorOf w x) as [actor|]; [|discriminate].
  destruct (VideoChannel actor); intros H; inversion H; subst;
    eexists; split; reflexivity.
Qed.

Lemma markRefreshed_keeps_names id rows p :
  In p rows ->
  exists q, In q (markRefreshed id rows)
            /\ pl_url q = pl_url p /\ pl_name q = pl_name p
            /\ pl_description q = pl_description p.
Proof.
  intros H. exists (if sameId id p then refreshed p else p). split.
  - apply in_map_iff. exists p. now split.
  - now destruct (sameId id p).
Qed.

Lemma markRefreshed_names id rows :
  map pl_name (markRefreshed id rows) = map pl_name rows
  /\ map pl_description (markRefreshed id rows) = map pl_description rows.
Proof.
  unfold markRefreshed. rewrite !map_map.
  split; apply map_ext; intros q; now destruct (sameId id q).
Qed.

Lemma upsertRows_keeps_ids a rows p :
  In p rows -> exists q, In q (snd (upsertRows a rows)) /\ pl_id q = pl_id p.
Proof.
  intros H. unfold upsertRows.
  destruct (find (sameUrl (pa_url a)) rows); simpl.
  - exists (if sameUrl (pa_url a) p then updateRow a p else p). split.
    + apply in_map_iff. exists p. now split.
    + now destruct (sameUrl (pa_url a) p).
  - exists p. split; [apply in_or_app; now left | reflexivity].
Qed.

Lemma markRefreshed_keeps_ids id rows p :
  In p rows -> exists q, In q (markRefreshed id rows) /\ pl_id q = pl_id p.
Proof.
  intros H. exists (if sameId id p then refreshed p else p). split.
  - apply in_map_iff. exists p. now split.
  - now destruct (sameId id p).
Qed.

Lemma markRefreshed_now id rows q :
  In q (markRefreshed id rows) -> pl_id q = id -> pl_lastRefreshedAt q = now w.
Proof.
  intros H Hid. apply in_map_iff in H. destruct H as (p & <- & _).
  destruct (sameId id p) eqn:E; [reflexivity|].
  unfold sameId in E. apply Z.eqb_neq in E. contradiction.
Qed.

Lemma candidates_resolved playlist urls :
  candidates playlist urls
  = map (fun r => playlistElementObjectToDBAttributes (fst r) playlist (snd r))
        (resolved urls).
Proof.
  unfold candidates, resolved, candidate.
  induction urls as [|u rest IH]; [reflexivity|]. simpl.
  destruct (resolve u) as [[e v]|]; simpl; now rewrite IH.
Qed.

(** An element object that declares an identifier on another host than the
    one it was fetched from is skipped. *)
Lemma foreign_element_skipped playlist u status e :
  response w u = Some (status, BodyElement e) ->
  checkUrlsSameHost (eo_id e) u = false ->
  candidate playlist u = None.
Proof.
  intros R H. unfold candidate, resolve. rewrite R, H.
  now rewrite andb_false_r.
Qed.

(** A manifest that declares an identifier on another host than the one it
    was fetched from is handed back as undefined by
    [fetchRemoteVideoPlaylist]. *)
Lemma foreign_manifest_invalid playlistUrl status o s :
  response w playlistUrl = Some (status, BodyPlaylist o) ->
  checkUrlsSameHost (po_id o) playlistUrl = false ->
  fst (fetchRemoteVideoPlaylist playlistUrl s) = Resolved (status, None).
Proof.
  intros R H. rewrite fetchRemoteVideoPlaylist_run, R. unfold trustedManifest.
  now rewrite H, andb_false_r.
Qed.

(** When the remote answers a trusted manifest and the reconciliation
    resolves, the refresh returns the object it was given, as it was
    given. *)
Lemma refresh_success_returns_argument videoPlaylist s statusCode body o :
  isOutdated videoPlaylist = true ->
  response w (pl_url videoPlaylist) = Some (statusCode, body) ->
  (statusCode =? 404) = false ->
  trustedManifest (pl_url videoPlaylist) body = Some o ->
  fst (createOrUpdateVideoPlaylist o (OwnerAccount videoPlaylist) (po_to o)
         (logged [Log Info "Fetching remote playlist %s." (pl_url videoPlaylist)] s))
  = Resolved tt ->
  fst (refreshVideoPlaylistIfNeeded videoPlaylist s) = Resolved (Some videoPlaylist).
Proof.
  intros Hout R E T F. unfold refreshVideoPlaylistIfNeeded, tryCatch.
  rewrite Hout. cbn [negb]. rewrite refreshVideoPlaylist_run. cbv zeta.
  rewrite R, E, T. cbn [fst snd]. now rewrite F.
Qed.

(** ** Lemmas on the thumbnail step *)

Lemma thumbnailAttempts_app a b :
  thumbnailAttempts (a ++ b) = (thumbnailAttempts a + thumbnailAttempts b)%nat.
Proof. unfold thumbnailAttempts. now rewrite filter_app, length_app. Qed.

Lemma thumbnailAttempts_none evs :
  (forall e, In e evs -> isThumbnailAttempt e = false) -> thumbnailAttempts evs = 0%nat.
Proof.
  unfold thumbnailAttempts. induction evs as [|e l IH]; intros H; [reflexivity|].
  simpl. rewrite (H e (or_introl eq_refl)). apply IH. intros x Hx. apply H. now right.
Qed.

Lemma elementWarnings_no_attempt playlist urls :
  thumbnailAttempts (rev (elementWarnings playlist urls)) = 0%nat.
Proof.
  apply thumbnailAttempts_none. intros e He. apply in_rev in He.
  unfold elementWarnings in He. apply in_flat_map in He. destruct He as (u & _ & He).
  destruct (candidate playlist u); simpl in He; [contradiction|].
  destruct He as [<-|[]]. reflexivity.
Qed.

Lemma thumbnailEvents_attempts playlist playlistObject accItems :
  thumbnailAttempts (thumbnailEvents playlist playlistObject accItems)
  = match accItems with [] => 0%nat | _ :: _ => 1%nat end.
Proof.
  unfold thumbnailEvents. destruct accItems; [reflexivity|].
  destruct (po_icon playlistObject) as [i|]; [|reflexivity].
  destruct (imageFetched w (icon_url i)); reflexivity.
Qed.

Lemma channelAttributes_metadata playlistObject a0 a evs :
  channelAttributes playlistObject a0 = Some (a, evs) ->
  pa_url a = pa_url a0 /\ pa_name a = pa_name a0
  /\ pa_description a = pa_description a0 /\ thumbnailAttempts evs = 0%nat.
Proof.
  unfold channelAttributes.
  destruct (po_attributedTo playlistObject) as [[|x [|y l]]|];
    try (intros H; inversion H; subst; now repeat split).
  destruct (actorOf w x) as [actor|]; [|discriminate].
  destruct (VideoChannel actor); intros H; inversion H; subst; now repeat split.
Qed.

(** The row the upsert returns is in the table, under the URL of the
    attributes and with their name and description. *)
Lemma upsertRows_row a rows :
  let p := fst (upsertRows a rows) in
  In p (snd (upsertRows a rows))
  /\ pl_url p = pa_url a /\ pl_name p = pa_name a
  /\ pl_description p = pa_description a.
Proof.
  cbv zeta. unfold upsertRows.
  destruct (find (sameUrl (pa_url a)) rows) as [p0|] eqn:E; simpl.
  - apply find_some in E. destruct E as [Hin Hurl]. split.
    + apply in_map_iff. exists p0. now rewrite Hurl.
    + unfold sameUrl in Hurl. apply String.eqb_eq in Hurl. now repeat split.
  - split; [apply in_or_app; right; now left | now repeat split].
Qed.

(** Outcome and tables of the element replacement do not depend on the
    trace. *)
Lemma resetVideoPlaylistElements_same_tables urls playlist s1 s2 :
  playlists s1 = playlists s2 -> elements s1 = elements s2 ->
  fst (resetVideoPlaylistElements urls playlist s1)
  = fst (resetVideoPlaylistElements urls playlist s2)
  /\ playlists (snd (resetVideoPlaylistElements urls playlist s1))
     = playlists (snd (resetVideoPlaylistElements urls playlist s2))
  /\ elements (snd (resetVideoPlaylistElements urls playlist s1))
     = elements (snd (resetVideoPlaylistElements urls playlist s2)).
Proof.
  intros Hp He.
  destruct (resetVideoPlaylistElements_tables urls playlist s1) as [P1 T1].
  destruct (resetVideoPlaylistElements_tables urls playlist s2) as [P2 T2].
  cbv zeta in *. rewrite He in T1.
  destruct (insertAll _ _); destruct T1 as [O1 E1]; destruct T2 as [O2 E2];
    rewrite O1, O2, E1, E2, P1, P2, Hp, ?He; auto.
Qed.

Lemma resolve_sound u e video :
  resolve u = Some (e, video) ->
  (exists statusCode, response w u = Some (statusCode, BodyElement e))
  /\ playlistElementObjectShape w e = true
  /\ checkUrlsSameHost (eo_id e) u = true
  /\ videoOf w (eo_url e) = Some video.
Proof.
  unfold resolve.
  destruct (response w u) as [[statusCode [| |e']]|]; try discriminate.
  destruct (playlistElementObjectShape w e') eqn:S1; [|discriminate].
  destruct (checkUrlsSameHost (eo_id e') u) eqn:S2; [|discriminate].
  cbn. destruct (videoOf w (eo_url e')) eqn:V; [|discriminate].
  intros H. inversion H. subst. repeat split; auto. now exists statusCode.
Qed.

Lemma resolved_length urls : (List.length (resolved urls) <= List.length urls)%nat.
Proof.
  unfold resolved. induction urls as [|u rest IH]; [apply Nat.le_refl|]. simpl.
  rewrite length_app. destruct (resolve u); simpl; lia.
Qed.

Lemma resolved_bluebirdOrder urls :
  Permutation (resolved (bluebirdOrder urls)) (resolved urls).
Proof. unfold resolved. apply Permutation_flat_map, bluebirdOrder_Permutation. Qed.

Lemma resolved_valid urls r :
  In r (resolved urls) -> playlistElementObjectShape w (fst r) = true.
Proof.
  unfold resolved. rewrite in_flat_map. intros (u & _ & Hr).
  destruct (resolve u) as [[e video]|] eqn:R; simpl in Hr; [|contradiction].
  destruct Hr as [<-|[]]. now apply resolve_sound in R.
Qed.

(** ** Theorems *)

(** C1: the replacement of a playlist's element set is all-or-nothing.  When
    [resetVideoPlaylistElements] resolves, every former element of the
    playlist is gone, the stored elements of the playlist are exactly the
    resolved candidates (the same rows with the same multiplicities, stored
    in the order in which the callbacks pushed them), and the rows of other
    playlists are kept; when it rejects, the transaction is rolled back and
    both tables are as they were before.  It resolves exactly when the table
    accepts each candidate row in turn. *)
Theorem resetVideoPlaylistElements_all_or_nothing urls playlist s :
  let run := resetVideoPlaylistElements urls playlist s in
  let id := pl_id playlist in
  let pushed := candidates playlist (bluebirdOrder urls) in
  match fst run with
  | Resolved _ =>
      insertAll (otherElements id (elements s)) pushed <> None
      /\ elements (snd run) = otherElements id (elements s) ++ pushed
      /\ elementsOf id (elements (snd run)) = pushed
      /\ Permutation (elementsOf id (elements (snd run))) (candidates playlist urls)
      /\ otherElements id (elements (snd run)) = otherElements id (elements s)
      /\ playlists (snd run) = playlists s
  | Rejected _ =>
      insertAll (otherElements id (elements s)) pushed = None
      /\ elements (snd run) = elements s
      /\ playlists (snd run) = playlists s
  end.
Proof.
  cbv zeta. rewrite resetVideoPlaylistElements_run. cbv zeta.
  destruct (insertAll _ _) as [table|] eqn:E; simpl.
  - apply insertAll_app in E. subst table.
    assert (S : elementsOf (pl_id playlist)
                  (otherElements (pl_id playlist) (elements s)
                   ++ candidates playlist (bluebirdOrder urls))
                = candidates playlist (bluebirdOrder urls)).
    { now rewrite elementsOf_app, elementsOf_otherElements, elementsOf_candidates. }
    split; [discriminate|]. split; [reflexivity|]. split; [exact S|].
    split; [rewrite S; apply candidates_bluebirdOrder|]. split; [|reflexivity].
    rewrite otherElements_app, otherElements_idem, otherElements_candidates.
    apply app_nil_r.
  - repeat split.
Qed.

(** C7: reconciliation is idempotent.  Running [createOrUpdateVideoPlaylist]
    a second time on the store the first run left, with the manifest, the
    crawl and the resolutions unchanged, ends with the same outcome, the same
    element table (same rows, same order, same count) and the same playlist
    table as the first run. *)
Theorem createOrUpdateVideoPlaylist_idempotent playlistObject byAccount to s :
  let once := createOrUpdateVideoPlaylist playlistObject byAccount to s in
  let twice := createOrUpdateVideoPlaylist playlistObject byAccount to (snd once) in
  fst twice = fst once
  /\ elements (snd twice) = elements (snd once)
  /\ playlists (snd twice) = playlists (snd once).
Proof.
  cbv zeta.
  rewrite (createOrUpdateVideoPlaylist_run _ _ _ s).
  destruct (playlistObjectToDBAttributes playlistObject byAccount to) as [a0|] eqn:A.
  2:{ cbn [snd fst]. rewrite createOrUpdateVideoPlaylist_run, A. repeat split. }
  destruct (channelAttributes playlistObject a0) as [[a evs1]|] eqn:C.
  2:{ cbn [snd fst]. rewrite createOrUpdateVideoPlaylist_run, A, C. repeat split. }
  pose proof (upsertRows_idem a (playlists s)) as U.
  destruct (upsertRows a (playlists s)) as [playlist rows]. simpl in U.
  destruct (pagesOf w (po_id playlistObject)) as [pages|] eqn:P.
  2:{ cbn [snd fst playlists]. rewrite createOrUpdateVideoPlaylist_run, A, C.
      cbn [playlists]. rewrite U, P. repeat split. }
  match goal with
  | |- context [resetVideoPlaylistElements ?urls ?pl ?st] =>
      set (s0 := st);
      pose proof (resetVideoPlaylistElements_tables urls pl s0) as [P1 _]
  end.
  cbv zeta in P1. simpl in P1.
  rewrite createOrUpdateVideoPlaylist_run, A, C, P1, U, P.
  match goal with
  | |- fst (resetVideoPlaylistElements _ _ ?s1) = _ /\ _ =>
      destruct (resetVideoPlaylistElements_idem (List.concat pages) playlist s0 s1)
        as (H1 & H2 & H3); cbn [playlists elements]; [now rewrite P1 | reflexivity |]
  end.
  rewrite H1, H2, H3. repeat split. exact P1.
Qed.

(** C3: when the fetch of an outdated playlist answers 404, whatever the body
    and whatever the store held before, the refresh returns undefined and
    afterwards the store holds no row of the playlist and no element of
    it. *)
Theorem refresh_404_removes_playlist videoPlaylist s body :
  isOutdated videoPlaylist = true ->
  response w (pl_url videoPlaylist) = Some (404, body) ->
  let run := refreshVideoPlaylistIfNeeded videoPlaylist s in
  fst run = Resolved None
  /\ (forall p, In p (playlists (snd run)) -> pl_id p <> pl_id videoPlaylist)
  /\ (forall e, In e (elements (snd run)) -> el_videoPlaylistId e <> pl_id videoPlaylist).
Proof.
  intros Hout Hresp. cbv zeta. unfold refreshVideoPlaylistIfNeeded, tryCatch.
  rewrite Hout. cbn [negb]. rewrite refreshVideoPlaylist_run. cbv zeta.
  rewrite Hresp. simpl.
  split; [reflexivity|]. split.
  - intros p Hp. apply filter_In in Hp. destruct Hp as [_ Hp].
    unfold sameId in Hp. apply negb_true_iff, Z.eqb_neq in Hp. exact Hp.
  - intros e He. apply filter_In in He. destruct He as [_ He].
    unfold ofPlaylist in He. apply negb_true_iff, Z.eqb_neq in He. exact He.
Qed.

(** C4, as amended: when the fetch of an outdated playlist answers an invalid
    body with a status other than 404, or when the refresh throws, the
    refresh returns the playlist object with only lastRefreshedAt set to now,
    the element table is left as it was, no playlist row is deleted and the
    rows of the playlist have lastRefreshedAt = now.  The playlist table is
    otherwise unchanged, names and descriptions included, on an invalid body
    and after an exception that occurs before the upsert of the row (the
    request fails, the audience has no indexOf, the attributed actor does
    not resolve); after an exception that occurs later (the crawl rejects,
    the transaction is rolled back) it is the table as the upsert left it:
    the row of the playlist carries the name and the description of the
    manifest. *)
Theorem refresh_failure_marks_refreshed videoPlaylist s :
  isOutdated videoPlaylist = true ->
  invalidBody videoPlaylist = true
  \/ (exists err, fst (refreshVideoPlaylist videoPlaylist s) = Rejected err) ->
  let run := refreshVideoPlaylistIfNeeded videoPlaylist s in
  let id := pl_id videoPlaylist in
  let upserted := refreshedAttributes videoPlaylist in
  fst run = Resolved (Some (refreshed videoPlaylist))
  /\ elements (snd run) = elements s
  /\ (forall p, In p (playlists s) ->
                exists q, In q (playlists (snd run)) /\ pl_id q = pl_id p)
  /\ (forall q, In q (playlists (snd run)) -> pl_id q = id ->
                pl_lastRefreshedAt q = now w)
  /\ playlists (snd run) = markRefreshed id (rowsAfterUpsert upserted (playlists s))
  /\ (invalidBody videoPlaylist = true -> upserted = None)
  /\ (upserted = None ->
      playlists (snd run) = markRefreshed id (playlists s)
      /\ map pl_name (playlists (snd run)) = map pl_name (playlists s)
      /\ map pl_description (playlists (snd run)) = map pl_description (playlists s))
  /\ (forall a, upserted = Some a ->
        exists statusCode o a0 row,
          response w (pl_url videoPlaylist) = Some (statusCode, BodyPlaylist o)
          /\ playlistObjectToDBAttributes o (OwnerAccount videoPlaylist) (po_to o) = Some a0
          /\ a = withChannel a0 (attributedChannel o)
          /\ pa_name a = po_name o /\ pa_description a = po_content o
          /\ pa_url a = po_id o
          /\ In row (playlists (snd run))
          /\ pl_url row = po_id o
          /\ pl_name row = po_name o /\ pl_description row = po_content o).
Proof.
  intros Hout H. cbv zeta.
  assert (G :
    fst (refreshVideoPlaylistIfNeeded videoPlaylist s)
      = Resolved (Some (refreshed videoPlaylist))
    /\ elements (snd (refreshVideoPlaylistIfNeeded videoPlaylist s)) = elements s
    /\ playlists (snd (refreshVideoPlaylistIfNeeded videoPlaylist s))
       = markRefreshed (pl_id videoPlaylist)
           (rowsAfterUpsert (refreshedAttributes videoPlaylist) (playlists s))).
  { unfold refreshVideoPlaylistIfNeeded, tryCatch. rewrite Hout. cbn [negb].
    pose proof (refreshVideoPlaylist_run videoPlaylist s) as R. cbv zeta in R.
    unfold invalidBody, refreshedAttributes in *.
    destruct (response w (pl_url videoPlaylist)) as [[statusCode body]|].
    - destruct (statusCode =? 404).
      + exfalso. destruct H as [H|[err H]]; [discriminate|].
        rewrite R in H. discriminate.
      + destruct (trustedManifest (pl_url videoPlaylist) body) as [o|].
        * destruct H as [H|[err H]]; [discriminate|].
          rewrite R in H |- *. cbn [fst snd negb andb] in *.
          pose proof (createOrUpdateVideoPlaylist_rows o (OwnerAccount videoPlaylist)
                        (po_to o)
                        (logged [Log Info "Fetching remote playlist %s."
                                     (pl_url videoPlaylist)] s)) as Fp.
          destruct (fst (createOrUpdateVideoPlaylist o (OwnerAccount videoPlaylist)
                           (po_to o) _)) as [u|err'] eqn:F; [discriminate|].
          apply createOrUpdateVideoPlaylist_rejected in F.
          split; [reflexivity|]. split; [exact F|].
          cbn [snd playlists setAsRefreshed bind logger ret]. cbn. rewrite Fp. reflexivity.
        * rewrite R. repeat split.
    - destruct H as [H|[err H]]; [discriminate|].
      rewrite R. repeat split. }
  destruct G as (G1 & G2 & G3).
  split; [exact G1|]. split; [exact G2|].
  rewrite G3. split; [|split; [|split; [|split; [|split]]]].
  - intros p Hp.
    assert (K : exists q, In q (rowsAfterUpsert (refreshedAttributes videoPlaylist)
                                  (playlists s)) /\ pl_id q = pl_id p).
    { unfold rowsAfterUpsert. destruct (refreshedAttributes videoPlaylist) as [a|].
      - now apply upsertRows_keeps_ids.
      - now exists p. }
    destruct K as (q & Hq & Eq).
    destruct (markRefreshed_keeps_ids (pl_id videoPlaylist) _ q Hq) as (q' & Hq' & Eq').
    exists q'. split; [exact Hq' | congruence].
  - intros q Hq Hid. eapply markRefreshed_now; eauto.
  - reflexivity.
  - unfold invalidBody, refreshedAttributes.
    destruct (response w (pl_url videoPlaylist)) as [[statusCode body]|]; [|reflexivity].
    destruct (statusCode =? 404); [reflexivity|].
    destruct (trustedManifest (pl_url videoPlaylist) body); [discriminate | reflexivity].
  - intros ->. cbn [rowsAfterUpsert]. split; [reflexivity|]. apply markRefreshed_names.
  - intros a Ha. rewrite Ha. cbn [rowsAfterUpsert].
    unfold refreshedAttributes in Ha.
    destruct (response w (pl_url videoPlaylist)) as [[statusCode body]|]; [|discriminate].
    destruct (statusCode =? 404); [discriminate|].
    destruct (trustedManifest (pl_url videoPlaylist) body) as [o|] eqn:T; [|discriminate].
    assert (B : body = BodyPlaylist o).
    { unfold trustedManifest in T. destruct body as [|o'|e]; try discriminate.
      destruct (_ && _); [|discriminate]. now inversion T. }
    destruct (upsertedAttributes_withChannel _ _ _ _ Ha) as (a0 & A0 & Ea).
    apply upsertedAttributes_manifest in Ha. destruct Ha as (An & Ad & Au & _).
    pose proof (upsertRows_row a (playlists s)) as U. cbv zeta in U.
    destruct U as (Uin & Uurl & Uname & Udesc).
    destruct (markRefreshed_keeps_names (pl_id videoPlaylist) _ _ Uin)
      as (row & Rin & Rurl & Rname & Rdesc).
    exists statusCode, o, a0, row. subst body.
    repeat split; try assumption; congruence.
Qed.

(** C6: for every inserted element, the explicit declared position wins.
    The validator of element objects lets through only objects that declare
    a position, so every candidate carries one; the stored position of every
    inserted element is that declared position, which is what the rule of
    the specification gives whatever the place of the candidate in the
    crawled sequence.  The stored elements are the rows of the URLs that
    resolve, so when an item fails to resolve the surviving elements keep
    their declared positions and are not renumbered. *)
Theorem stored_position_is_declared_position urls playlist s :
  (forall e, playlistElementObjectShape w e = true -> declaresPosition e = true) ->
  fst (resetVideoPlaylistElements urls playlist s) = Resolved tt ->
  let stored := elementsOf (pl_id playlist)
                  (elements (snd (resetVideoPlaylistElements urls playlist s))) in
  let survivors := resolved (bluebirdOrder urls) in
  stored = map (fun r => playlistElementObjectToDBAttributes (fst r) playlist (snd r))
               survivors
  /\ Forall2 (fun a r => el_position a = eo_position (fst r)
                         /\ forall order, el_position a = positionBySpec order (fst r))
             stored survivors
  /\ Permutation (map el_position stored)
                 (map (fun r => eo_position (fst r)) (resolved urls)).
Proof.
  intros HV H. cbv zeta.
  pose proof (resetVideoPlaylistElements_stored urls playlist s) as A.
  rewrite H in A. rewrite A, candidates_resolved. split; [reflexivity|]. split.
  - assert (F : forall l,
              (forall r, In r l -> declaresPosition (fst r) = true) ->
              Forall2 (fun a r => el_position a = eo_position (fst r)
                                  /\ forall order,
                                       el_position a = positionBySpec order (fst r))
                (map (fun r => playlistElementObjectToDBAttributes (fst r) playlist (snd r)) l)
                l).
    { induction l as [|r l IH]; intros D; [constructor|]. simpl. constructor.
      - split; [reflexivity|]. intros order.
        specialize (D r (or_introl eq_refl)). unfold declaresPosition in D.
        unfold positionBySpec. cbn [playlistElementObjectToDBAttributes el_position].
        destruct (eo_position (fst r)); try reflexivity; discriminate.
      - apply IH. intros x Hx. apply D. now right. }
    apply F. intros r Hr. apply HV. eapply resolved_valid; eauto.
  - rewrite map_map. cbn [playlistElementObjectToDBAttributes el_position].
    apply Permutation_map, resolved_bluebirdOrder.
Qed.

(** C10: a declared startTimestamp or stopTimestamp that is falsy (absent,
    null, 0, false or the empty string) is stored as null; any other value
    is stored as declared. *)
Theorem falsy_timestamps_stored_as_null elementObject videoPlaylist video :
  let stored (declared : JsValue) : JsValue :=
    match declared with
    | JsUndefined | JsNull => JsNull
    | JsNumber n => if n =? 0 then JsNull else JsNumber n
    | JsBool b => if b then JsBool true else JsNull
    | JsString str => if String.eqb str EmptyString then JsNull else JsString str
    end in
  let row := playlistElementObjectToDBAttributes elementObject videoPlaylist video in
  el_startTimestamp row = stored (eo_startTimestamp elementObject)
  /\ el_stopTimestamp row = stored (eo_stopTimestamp elementObject).
Proof.
  cbv zeta. unfold playlistElementObjectToDBAttributes, js_or. simpl.
  split.
  - destruct (eo_startTimestamp elementObject) as [| |[]|n|str]; simpl; try reflexivity.
    + now destruct (n =? 0).
    + now destruct (String.eqb str EmptyString).
  - destruct (eo_stopTimestamp elementObject) as [| |[]|n|str]; simpl; try reflexivity.
    + now destruct (n =? 0).
    + now destruct (String.eqb str EmptyString).
Qed.

(** ** Further properties of the module *)

Lemma upsertRows_row_channel a rows :
  pl_videoChannelId (fst (upsertRows a rows)) = pa_videoChannelId a.
Proof.
  unfold upsertRows. now destruct (find (sameUrl (pa_url a)) rows).
Qed.

(** X1: the visibility of a playlist is read off the audience alone: PUBLIC
    when the audience contains the public marker, UNLISTED otherwise, never
    PRIVATE; the attributes carry no channel and the declared identifier as
    URL.  For an audience that is an array the marker has to be one of its
    items; for an audience that is a string it has to occur in the string;
    for any other audience the function throws. *)
Theorem playlist_privacy_from_audience playlistObject byAccount to :
  (exists a,
     playlistObjectToDBAttributes playlistObject byAccount (AudienceArray to) = Some a
     /\ (pa_privacy a = PUBLIC <-> In (ACTIVITY_PUB_PUBLIC w) to)
     /\ (pa_privacy a = UNLISTED <-> ~ In (ACTIVITY_PUB_PUBLIC w) to)
     /\ pa_privacy a <> PRIVATE
     /\ pa_videoChannelId a = None
     /\ pa_url a = po_id playlistObject
     /\ pa_ownerAccountId a = acc_id byAccount)
  /\ (forall text, exists a,
        playlistObjectToDBAttributes playlistObject byAccount (AudienceString text) = Some a
        /\ (pa_privacy a = PUBLIC <->
            exists n, substring n (String.length (ACTIVITY_PUB_PUBLIC w)) text
                      = ACTIVITY_PUB_PUBLIC w)
        /\ pa_privacy a <> PRIVATE
        /\ pa_videoChannelId a = None
        /\ pa_url a = po_id playlistObject)
  /\ playlistObjectToDBAttributes playlistObject byAccount AudienceOther = None.
Proof.
  unfold playlistObjectToDBAttributes. cbn [indexOfFinds].
  split; [|split; [|reflexivity]].
  - eexists. split; [reflexivity|].
    cbn [pa_privacy pa_videoChannelId pa_url pa_ownerAccountId].
    destruct (existsb (String.eqb (ACTIVITY_PUB_PUBLIC w)) to) eqn:E.
    + apply existsb_exists in E. destruct E as (x & Hx & E).
      apply String.eqb_eq in E. subst x.
      repeat split; try discriminate; auto. intros H; contradiction.
    + assert (N : ~ In (ACTIVITY_PUB_PUBLIC w) to).
      { intros H. assert (T : existsb (String.eqb (ACTIVITY_PUB_PUBLIC w)) to = true).
        { apply existsb_exists. exists (ACTIVITY_PUB_PUBLIC w). split; [exact H|].
          apply String.eqb_refl. }
        congruence. }
      repeat split; try discriminate; auto. intros H; contradiction.
  - intros text. eexists. split; [reflexivity|].
    cbn [pa_privacy pa_videoChannelId pa_url].
    destruct (String.index 0 (ACTIVITY_PUB_PUBLIC w) text) as [n|] eqn:E.
    + repeat split; try discriminate. intros _. exists n.
      now apply index_correct1 with (n := 0%nat).
    + repeat split; try discriminate. intros [n Hn]. exfalso.
      destruct (string_dec (ACTIVITY_PUB_PUBLIC w) EmptyString) as [Z|NZ].
      * rewrite Z in E. apply index_correct4 in E. lia.
      * exact (index_correct3 0 n _ _ E NZ (Nat.le_0_l n) Hn).
Qed.

(** X2: when the manifest is attributed to exactly one actor and the
    resolution of that actor rejects, the reconciliation rejects before
    anything is written: no row is upserted, nothing is crawled, no
    thumbnail is attempted, no element is touched. *)
Theorem unresolved_actor_stops_reconciliation playlistObject byAccount to s attributedTo :
  po_attributedTo playlistObject = Some [attributedTo] ->
  actorOf w attributedTo = None ->
  createOrUpdateVideoPlaylist playlistObject byAccount (AudienceArray to) s
  = (Rejected "cannot resolve actor", s).
Proof.
  intros HA HN. rewrite createOrUpdateVideoPlaylist_run.
  unfold playlistObjectToDBAttributes, channelAttributes. cbn [indexOfFinds].
  now rewrite HA, HN.
Qed.

(** X3: whenever the reconciliation gets past the attributed actor, the
    store afterwards holds a row under the declared identifier whose channel
    reference is the channel of the single attributed actor, and null when
    the manifest is attributed to no actor, to several, or to an actor
    without channel; this holds whatever the crawl and the element
    replacement do afterwards. *)
Theorem upserted_row_channel playlistObject byAccount to s :
  (forall attributedTo, po_attributedTo playlistObject = Some [attributedTo] ->
                        actorOf w attributedTo <> None) ->
  let run := createOrUpdateVideoPlaylist playlistObject byAccount (AudienceArray to) s in
  exists row,
    In row (playlists (snd run))
    /\ pl_url row = po_id playlistObject
    /\ pl_videoChannelId row = attributedChannel playlistObject.
Proof.
  intros H. cbv zeta. rewrite createOrUpdateVideoPlaylist_rows.
  assert (C : exists a,
             upsertedAttributes playlistObject byAccount (AudienceArray to) = Some a).
  { unfold upsertedAttributes, playlistObjectToDBAttributes, channelAttributes.
    cbn [indexOfFinds].
    destruct (po_attributedTo playlistObject) as [[|x [|y l]]|] eqn:A;
      try (eexists; reflexivity).
    specialize (H x eq_refl).
    destruct (actorOf w x) as [actor|]; [|congruence].
    destruct (VideoChannel actor); eexists; reflexivity. }
  destruct C as (a & C). rewrite C. cbn [rowsAfterUpsert].
  apply upsertedAttributes_manifest in C. destruct C as (_ & _ & Curl & _ & Cch).
  pose proof (upsertRows_row a (playlists s)) as U. cbv zeta in U.
  destruct U as (Hin & Hurl & _).
  exists (fst (upsertRows a (playlists s))).
  rewrite upsertRows_row_channel. repeat split; [exact Hin | congruence | congruence].
Qed.

(** X4: unless the remote answers 404, a refresh deletes no playlist: every
    row of the playlist table is still there afterwards, under the same
    id. *)
Theorem refresh_keeps_rows_unless_404 videoPlaylist s :
  (forall body, response w (pl_url videoPlaylist) <> Some (404, body)) ->
  forall p, In p (playlists s) ->
  exists q, In q (playlists (snd (refreshVideoPlaylistIfNeeded videoPlaylist s)))
            /\ pl_id q = pl_id p.
Proof.
  intros H p Hp. unfold refreshVideoPlaylistIfNeeded.
  destruct (isOutdated videoPlaylist); cbn [negb]; [|now exists p].
  unfold tryCatch. rewrite refreshVideoPlaylist_run. cbv zeta.
  destruct (response w (pl_url videoPlaylist)) as [[statusCode body]|].
  - destruct (statusCode =? 404) eqn:E.
    + apply Z.eqb_eq in E. subst statusCode. exfalso. now apply (H body).
    + destruct (trustedManifest (pl_url videoPlaylist) body) as [o|].
      * set (run := createOrUpdateVideoPlaylist o (OwnerAccount videoPlaylist) (po_to o) _).
        assert (K : exists q, In q (playlists (snd run)) /\ pl_id q = pl_id p).
        { subst run. rewrite createOrUpdateVideoPlaylist_rows. unfold rowsAfterUpsert.
          destruct (upsertedAttributes o (OwnerAccount videoPlaylist) (po_to o)).
          - now apply upsertRows_keeps_ids.
          - now exists p. }
        destruct K as (q & Hq & Eq).
        cbn [fst snd]. destruct (fst run); cbn [snd].
        -- now exists q.
        -- destruct (markRefreshed_keeps_ids (pl_id videoPlaylist) _ q Hq) as (q' & Hq' & Eq').
           exists q'. split; [exact Hq' | congruence].
      * cbn [snd playlists].
        destruct (markRefreshed_keeps_ids (pl_id videoPlaylist) _ p Hp) as (q' & Hq' & Eq').
        now exists q'.
  - cbn [snd playlists logged].
    destruct (markRefreshed_keeps_ids (pl_id videoPlaylist) _ p Hp) as (q' & Hq' & Eq').
    now exists q'.
Qed.

(** What the callback does for a URL that is known or not storable. *)
Lemma accountPlaylistCallback_skips account u s :
  existsb (sameUrl u) (playlists s) = true \/ storable u = false ->
  exists s1, accountPlaylistCallback account u s = (Resolved tt, s1)
             /\ playlists s1 = playlists s /\ elements s1 = elements s
             /\ (existsb (sameUrl u) (playlists s) = true -> s1 = s).
Proof.
  intros H. unfold accountPlaylistCallback, bind at 1, tryCatch, bind at 1, doesPlaylistExist.
  destruct (existsb (sameUrl u) (playlists s)) eqn:E.
  - cbn. exists s. now repeat split.
  - destruct H as [H|H]; [discriminate|].
    unfold storable in H. unfold bind at 1, doRequest.
    destruct (response w u) as [[statusCode body]|]; cbn;
      [|eexists; split; [reflexivity | repeat split; discriminate]].
    destruct body as [|o|e]; cbn;
      try (eexists; split; [reflexivity | repeat split; discriminate]).
    destruct (playlistObjectShape w o); cbn in *;
      [|eexists; split; [reflexivity | repeat split; discriminate]].
    destruct (po_to o); [discriminate| |]; cbn;
      (eexists; split; [reflexivity | repeat split; discriminate]).
Qed.

(** X5: a rejection of the reconciliation is not caught by the [try] block
    of the callback, which returns the promise without awaiting it.  For a
    URL that is not known and answers a playlist object of valid shape with
    an audience, when [createOrUpdateVideoPlaylist] rejects, the whole of
    [createAccountPlaylists] rejects with that error, nothing is logged for
    it, and the URLs after it are not processed. *)
Theorem createAccountPlaylists_rejection_escapes u rest account s statusCode o to err :
  existsb (sameUrl u) (playlists s) = false ->
  response w u = Some (statusCode, BodyPlaylist o) ->
  playlistObjectShape w o = true ->
  po_to o = AudienceArray to ->
  fst (createOrUpdateVideoPlaylist o account (AudienceArray to) s) = Rejected err ->
  createAccountPlaylists (u :: rest) account s
  = (Rejected err, snd (createOrUpdateVideoPlaylist o account (AudienceArray to) s)).
Proof.
  intros HE HR HS HT HF.
  assert (K : accountPlaylistCallback account u s
              = createOrUpdateVideoPlaylist o account (AudienceArray to) s).
  { unfold accountPlaylistCallback, bind at 1, tryCatch, bind at 1, doesPlaylistExist.
    rewrite HE. unfold bind at 1, doRequest. rewrite HR.
    cbn [snd ret isPlaylistObjectValid]. rewrite HS. cbn [negb]. rewrite HT.
    reflexivity. }
  unfold createAccountPlaylists, bluebirdMap. cbn [bluebirdOrder callInTurn].
  unfold bind at 1. rewrite K.
  destruct (createOrUpdateVideoPlaylist o account (AudienceArray to) s) as [[[]|err'] s1];
    cbn [fst snd] in *; [discriminate|]. now inversion HF.
Qed.

(** X6: a URL under which a playlist already exists is skipped without a
    request: when every URL is known, [createAccountPlaylists] leaves the
    store exactly as it was, trace included. *)
Theorem createAccountPlaylists_skips_known playlistUrls account s :
  (forall u, In u playlistUrls -> existsb (sameUrl u) (playlists s) = true) ->
  createAccountPlaylists playlistUrls account s = (Resolved tt, s).
Proof.
  unfold createAccountPlaylists, bluebirdMap. intros H.
  assert (K : forall u, In u (bluebirdOrder playlistUrls) ->
                        existsb (sameUrl u) (playlists s) = true).
  { intros u Hu. apply H. now apply bluebirdOrder_In. }
  clear H. induction (bluebirdOrder playlistUrls) as [|u rest IH]; [reflexivity|].
  simpl. unfold bind at 1.
  destruct (accountPlaylistCallback_skips account u s
              (or_introl (K u (or_introl eq_refl)))) as (s1 & -> & _ & _ & E).
  rewrite (E (K u (or_introl eq_refl))).
  apply IH. intros x Hx. apply K. now right.
Qed.

(** X7: [createAccountPlaylists] stores nothing for a URL whose playlist is
    already known, whose request fails, whose body is not a playlist object
    of valid shape, or whose audience is not an array: when every URL is of
    that kind, it resolves and both tables are left as they were. *)
Theorem createAccountPlaylists_ignores_unstorable playlistUrls account : forall s,
  (forall u, In u playlistUrls ->
             existsb (sameUrl u) (playlists s) = true \/ storable u = false) ->
  let run := createAccountPlaylists playlistUrls account s in
  fst run = Resolved tt
  /\ playlists (snd run) = playlists s /\ elements (snd run) = elements s.
Proof.
  unfold createAccountPlaylists, bluebirdMap. intros s H.
  assert (K : forall u, In u (bluebirdOrder playlistUrls) ->
                        existsb (sameUrl u) (playlists s) = true \/ storable u = false).
  { intros u Hu. apply H. now apply bluebirdOrder_In. }
  clear H. revert s K.
  induction (bluebirdOrder playlistUrls) as [|u rest IH]; intros s H; [now repeat split|].
  cbv zeta.
  destruct (accountPlaylistCallback_skips account u s (H u (or_introl eq_refl)))
    as (s1 & K & P1 & E1 & _).
  assert (Step : callInTurn (accountPlaylistCallback account) (u :: rest) s
                 = callInTurn (accountPlaylistCallback account) rest s1).
  { simpl. unfold bind. now rewrite K. }
  rewrite Step, <- P1, <- E1.
  apply IH. intros x Hx. rewrite P1. apply H. now right.
Qed.

(** X8: [fetchRemoteVideoPlaylist] hands back the status code of the
    response whether or not the body is valid, so that a caller can tell 404
    apart; it hands back a manifest exactly when the body is a playlist
    object of valid shape whose identifier is on the host of the URL; and it
    writes to no table. *)
Theorem fetchRemoteVideoPlaylist_status_and_manifest playlistUrl statusCode body s :
  response w playlistUrl = Some (statusCode, body) ->
  let run := fetchRemoteVideoPlaylist playlistUrl s in
  exists playlistObject,
    fst run = Resolved (statusCode, playlistObject)
    /\ (forall o, playlistObject = Some o <->
                  body = BodyPlaylist o
                  /\ playlistObjectShape w o = true
                  /\ checkUrlsSameHost (po_id o) playlistUrl = true)
    /\ playlists (snd run) = playlists s
    /\ elements (snd run) = elements s.
Proof.
  intros R. cbv zeta. rewrite fetchRemoteVideoPlaylist_run, R.
  exists (trustedManifest playlistUrl body).
  split; [now destruct (trustedManifest playlistUrl body)|].
  split; [|now destruct (trustedManifest playlistUrl body)].
  intros o. unfold trustedManifest.
  destruct body as [|o'|e]; try (split; [discriminate | intros (B & _); discriminate]).
  destruct (playlistObjectShape w o') eqn:S1;
    destruct (checkUrlsSameHost (po_id o') playlistUrl) eqn:S2; cbn.
  - split.
    + intros E. inversion E. subst. now repeat split.
    + intros (B & _). inversion B. reflexivity.
  - split; [discriminate|]. intros (B & _ & C). inversion B. subst. congruence.
  - split; [discriminate|]. intros (B & C & _). inversion B. subst. congruence.
  - split; [discriminate|]. intros (B & C & _). inversion B. subst. congruence.
Qed.

(** X9: after an element replacement that resolves, every stored element of
    the playlist was fetched from one of the URLs, from an object of valid
    shape whose identifier (the stored URL) is on the host of that URL and
    whose video resolved; and there are at most as many stored elements as
    URLs. *)
Theorem stored_elements_come_from_their_host urls playlist s :
  fst (resetVideoPlaylistElements urls playlist s) = Resolved tt ->
  let stored := elementsOf (pl_id playlist)
                  (elements (snd (resetVideoPlaylistElements urls playlist s))) in
  (List.length stored <= List.length urls)%nat
  /\ forall a, In a stored ->
       exists u statusCode e video,
         In u urls
         /\ response w u = Some (statusCode, BodyElement e)
         /\ playlistElementObjectShape w e = true
         /\ checkUrlsSameHost (el_url a) u = true
         /\ videoOf w (eo_url e) = Some video
         /\ a = playlistElementObjectToDBAttributes e playlist video.
Proof.
  intros H. cbv zeta.
  pose proof (resetVideoPlaylistElements_stored urls playlist s) as A.
  rewrite H in A. rewrite A, candidates_resolved. split.
  - rewrite length_map, <- (bluebirdOrder_length urls). apply resolved_length.
  - intros a Ha. apply in_map_iff in Ha. destruct Ha as ([e video] & <- & Hr).
    unfold resolved in Hr. apply in_flat_map in Hr. destruct Hr as (u & Hu & Hr).
    apply (proj1 (bluebirdOrder_In urls u)) in Hu.
    destruct (resolve u) as [r|] eqn:R; simpl in Hr; [|contradiction].
    destruct Hr as [->|[]].
    apply resolve_sound in R. destruct R as ((statusCode & R1) & R2 & R3 & R4).
    exists u, statusCode, e, video. now repeat split.
Qed.

(** X10: an element URL whose callback pushes nothing (failed request,
    invalid object, foreign identifier, unresolved video) takes no row from
    its siblings.  When it is not the first URL, outcome and tables of the
    replacement are those of the replacement without that URL.  When it is
    the first URL, the callbacks of the other URLs are started in another
    order without it, and whenever both replacements resolve the playlist
    has the same rows in both cases, in another order. *)
Theorem failing_element_does_not_disturb_siblings before u after playlist s :
  fst (fetchPlaylistElement playlist [] u s) = Resolved [] ->
  let withU := resetVideoPlaylistElements (before ++ u :: after) playlist s in
  let without := resetVideoPlaylistElements (before ++ after) playlist s in
  (before <> [] ->
   fst withU = fst without
   /\ elements (snd withU) = elements (snd without)
   /\ playlists (snd withU) = playlists (snd without))
  /\ (fst withU = Resolved tt -> fst without = Resolved tt ->
      Permutation (elementsOf (pl_id playlist) (elements (snd withU)))
                  (elementsOf (pl_id playlist) (elements (snd without))))
  /\ playlists (snd withU) = playlists (snd without).
Proof.
  intros H. cbv zeta.
  assert (N : candidate playlist u = None).
  { rewrite fetchPlaylistElement_run in H.
    destruct (candidate playlist u); [discriminate | reflexivity]. }
  assert (D : forall l1 l2, candidates playlist (l1 ++ u :: l2)
                            = candidates playlist (l1 ++ l2)).
  { intros l1 l2. unfold candidates. rewrite !flat_map_app. simpl. now rewrite N. }
  destruct (resetVideoPlaylistElements_tables (before ++ u :: after) playlist s) as [P1 T1].
  destruct (resetVideoPlaylistElements_tables (before ++ after) playlist s) as [P2 T2].
  cbv zeta in *.
  split; [|split].
  - intros NE. destruct before as [|first before]; [congruence|].
    assert (C : candidates playlist (bluebirdOrder ((first :: before) ++ u :: after))
                = candidates playlist (bluebirdOrder ((first :: before) ++ after))).
    { cbn [app bluebirdOrder]. rewrite !rev_app_distr. cbn [rev].
      rewrite <- app_assoc. cbn [app].
      change (first :: rev after ++ u :: rev before)
        with ((first :: rev after) ++ u :: rev before).
      rewrite D. reflexivity. }
    rewrite C in T1.
    destruct (insertAll _ _); destruct T1 as [O1 E1]; destruct T2 as [O2 E2];
      rewrite O1, O2, E1, E2, P1, P2; auto.
  - intros R1 R2.
    pose proof (resetVideoPlaylistElements_stored (before ++ u :: after) playlist s) as S1.
    pose proof (resetVideoPlaylistElements_stored (before ++ after) playlist s) as S2.
    rewrite R1 in S1. rewrite R2 in S2. rewrite S1, S2.
    rewrite (candidates_bluebirdOrder playlist (before ++ u :: after)),
      (candidates_bluebirdOrder playlist (before ++ after)), D.
    apply Permutation_refl.
  - now rewrite P1, P2.
Qed.

End Playlist.

(** ** Theorems that compare worlds *)

(** C8, as amended: thumbnail regeneration is attempted during a
    reconciliation that reaches the crawl if and only if the crawled item
    collection is non-empty, whether or not its items resolve; what the image
    host answers and which icon the manifest carries change neither the
    outcome nor the tables of the reconciliation; and for an empty item
    collection the reconciliation resolves, the playlist row carries the
    name and description of the manifest, the playlist has no element and no
    thumbnail is attempted. *)
Theorem thumbnail_attempted_iff_items_crawled (w : World) playlistObject byAccount
    to pages s :
  upsertedAttributes w playlistObject byAccount to <> None ->
  pagesOf w (po_id playlistObject) = Some pages ->
  let run := createOrUpdateVideoPlaylist w playlistObject byAccount to s in
  thumbnailAttempts (events (snd run))
  = (thumbnailAttempts (events s)
     + match List.concat pages with [] => 0 | _ :: _ => 1 end)%nat
  /\ (forall fetched icon,
        let run' := createOrUpdateVideoPlaylist (withImages fetched w)
                      (withIcon icon playlistObject) byAccount to s in
        fst run' = fst run
        /\ playlists (snd run') = playlists (snd run)
        /\ elements (snd run') = elements (snd run))
  /\ match List.concat pages with
     | [] =>
         fst run = Resolved tt
         /\ exists row,
              In row (playlists (snd run))
              /\ pl_url row = po_id playlistObject
              /\ pl_name row = po_name playlistObject
              /\ pl_description row = po_content playlistObject
              /\ elementsOf (pl_id row) (elements (snd run)) = []
     | _ :: _ => True
     end.
Proof.
  intros HC HP. cbv zeta. unfold upsertedAttributes in HC.
  split; [|split].
  - rewrite createOrUpdateVideoPlaylist_run.
    destruct (playlistObjectToDBAttributes w playlistObject byAccount to) as [a0|];
      [|congruence].
    destruct (channelAttributes w playlistObject a0) as [[a evs1]|] eqn:C; [|congruence].
    apply channelAttributes_metadata in C. destruct C as (_ & _ & _ & C).
    destruct (upsertRows w a (playlists s)) as [playlist rows].
    rewrite HP, resetVideoPlaylistElements_run. cbv zeta.
    assert (T : thumbnailAttempts
                  (rev (elementWarnings w playlist (bluebirdOrder (List.concat pages)))
                   ++ thumbnailEvents w playlist playlistObject (List.concat pages)
                   ++ evs1 ++ events s)
                = (thumbnailAttempts (events s)
                   + match List.concat pages with [] => 0 | _ :: _ => 1 end)%nat).
    { rewrite !thumbnailAttempts_app, elementWarnings_no_attempt,
        thumbnailEvents_attempts, C. lia. }
    destruct (insertAll _ _ _); cbn [snd events]; [|exact T].
    rewrite <- T. reflexivity.
  - intros fetched icon.
    rewrite !createOrUpdateVideoPlaylist_run.
    change (playlistObjectToDBAttributes (withImages fetched w)
              (withIcon icon playlistObject) byAccount to)
      with (playlistObjectToDBAttributes w playlistObject byAccount to).
    destruct (playlistObjectToDBAttributes w playlistObject byAccount to) as [a0|];
      [|repeat split].
    change (channelAttributes (withImages fetched w) (withIcon icon playlistObject) a0)
      with (channelAttributes w playlistObject a0).
    destruct (channelAttributes w playlistObject a0) as [[a evs1]|]; [|repeat split].
    change (upsertRows (withImages fetched w) a (playlists s))
      with (upsertRows w a (playlists s)).
    destruct (upsertRows w a (playlists s)) as [playlist rows].
    cbn [pagesOf withImages po_id withIcon]. rewrite HP.
    change (resetVideoPlaylistElements (withImages fetched w))
      with (resetVideoPlaylistElements w).
    apply resetVideoPlaylistElements_same_tables; reflexivity.
  - destruct (List.concat pages) as [|item items] eqn:E; [|exact I].
    rewrite createOrUpdateVideoPlaylist_run.
    destruct (playlistObjectToDBAttributes w playlistObject byAccount to) as [a0|] eqn:A0;
      [|congruence].
    assert (M : pa_url a0 = po_id playlistObject /\ pa_name a0 = po_name playlistObject
                /\ pa_description a0 = po_content playlistObject).
    { unfold playlistObjectToDBAttributes in A0.
      destruct (indexOfFinds to (ACTIVITY_PUB_PUBLIC w)); [|discriminate].
      inversion A0. now repeat split. }
    destruct M as (Murl & Mname & Mdesc).
    destruct (channelAttributes w playlistObject a0) as [[a evs1]|] eqn:C; [|congruence].
    apply channelAttributes_metadata in C. destruct C as (Curl & Cname & Cdesc & _).
    pose proof (upsertRows_row w a (playlists s)) as U. cbv zeta in U.
    destruct (upsertRows w a (playlists s)) as [playlist rows]. cbn [fst snd] in U.
    destruct U as (Hin & Hurl & Hname & Hdesc).
    rewrite HP, E, resetVideoPlaylistElements_run. cbv zeta.
    cbn [bluebirdOrder candidates flat_map insertAll elements playlists fst snd].
    split; [reflexivity|].
    exists playlist. repeat split; try congruence.
    apply elementsOf_otherElements.
Qed.

(** ** Concrete runs *)

(** The elements of playlist 7 are replaced, the element of playlist 8 is
    kept.  The new rows are in the order in which the callbacks ran: the
    first URL, then the others from the last. *)
Example reset_replaces_elements :
  map el_url
      (elements (snd (resetVideoPlaylistElements healthyWorld
                        [elementUrl1; elementUrl2; elementUrl3] stalePlaylist storeBefore)))
  = [el_url foreignElement; elementUrl1; elementUrl3; elementUrl2].
Proof. reflexivity. Qed.

(** An insert is refused by the unique index: the transaction is rolled
    back and the former element is still there. *)
Example reset_rolls_back :
  resetVideoPlaylistElements duplicateItemWorld
    [elementUrl1; elementUrl2; elementUrl1] stalePlaylist storeBefore
  = (Rejected "insert refused", storeBefore).
Proof. reflexivity. Qed.

(** A declared start of 0 is stored as null, a declared start of 30 as 30. *)
Example start_zero_stored_as_null :
  map el_startTimestamp
      (elementsOf 7
         (elements (snd (resetVideoPlaylistElements healthyWorld
                           [elementUrl1; elementUrl2] stalePlaylist storeBefore))))
  = [JsNull; JsNumber 30].
Proof. reflexivity. Qed.

(** Reconciling twice in the healthy world. *)
Example reconcile_twice :
  let once := createOrUpdateVideoPlaylist healthyWorld remoteManifest
                {| acc_id := 3 |} (AudienceArray [PUBLIC_AUDIENCE]) storeBefore in
  let twice := createOrUpdateVideoPlaylist healthyWorld remoteManifest
                 {| acc_id := 3 |} (AudienceArray [PUBLIC_AUDIENCE]) (snd once) in
  fst once = Resolved tt
  /\ List.length (elementsOf 7 (elements (snd once))) = 3%nat
  /\ elements (snd twice) = elements (snd once).
Proof. cbv zeta. repeat split. Qed.

(** A manifest whose audience is a string is reconciled by the refresh,
    which does not ask for an array: the string has an indexOf. *)
Example string_audience_is_reconciled :
  let run := refreshVideoPlaylistIfNeeded stringAudienceWorld stalePlaylist storeBefore in
  fst run = Resolved (Some stalePlaylist)
  /\ map pl_name (playlists (snd run)) = ["Remote mix"]
  /\ map pl_privacy (playlists (snd run)) = [PUBLIC]
  /\ List.length (elementsOf 7 (elements (snd run))) = 3%nat.
Proof. cbv zeta. repeat split. Qed.

(** ** The theorems at concrete inputs *)

(** The playlist of [goneWorld] answers 404. *)
Lemma refresh_404_removes_playlist_witness :
  isOutdated goneWorld stalePlaylist = true
  /\ response goneWorld (pl_url stalePlaylist) = Some (404, BodyOther)
  /\ fst (refreshVideoPlaylistIfNeeded goneWorld stalePlaylist storeBefore) = Resolved None
  /\ (forall p,
        In p (playlists (snd (refreshVideoPlaylistIfNeeded goneWorld stalePlaylist storeBefore))) ->
        pl_id p <> pl_id stalePlaylist)
  /\ (forall e,
        In e (elements (snd (refreshVideoPlaylistIfNeeded goneWorld stalePlaylist storeBefore))) ->
        el_videoPlaylistId e <> pl_id stalePlaylist).
Proof.
  split; [reflexivity|]. split; [reflexivity|].
  apply (refresh_404_removes_playlist goneWorld stalePlaylist storeBefore BodyOther);
    reflexivity.
Defined.

(** Both kinds of failure: the invalid body of [invalidBodyWorld], and the
    rolled-back transaction of [duplicateItemWorld], where the row of the
    playlist has the name of the manifest afterwards. *)
Lemma refresh_failure_marks_refreshed_witness :
  (isOutdated invalidBodyWorld stalePlaylist = true
   /\ invalidBody invalidBodyWorld stalePlaylist = true
   /\ fst (refreshVideoPlaylistIfNeeded invalidBodyWorld stalePlaylist storeBefore)
      = Resolved (Some (refreshed invalidBodyWorld stalePlaylist))
   /\ elements (snd (refreshVideoPlaylistIfNeeded invalidBodyWorld stalePlaylist storeBefore))
      = elements storeBefore
   /\ playlists (snd (refreshVideoPlaylistIfNeeded invalidBodyWorld stalePlaylist storeBefore))
      = [refreshed invalidBodyWorld stalePlaylist])
  /\ (isOutdated duplicateItemWorld stalePlaylist = true
      /\ fst (refreshVideoPlaylist duplicateItemWorld stalePlaylist storeBefore)
         = Rejected "insert refused"
      /\ fst (refreshVideoPlaylistIfNeeded duplicateItemWorld stalePlaylist storeBefore)
         = Resolved (Some (refreshed duplicateItemWorld stalePlaylist))
      /\ elements (snd (refreshVideoPlaylistIfNeeded duplicateItemWorld stalePlaylist storeBefore))
         = elements storeBefore
      /\ map pl_name
           (playlists (snd (refreshVideoPlaylistIfNeeded duplicateItemWorld stalePlaylist
                              storeBefore)))
         = ["Remote mix"]).
Proof.
  split.
  - split; [reflexivity|]. split; [reflexivity|].
    pose proof (refresh_failure_marks_refreshed invalidBodyWorld stalePlaylist storeBefore
                  eq_refl (or_introl eq_refl)) as H.
    cbv zeta in H. destruct H as (H1 & H2 & _ & _ & H5 & _).
    split; [exact H1|]. split; [exact H2|]. rewrite H5. reflexivity.
  - split; [reflexivity|]. split; [reflexivity|].
    pose proof (refresh_failure_marks_refreshed duplicateItemWorld stalePlaylist storeBefore
                  eq_refl (or_intror (ex_intro _ "insert refused" eq_refl))) as H.
    cbv zeta in H. destruct H as (H1 & H2 & _ & _ & H5 & _).
    split; [exact H1|]. split; [exact H2|]. rewrite H5. reflexivity.
Defined.

(** C4, as stated, fails: in [duplicateItemWorld] the transaction is rolled
    back and the refresh catches the exception, but the row of the playlist
    already carries the name and the description of the manifest. *)
Lemma refresh_exception_changes_name :
  isOutdated duplicateItemWorld stalePlaylist = true
  /\ fst (refreshVideoPlaylist duplicateItemWorld stalePlaylist storeBefore)
     = Rejected "insert refused"
  /\ map pl_name (playlists storeBefore) = ["Old name"]
  /\ map pl_name
       (playlists (snd (refreshVideoPlaylistIfNeeded duplicateItemWorld stalePlaylist storeBefore)))
     = ["Remote mix"]
  /\ map pl_description
       (playlists (snd (refreshVideoPlaylistIfNeeded duplicateItemWorld stalePlaylist storeBefore)))
     <> map pl_description (playlists storeBefore).
Proof. repeat split; try reflexivity. vm_compute. discriminate. Qed.

(** The second video of [secondVideoMissingWorld] does not resolve; the
    validator of its element objects asks for an integer position. *)
Lemma stored_position_is_declared_position_witness :
  let urls := [elementUrl1; elementUrl2; elementUrl3] in
  let run := resetVideoPlaylistElements secondVideoMissingWorld urls stalePlaylist storeBefore in
  let stored := elementsOf (pl_id stalePlaylist) (elements (snd run)) in
  let survivors := resolved secondVideoMissingWorld (bluebirdOrder urls) in
  (forall e, playlistElementObjectShape secondVideoMissingWorld e = true ->
             declaresPosition e = true)
  /\ fst run = Resolved tt
  /\ stored
     = map (fun r => playlistElementObjectToDBAttributes (fst r) stalePlaylist (snd r))
           survivors
  /\ Forall2 (fun a r => el_position a = eo_position (fst r)
                         /\ forall order, el_position a = positionBySpec order (fst r))
             stored survivors
  /\ Permutation (map el_position stored)
                 (map (fun r => eo_position (fst r))
                      (resolved secondVideoMissingWorld urls)).
Proof.
  cbv zeta.
  assert (V : forall e, playlistElementObjectShape secondVideoMissingWorld e = true ->
                        declaresPosition e = true).
  { intros e. cbn [playlistElementObjectShape secondVideoMissingWorld world].
    unfold requiresPosition, declaresPosition.
    destruct (eo_position e); intros E; try discriminate; reflexivity. }
  split; [exact V|]. split; [reflexivity|].
  apply (stored_position_is_declared_position secondVideoMissingWorld
           [elementUrl1; elementUrl2; elementUrl3] stalePlaylist storeBefore V).
  reflexivity.
Defined.

(** An element object without position does not pass the validator of
    [positionMissingWorld]: it is skipped, and no row without position is
    stored. *)
Example element_without_position_is_skipped :
  candidate positionMissingWorld stalePlaylist elementUrl2 = None
  /\ map el_position
       (elementsOf 7
          (elements (snd (resetVideoPlaylistElements positionMissingWorld
                            [elementUrl1; elementUrl2; elementUrl3] stalePlaylist
                            storeBefore))))
     = [JsNumber 1; JsNumber 3].
Proof. split; reflexivity. Qed.

(** The scenario of the second item failing to resolve: items 1 and 3 are
    stored with the positions 1 and 3. *)
Example positions_not_renumbered :
  map el_position
      (elementsOf 7
         (elements (snd (refreshVideoPlaylistIfNeeded secondVideoMissingWorld
                           stalePlaylist storeBefore))))
  = [JsNumber 1; JsNumber 3].
Proof. reflexivity. Qed.

(** The collection of [emptyCollectionWorld] has no item. *)
Lemma thumbnail_attempted_iff_items_crawled_witness :
  let run := createOrUpdateVideoPlaylist emptyCollectionWorld remoteManifest
               {| acc_id := 3 |} (AudienceArray [PUBLIC_AUDIENCE]) storeBefore in
  pagesOf emptyCollectionWorld (po_id remoteManifest) = Some [[]]
  /\ thumbnailAttempts (events (snd run)) = thumbnailAttempts (events storeBefore)
  /\ fst run = Resolved tt
  /\ exists row,
       In row (playlists (snd run))
       /\ pl_url row = po_id remoteManifest
       /\ pl_name row = po_name remoteManifest
       /\ pl_description row = po_content remoteManifest
       /\ elementsOf (pl_id row) (elements (snd run)) = [].
Proof.
  cbv zeta. split; [reflexivity|].
  assert (C : upsertedAttributes emptyCollectionWorld remoteManifest {| acc_id := 3 |}
                (AudienceArray [PUBLIC_AUDIENCE]) <> None) by discriminate.
  pose proof (thumbnail_attempted_iff_items_crawled emptyCollectionWorld remoteManifest
                {| acc_id := 3 |} (AudienceArray [PUBLIC_AUDIENCE]) [[]] storeBefore
                C eq_refl) as H.
  cbv zeta in H. destruct H as (H1 & _ & H3).
  split; [rewrite H1; apply Nat.add_0_r | exact H3].
Defined.

(** C8, as stated, fails: in [onlyUnresolvedItemWorld] the crawl yields one
    item, whose video does not resolve; the thumbnail is attempted although
    the new element set of the playlist is empty. *)
Lemma thumbnail_attempted_for_empty_element_set :
  let run := createOrUpdateVideoPlaylist onlyUnresolvedItemWorld remoteManifest
               {| acc_id := 3 |} (AudienceArray [PUBLIC_AUDIENCE]) storeBefore in
  fst run = Resolved tt
  /\ elementsOf 7 (elements (snd run)) = []
  /\ thumbnailAttempts (events storeBefore) = 0%nat
  /\ thumbnailAttempts (events (snd run)) = 1%nat
  /\ ~ ((thumbnailAttempts (events storeBefore) < thumbnailAttempts (events (snd run)))%nat
        <-> elementsOf 7 (elements (snd run)) <> []).
Proof.
  cbv zeta. repeat split. intros [H _]. apply H; [vm_compute; lia | reflexivity].
Qed.

(** C2: the code at the scenario of the specification.  The playlist was
    last refreshed two intervals ago, the remote answers a valid manifest of
    three items and all three resolve.  The three elements are stored (in
    the order in which their callbacks ran: the first, the third, the
    second), but the refresh returns the object it was given and
    lastRefreshedAt is 800 as before, on the object and on the row: the
    playlist is still outdated. *)
Lemma refresh_success_keeps_lastRefreshedAt :
  let run := refreshVideoPlaylistIfNeeded healthyWorld stalePlaylist storeBefore in
  isOutdated healthyWorld stalePlaylist = true
  /\ now healthyWorld = 1000 /\ pl_lastRefreshedAt stalePlaylist = 800
  /\ map el_url (elementsOf 7 (elements (snd run))) = [elementUrl1; elementUrl3; elementUrl2]
  /\ map el_position (elementsOf 7 (elements (snd run))) = [JsNumber 1; JsNumber 3; JsNumber 2]
  /\ fst run = Resolved (Some stalePlaylist)
  /\ map pl_lastRefreshedAt (playlists (snd run)) = [800]
  /\ map pl_name (playlists (snd run)) = ["Remote mix"]
  /\ forall p, fst run = Resolved (Some p) -> isOutdated healthyWorld p = true.
Proof.
  cbv zeta. repeat split. intros p H. vm_compute in H. inversion H. reflexivity.
Qed.

(** C5: the code at a manifest served by another host.  [evil.example]
    answers its own URL with a well-formed manifest that declares the
    identifier of the playlist of [remote.example].  The origin check fails,
    and [fetchRemoteVideoPlaylist] hands the body back as undefined, but
    [createAccountPlaylists] makes no origin check: the row of the playlist
    of [remote.example] is overwritten with the forged name and
    description. *)
Lemma createAccountPlaylists_trusts_foreign_manifest :
  let run := createAccountPlaylists healthyWorld [evilPlaylistUrl] {| acc_id := 66 |}
               storeBefore in
  response healthyWorld evilPlaylistUrl = Some (200, BodyPlaylist forgedManifest)
  /\ checkUrlsSameHost healthyWorld (po_id forgedManifest) evilPlaylistUrl = false
  /\ fst (fetchRemoteVideoPlaylist healthyWorld evilPlaylistUrl storeBefore)
     = Resolved (200, None)
  /\ map pl_url (playlists storeBefore) = [remotePlaylistUrl]
  /\ map pl_name (playlists storeBefore) = ["Old name"]
  /\ fst run = Resolved tt
  /\ map pl_url (playlists (snd run)) = [remotePlaylistUrl]
  /\ map pl_name (playlists (snd run)) = ["Hijacked"]
  /\ map pl_description (playlists (snd run)) = ["Served by another host"].
Proof. cbv zeta. repeat split. Qed.

(** * Properties of the notifier *)

Lemma delivered_nil attributes s : Notifier.delivered attributes [] [] s = s.
Proof. destruct s. unfold Notifier.delivered. simpl. now rewrite !app_nil_r. Qed.

Lemma delivered_delivered attributes w1 w2 m1 m2 s :
  Notifier.delivered attributes w2 m2 (Notifier.delivered attributes w1 m1 s)
  = Notifier.delivered attributes (w1 ++ w2) (m1 ++ m2) s.
Proof.
  unfold Notifier.delivered. simpl. now rewrite !map_app, !app_assoc.
Qed.

Lemma notifyUsers_cons env options user rest emails :
  Notifier.notifyUsers env options (user :: rest) emails
  = Notifier.bind
      (if Notifier.wantsWeb env options user
       then Notifier.bind (Notifier.notificationCreator options user)
              (fun notification =>
                 Notifier.sendNotification (Notifier.user_id user) notification)
       else Notifier.ret tt)
      (fun _ => Notifier.notifyUsers env options rest
                  (if Notifier.wantsEmail env options user
                   then emails ++ [Notifier.email user]
                   else emails)).
Proof. reflexivity. Qed.

(** The loop of [notify], in closed form. *)
Lemma notifyUsers_run env options attributes :
  (forall user, Notifier.notificationCreator options user
                = Notifier.create env (attributes user)) ->
  forall left emails s,
  Notifier.notifyUsers env options left emails s =
  let (r, ok) := Notifier.reached env (fun u => Notifier.createRefused env (attributes u))
                   options left in
  (if ok
   then Resolved (emails ++ map Notifier.email (filter (Notifier.wantsEmail env options) r))
   else Rejected "cannot create notification",
   Notifier.delivered attributes (filter (Notifier.wantsWeb env options) r) [] s).
Proof.
  intros HC. induction left as [|user rest IH]; intros emails s.
  - simpl. now rewrite app_nil_r, delivered_nil.
  - rewrite notifyUsers_cons. cbn [Notifier.reached]. unfold Notifier.bind at 1.
    destruct (Notifier.wantsWeb env options user) eqn:W; cbn [andb].
    + unfold Notifier.bind at 1.
      rewrite HC.
      unfold Notifier.create at 1.
      destruct (Notifier.createRefused env (attributes user)) eqn:R.
      * cbn [filter]. now rewrite delivered_nil.
      * unfold Notifier.sendNotification. cbn [Notifier.notifications Notifier.sockets
          Notifier.mails Notifier.logs].
        rewrite IH.
        destruct (Notifier.reached env _ options rest) as [r ok].
        cbn [filter]. rewrite W.
        change (Notifier.delivered attributes (user :: filter (Notifier.wantsWeb env options) r)
                  [] s)
          with (Notifier.delivered attributes
                  ([user] ++ filter (Notifier.wantsWeb env options) r) ([] ++ []) s).
        rewrite <- delivered_delivered. f_equal.
        -- destruct ok; [|reflexivity].
           destruct (Notifier.wantsEmail env options user); [|reflexivity].
           cbn [map]. now rewrite <- app_assoc.
        -- unfold Notifier.delivered. cbn. now rewrite !app_nil_r.
    + unfold Notifier.ret at 1. rewrite IH.
      destruct (Notifier.reached env _ options rest) as [r ok].
      cbn [filter]. rewrite W. f_equal.
      destruct ok; [|reflexivity].
      destruct (Notifier.wantsEmail env options user); [|reflexivity].
      cbn [map]. now rewrite <- app_assoc.
Qed.

Lemma reached_all env options refused left :
  (forall u, In u left -> Notifier.wantsWeb env options u = true -> refused u = false) ->
  Notifier.reached env refused options left = (left, true).
Proof.
  induction left as [|u rest IH]; intros H; [reflexivity|]. simpl.
  destruct (Notifier.wantsWeb env options u) eqn:W; cbn [andb].
  - rewrite (H u (or_introl eq_refl) W), IH; [reflexivity|].
    intros x Hx. apply H. now right.
  - rewrite IH; [reflexivity|]. intros x Hx. apply H. now right.
Qed.

Lemma reached_until env options refused before u after :
  (forall x, In x before -> Notifier.wantsWeb env options x = true -> refused x = false) ->
  Notifier.wantsWeb env options u = true -> refused u = true ->
  Notifier.reached env refused options (before ++ u :: after) = (before, false).
Proof.
  intros H W R. induction before as [|x rest IH]; simpl.
  - now rewrite W, R.
  - destruct (Notifier.wantsWeb env options x) eqn:Wx; cbn [andb].
    + rewrite (H x (or_introl eq_refl) Wx), IH; [reflexivity|].
      intros y Hy. apply H. now right.
    + rewrite IH; [reflexivity|]. intros y Hy. apply H. now right.
Qed.

(** The run of [notify], in closed form. *)
Lemma notify_run env us getter attributes mailKind mailAbout s :
  let options := Notifier.optionsOf env us getter attributes mailKind mailAbout in
  Notifier.notify env options s =
  let (r, ok) := Notifier.reached env (fun u => Notifier.createRefused env (attributes u))
                   options us in
  if ok
  then (Resolved tt,
        Notifier.delivered attributes (filter (Notifier.wantsWeb env options) r)
          (Notifier.batch mailKind mailAbout
             (map Notifier.email (filter (Notifier.wantsEmail env options) r))) s)
  else (Rejected "cannot create notification",
        Notifier.delivered attributes (filter (Notifier.wantsWeb env options) r) [] s).
Proof.
  intros options. unfold Notifier.notify, Notifier.bind.
  cbn [Notifier.users options Notifier.optionsOf].
  pose proof (notifyUsers_run env options attributes (fun _ => eq_refl) us [] s) as R.
  rewrite R.
  destruct (Notifier.reached env _ options us) as [r ok].
  destruct ok; [|reflexivity]. cbn [app].
  destruct (map Notifier.email (filter (Notifier.wantsEmail env options) r)) as [|e es].
  - reflexivity.
  - cbn [Notifier.emailSender options Notifier.optionsOf Notifier.batch].
    unfold Notifier.addMail, Notifier.delivered. cbn. now rewrite app_nil_r.
Qed.

(** X11: when no creation is refused, [notify] creates one notification,
    and pushes it on the socket, for exactly the users whose setting has the
    WEB bit, in the order of the list; it then calls the email sender once,
    with the addresses of exactly the users mail is enabled for, and settles
    as the sender settles: it rejects when the sender rejects.  When mail is
    enabled for no user, the sender is not called and [notify] resolves. *)
Theorem notify_delivers env us getter attributes sender s :
  let options :=
    {| Notifier.users := us;
       Notifier.settingGetter := getter;
       Notifier.notificationCreator := fun user => Notifier.create env (attributes user);
       Notifier.emailSender := sender |} in
  (forall u, In u us -> Notifier.wantsWeb env options u = true ->
             Notifier.createRefused env (attributes u) = false) ->
  let created :=
    Notifier.delivered attributes (filter (Notifier.wantsWeb env options) us) [] s in
  Notifier.notify env options s =
  match map Notifier.email (filter (Notifier.wantsEmail env options) us) with
  | [] => (Resolved tt, created)
  | first :: others => sender (first :: others) created
  end.
Proof.
  intros options H created. unfold Notifier.notify, Notifier.bind.
  cbn [Notifier.users options].
  rewrite (notifyUsers_run env options attributes (fun _ => eq_refl) us [] s).
  rewrite (reached_all env options _ us H). cbn [app]. fold created.
  now destruct (map Notifier.email (filter (Notifier.wantsEmail env options) us)).
Qed.

(** X12: when the creation of a notification is refused for a user, [notify]
    rejects there: the users before have their web notification, the users
    after get nothing, and no mail at all is queued, not even for the users
    before whose address was already collected. *)
Theorem notify_refusal_queues_no_mail env before u after getter attributes mailKind
    mailAbout s :
  let options := Notifier.optionsOf env (before ++ u :: after) getter attributes
                   mailKind mailAbout in
  (forall x, In x before -> Notifier.wantsWeb env options x = true ->
             Notifier.createRefused env (attributes x) = false) ->
  Notifier.wantsWeb env options u = true ->
  Notifier.createRefused env (attributes u) = true ->
  let run := Notifier.notify env options s in
  fst run = Rejected "cannot create notification"
  /\ Notifier.mails (snd run) = Notifier.mails s
  /\ Notifier.sockets (snd run)
     = Notifier.sockets s
       ++ map (fun x => (Notifier.user_id x, attributes x))
              (filter (Notifier.wantsWeb env options) before).
Proof.
  intros options H W R. cbv zeta. unfold options. rewrite notify_run. cbv zeta.
  fold options.
  rewrite (reached_until env options _ before u after H W R).
  cbn. now rewrite app_nil_r.
Qed.

Lemma reached_prefix env options refused : forall left r ok,
  Notifier.reached env refused options left = (r, ok) ->
  (forall x, In x r -> In x left) /\ (ok = true -> r = left).
Proof.
  induction left as [|x l IH]; intros r ok E; simpl in E.
  - inversion E. now split.
  - destruct (Notifier.wantsWeb env options x && _).
    + inversion E. split; [intros y []|discriminate].
    + destruct (Notifier.reached env refused options l) as [r' ok'] eqn:E'.
      inversion E. subst. destruct (IH r' ok eq_refl) as [I1 I2]. split.
      * intros y [->|Hy]; [now left | right; now apply I1].
      * intros Hok. now rewrite (I2 Hok).
Qed.

(** X13: when the installation requires verified addresses, a user whose
    address is explicitly unverified is never mailed, whatever the setting
    says and whoever else is in the list: every address [notify] mails is
    the address of a user of the list that is not unverified, and when
    [notify] resolves the one mail goes to exactly the users that have the
    EMAIL bit and are not unverified, while a web notification is pushed for
    every user that has the WEB bit, unverified or not. *)
Theorem unverified_address_is_never_mailed env us getter attributes mailKind mailAbout s :
  Notifier.REQUIRES_EMAIL_VERIFICATION env = true ->
  let options := Notifier.optionsOf env us getter attributes mailKind mailAbout in
  let run := Notifier.notify env options s in
  let unverified := fun u =>
    match Notifier.emailVerified u with Some false => true | _ => false end in
  let web := fun u => truthy (Notifier.isWebNotificationEnabled env (getter u)) in
  let mail := fun u =>
    negb (unverified u)
    && truthy (JsNumber (Notifier.js_and (getter u) (Notifier.EMAIL env))) in
  (exists newMails,
     Notifier.mails (snd run) = Notifier.mails s ++ newMails
     /\ forall m address,
          In m newMails -> In address (Notifier.recipients m) ->
          exists u, In u us /\ Notifier.email u = address /\ unverified u = false)
  /\ (fst run = Resolved tt ->
      Notifier.mails (snd run)
      = Notifier.mails s
        ++ Notifier.batch mailKind mailAbout (map Notifier.email (filter mail us))
      /\ Notifier.sockets (snd run)
         = Notifier.sockets s
           ++ map (fun u => (Notifier.user_id u, attributes u)) (filter web us)).
Proof.
  intros HR options run unverified web mail. subst run. unfold options.
  rewrite notify_run. cbv zeta. fold options.
  assert (M : forall u, Notifier.wantsEmail env options u = mail u).
  { intros u. unfold Notifier.wantsEmail, Notifier.isEmailEnabled, mail, unverified.
    cbn [Notifier.settingGetter options Notifier.optionsOf]. rewrite HR.
    now destruct (Notifier.emailVerified u) as [[|]|]. }
  destruct (Notifier.reached env _ options us) as [r ok] eqn:E.
  destruct (reached_prefix env options _ us r ok E) as [S1 S2].
  split.
  - exists (if ok
            then Notifier.batch mailKind mailAbout
                   (map Notifier.email (filter (Notifier.wantsEmail env options) r))
            else []).
    destruct ok; cbn [snd Notifier.mails Notifier.delivered]; (split; [reflexivity|]);
      [|intros m address []].
    intros m address Hm Ha.
    destruct (map Notifier.email (filter (Notifier.wantsEmail env options) r))
      as [|e es] eqn:L; [destruct Hm|].
    destruct Hm as [<-|[]]. cbn [Notifier.recipients] in Ha. rewrite <- L in Ha.
    apply in_map_iff in Ha. destruct Ha as (u & Eu & Hu).
    apply filter_In in Hu. destruct Hu as [Hu Wu].
    exists u. split; [now apply S1|]. split; [exact Eu|].
    rewrite M in Wu. unfold mail in Wu. apply andb_prop in Wu.
    destruct Wu as [Wu _]. now apply negb_true_iff in Wu.
  - destruct ok; [|discriminate]. intros _. rewrite (S2 eq_refl).
    cbn [snd Notifier.mails Notifier.sockets Notifier.delivered].
    rewrite (filter_ext _ _ M). split; reflexivity.
Qed.

Lemma catch_logged (body : Notifier.Job unit) (level : Notifier.Level) (message : string) s :
  fst (Notifier.catch body (fun _ : string => Notifier.logger level message) s) = Resolved tt
  /\ (fst (body s) = Resolved tt ->
      Notifier.catch body (fun _ : string => Notifier.logger level message) s = body s)
  /\ Notifier.notifications
       (snd (Notifier.catch body (fun _ : string => Notifier.logger level message) s))
     = Notifier.notifications (snd (body s)).
Proof.
  unfold Notifier.catch. destruct (body s) as [[[]|err] s']; cbn; repeat split.
  discriminate.
Qed.

(** X14: for a public, published video that is not blacklisted, when no
    creation is refused, [notifyOnNewVideo] creates and pushes a
    NEW_VIDEO_FROM_SUBSCRIPTION notification for exactly the subscribers of
    the channel whose newVideoFromSubscription setting has the WEB bit, and
    queues one mail to the subscribers mail is enabled for. *)
Theorem notifyOnNewVideo_reaches_subscribers env video subscribers s :
  Notifier.privacy video = Notifier.PUBLIC ->
  Notifier.state video = Notifier.PUBLISHED ->
  Notifier.VideoBlacklist video = false ->
  Notifier.subscribersOf env (Notifier.channelActorId video) = Some subscribers ->
  let attributes := fun user =>
    {| Notifier.type := Notifier.NEW_VIDEO_FROM_SUBSCRIPTION;
       Notifier.userId := Notifier.user_id user;
       Notifier.notifiedVideoId := Some (Notifier.video_id video);
       Notifier.notifiedCommentId := None |} in
  let setting := fun user =>
    Notifier.newVideoFromSubscription (Notifier.NotificationSetting user) in
  let web := fun user => truthy (Notifier.isWebNotificationEnabled env (setting user)) in
  let mail := fun user => truthy (Notifier.isEmailEnabled env user (setting user)) in
  (forall u, In u subscribers -> web u = true ->
             Notifier.createRefused env (attributes u) = false) ->
  let run := Notifier.notifyOnNewVideo env video s in
  fst run = Resolved tt
  /\ Notifier.notifications (snd run)
     = Notifier.notifications s ++ map attributes (filter web subscribers)
  /\ Notifier.sockets (snd run)
     = Notifier.sockets s
       ++ map (fun u => (Notifier.user_id u, attributes u)) (filter web subscribers)
  /\ Notifier.mails (snd run)
     = Notifier.mails s
       ++ Notifier.batch Notifier.NEW_VIDEO_FROM_SUBSCRIPTION (Notifier.video_url video)
            (map Notifier.email (filter mail subscribers)).
Proof.
  intros HP HS HB HL attributes setting web mail HR. cbv zeta.
  assert (E : Notifier.notifyOnNewVideo env video s
              = (Resolved tt,
                 Notifier.delivered attributes (filter web subscribers)
                   (Notifier.batch Notifier.NEW_VIDEO_FROM_SUBSCRIPTION
                      (Notifier.video_url video)
                      (map Notifier.email (filter mail subscribers)))
                   {| Notifier.notifications := Notifier.notifications s;
                      Notifier.sockets := Notifier.sockets s;
                      Notifier.mails := Notifier.mails s;
                      Notifier.logs :=
                        (Notifier.LevelInfo, "Notifying %d users of new video %s.")
                        :: Notifier.logs s |})).
  { unfold Notifier.notifyOnNewVideo. rewrite HP, HS, HB. cbn [orb].
    unfold Notifier.catch, Notifier.notifySubscribersOfNewVideo. rewrite HL.
    unfold Notifier.bind at 1, Notifier.logger at 1.
    change (Notifier.notify env _)
      with (Notifier.notify env
              (Notifier.optionsOf env subscribers setting attributes
                 Notifier.NEW_VIDEO_FROM_SUBSCRIPTION (Notifier.video_url video))).
    rewrite notify_run. cbv zeta.
    rewrite (reached_all env
               (Notifier.optionsOf env subscribers setting attributes
                  Notifier.NEW_VIDEO_FROM_SUBSCRIPTION (Notifier.video_url video))
               (fun u => Notifier.createRefused env (attributes u)) subscribers HR).
    reflexivity. }
  rewrite E. cbn. repeat split.
Qed.

(** X15: [notifyOnNewVideo] never rejects, and it creates notifications only
    for a video that is public, published and not blacklisted. *)
Theorem notifyOnNewVideo_only_public_published env video s :
  let run := Notifier.notifyOnNewVideo env video s in
  fst run = Resolved tt
  /\ (Notifier.notifications (snd run) <> Notifier.notifications s ->
      Notifier.privacy video = Notifier.PUBLIC
      /\ Notifier.state video = Notifier.PUBLISHED
      /\ Notifier.VideoBlacklist video = false).
Proof.
  cbv zeta. unfold Notifier.notifyOnNewVideo.
  destruct (Notifier.privacy video); destruct (Notifier.state video);
    destruct (Notifier.VideoBlacklist video); cbn [orb];
    try (split; [reflexivity | intros H; now contradiction H]).
  split; [|easy].
  apply catch_logged.
Qed.

(** The run of [notifyOwnedVideoHasBeenPublished] creates no notification,
    or one MY_VIDEO_PUBLISHED notification for the owner of the video. *)
Lemma notifyOwnedVideoHasBeenPublished_notifications env video s :
  let s' := snd (Notifier.notifyOwnedVideoHasBeenPublished env video s) in
  Notifier.notifications s' = Notifier.notifications s
  \/ exists owner,
       Notifier.ownerOfVideo env (Notifier.video_id video) = Some (Some owner)
       /\ truthy (Notifier.isWebNotificationEnabled env
                    (Notifier.myVideoPublished (Notifier.NotificationSetting owner))) = true
       /\ Notifier.notifications s'
          = Notifier.notifications s
            ++ [{| Notifier.type := Notifier.MY_VIDEO_PUBLISHED;
                   Notifier.userId := Notifier.user_id owner;
                   Notifier.notifiedVideoId := Some (Notifier.video_id video);
                   Notifier.notifiedCommentId := None |}].
Proof.
  cbv zeta.
  destruct (Notifier.ownerOfVideo env (Notifier.video_id video)) as [[owner|]|] eqn:O;
    [| left; unfold Notifier.notifyOwnedVideoHasBeenPublished; now rewrite O
     | left; unfold Notifier.notifyOwnedVideoHasBeenPublished; now rewrite O].
  set (attributes := fun user =>
    {| Notifier.type := Notifier.MY_VIDEO_PUBLISHED;
       Notifier.userId := Notifier.user_id user;
       Notifier.notifiedVideoId := Some (Notifier.video_id video);
       Notifier.notifiedCommentId := None |}).
  set (options := Notifier.optionsOf env [owner]
         (fun user => Notifier.myVideoPublished (Notifier.NotificationSetting user))
         attributes Notifier.MY_VIDEO_PUBLISHED (Notifier.video_url video)).
  assert (R : Notifier.notifyOwnedVideoHasBeenPublished env video s
              = Notifier.notify env options
                  {| Notifier.notifications := Notifier.notifications s;
                     Notifier.sockets := Notifier.sockets s;
                     Notifier.mails := Notifier.mails s;
                     Notifier.logs :=
                       (Notifier.LevelInfo,
                        "Notifying user %s of the publication of its video %s.")
                       :: Notifier.logs s |}).
  { unfold Notifier.notifyOwnedVideoHasBeenPublished. now rewrite O. }
  rewrite R. unfold options. rewrite notify_run. cbv zeta. fold options.
  cbn [Notifier.reached].
  assert (Wd : Notifier.wantsWeb env options owner
               = truthy (Notifier.isWebNotificationEnabled env
                           (Notifier.myVideoPublished (Notifier.NotificationSetting owner))))
    by reflexivity.
  destruct (Notifier.wantsWeb env options owner) eqn:W; cbn [andb].
  - destruct (Notifier.createRefused env (attributes owner)).
    + left. cbn. now rewrite app_nil_r.
    + right. exists owner. split; [reflexivity|]. split; [now rewrite <- Wd|].
      cbn [filter]. rewrite W. reflexivity.
  - left. cbn [filter]. rewrite W. cbn. now rewrite app_nil_r.
Qed.

(** X16: each of the three publication hooks creates at most one
    notification, a MY_VIDEO_PUBLISHED notification for the owner of the
    video, and none while the video is still held back: after transcoding,
    none if the upload did not wait for transcoding, or the video is
    blacklisted or scheduled; after a scheduled update, none if it is
    blacklisted or still waits for transcoding; after removal from the
    auto-blacklist, none if it is scheduled or still waits for
    transcoding. *)
Theorem publication_hooks_notify_owner_once env video s :
  let published owner s' :=
    Notifier.ownerOfVideo env (Notifier.video_id video) = Some (Some owner)
    /\ Notifier.notifications s'
       = Notifier.notifications s
         ++ [{| Notifier.type := Notifier.MY_VIDEO_PUBLISHED;
                Notifier.userId := Notifier.user_id owner;
                Notifier.notifiedVideoId := Some (Notifier.video_id video);
                Notifier.notifiedCommentId := None |}] in
  let waiting := Notifier.waitTranscoding video && Notifier.notPublished video in
  (let s' := snd (Notifier.notifyOnVideoPublishedAfterTranscoding env video s) in
   Notifier.notifications s' = Notifier.notifications s
   \/ (Notifier.waitTranscoding video = true
       /\ Notifier.VideoBlacklist video = false
       /\ Notifier.ScheduleVideoUpdate video = false
       /\ exists owner, published owner s'))
  /\ (let s' := snd (Notifier.notifyOnVideoPublishedAfterScheduledUpdate env video s) in
      Notifier.notifications s' = Notifier.notifications s
      \/ (Notifier.VideoBlacklist video = false /\ waiting = false
          /\ exists owner, published owner s'))
  /\ (let s' := snd (Notifier.notifyOnVideoPublishedAfterRemovedFromAutoBlacklist env video s) in
      Notifier.notifications s' = Notifier.notifications s
      \/ (Notifier.ScheduleVideoUpdate video = false /\ waiting = false
          /\ exists owner, published owner s')).
Proof.
  cbv zeta.
  pose proof (notifyOwnedVideoHasBeenPublished_notifications env video s) as N.
  cbv zeta in N.
  unfold Notifier.notifyOnVideoPublishedAfterTranscoding,
    Notifier.notifyOnVideoPublishedAfterScheduledUpdate,
    Notifier.notifyOnVideoPublishedAfterRemovedFromAutoBlacklist.
  destruct (Notifier.waitTranscoding video); destruct (Notifier.VideoBlacklist video);
    destruct (Notifier.ScheduleVideoUpdate video); destruct (Notifier.notPublished video);
    cbn [negb orb andb]; repeat split; try (now left);
    match goal with
    | |- context [Notifier.catch ?b (fun _ => Notifier.logger ?l ?m) s] =>
        destruct (catch_logged b l m s) as (_ & _ & ->)
    end;
    (destruct N as [N|(owner & N1 & _ & N2)];
     [now left | right; repeat split; exists owner; now split]).
Qed.

(** X17: who is notified of a mention.  Of the users a comment mentions,
    [notifyOfCommentMention] leaves out the owner of the video when the
    video is local, the author of the comment, and, when the value NONE has
    neither the WEB nor the EMAIL bit, every user whose account mutes the
    author; when no creation is refused, the remaining users get a
    COMMENT_MENTION notification or a place in the one mail according to
    their commentMention setting. *)
Theorem mention_notifies_the_others env comment users0 owner muted s :
  Notifier.usersNamed env (Notifier.mentions comment) = Some users0 ->
  (Notifier.videoIsOwned comment = true ->
   Notifier.ownerOfVideo env (Notifier.videoId comment) = Some (Some owner)) ->
  let users1 :=
    if Notifier.videoIsOwned comment
    then filter (fun u => negb (Notifier.user_id u =? Notifier.user_id owner)) users0
    else users0 in
  let users2 :=
    filter (fun u => negb (acc_id (Notifier.Account u) =? Notifier.accountId comment))
           users1 in
  Notifier.mutedByMulti env (map (fun u => acc_id (Notifier.Account u)) users2)
    (Notifier.accountId comment) = Some muted ->
  Notifier.js_and (Notifier.NONE env) (Notifier.WEB env) = 0 ->
  Notifier.js_and (Notifier.NONE env) (Notifier.EMAIL env) = 0 ->
  let attributes := Notifier.commentNotification Notifier.COMMENT_MENTION comment in
  let setting := fun u => Notifier.commentMention (Notifier.NotificationSetting u) in
  let web := fun u =>
    negb (muted (acc_id (Notifier.Account u)))
    && truthy (Notifier.isWebNotificationEnabled env (setting u)) in
  let mail := fun u =>
    negb (muted (acc_id (Notifier.Account u)))
    && truthy (Notifier.isEmailEnabled env u (setting u)) in
  (forall u, In u users2 -> web u = true ->
             Notifier.createRefused env (attributes u) = false) ->
  let run := Notifier.notifyOfCommentMention env comment s in
  fst run = Resolved tt
  /\ Notifier.sockets (snd run)
     = Notifier.sockets s
       ++ map (fun u => (Notifier.user_id u, attributes u)) (filter web users2)
  /\ Notifier.mails (snd run)
     = Notifier.mails s
       ++ Notifier.batch Notifier.COMMENT_MENTION (Notifier.comment_url comment)
            (map Notifier.email (filter mail users2)).
Proof.
  intros HU HO users1 users2 HM HW HE attributes setting web mail HR. cbv zeta.
  set (getter := fun user : Notifier.UserModel =>
         if muted (acc_id (Notifier.Account user)) then Notifier.NONE env
         else Notifier.commentMention (Notifier.NotificationSetting user)).
  set (options := Notifier.optionsOf env users2 getter attributes
                    Notifier.COMMENT_MENTION (Notifier.comment_url comment)).
  set (s1 := {| Notifier.notifications := Notifier.notifications s;
                Notifier.sockets := Notifier.sockets s;
                Notifier.mails := Notifier.mails s;
                Notifier.logs :=
                  (Notifier.LevelDebug, "Extracted %d username from comment %s.")
                  :: Notifier.logs s |}).
  assert (E : Notifier.notifyOfCommentMention env comment s
              = match users2 with
                | [] => (Resolved tt, s1)
                | _ :: _ =>
                    Notifier.notify env options
                      {| Notifier.notifications := Notifier.notifications s;
                         Notifier.sockets := Notifier.sockets s;
                         Notifier.mails := Notifier.mails s;
                         Notifier.logs :=
                           (Notifier.LevelInfo, "Notifying %d users of new comment %s.")
                           :: Notifier.logs s1 |}
                end).
  { unfold Notifier.notifyOfCommentMention. cbv zeta.
    unfold Notifier.bind at 1, Notifier.logger at 1. rewrite HU.
    unfold Notifier.bind at 1.
    assert (K : (if Notifier.videoIsOwned comment
                 then
                   match Notifier.ownerOfVideo env (Notifier.videoId comment) with
                   | None => Notifier.throw "cannot load user"
                   | Some None =>
                       match users0 with
                       | [] => Notifier.ret []
                       | _ :: _ => Notifier.throw "TypeError: cannot read property id of null"
                       end
                   | Some (Some userException) =>
                       Notifier.ret
                         (filter (fun u => negb (Notifier.user_id u
                                                 =? Notifier.user_id userException)) users0)
                   end
                 else Notifier.ret users0) s1 = (Resolved users1, s1)).
    { subst users1. destruct (Notifier.videoIsOwned comment); [|reflexivity].
      now rewrite (HO eq_refl). }
    fold s1. rewrite K. fold users2.
    destruct users2 as [|u l] eqn:U2; [reflexivity|].
    rewrite HM. reflexivity. }
  assert (Fw : forall l, filter (Notifier.wantsWeb env options) l = filter web l).
  { intros l. apply filter_ext. intros u. unfold Notifier.wantsWeb, web.
    cbn [Notifier.settingGetter options Notifier.optionsOf]. unfold getter, setting.
    destruct (muted (acc_id (Notifier.Account u))); [|reflexivity].
    unfold Notifier.isWebNotificationEnabled. now rewrite HW. }
  assert (Fm : forall l, filter (Notifier.wantsEmail env options) l = filter mail l).
  { intros l. apply filter_ext. intros u. unfold Notifier.wantsEmail, mail.
    cbn [Notifier.settingGetter options Notifier.optionsOf]. unfold getter, setting.
    destruct (muted (acc_id (Notifier.Account u))); [|reflexivity].
    unfold Notifier.isEmailEnabled. rewrite HE.
    now destruct (Notifier.REQUIRES_EMAIL_VERIFICATION env && _). }
  rewrite E. destruct users2 as [|u l] eqn:U2.
  - cbn. rewrite !app_nil_r. repeat split.
  - unfold options. rewrite notify_run. cbv zeta. fold options.
    rewrite (reached_all env options
               (fun x => Notifier.createRefused env (attributes x)) (u :: l)).
    + rewrite Fw, Fm. cbn. repeat split.
    + intros x Hx Wx. apply HR; [exact Hx|].
      assert (P : filter (Notifier.wantsWeb env options) [x] = filter web [x]) by apply Fw.
      cbn [filter] in P. rewrite Wx in P. destruct (web x); [reflexivity | discriminate].
Qed.

(** * Properties of the action dropdown *)

Lemma getActions_concat (T : Type) (actions : ActionDropdown.Actions T) :
  List.concat (ActionDropdown.getActions actions) = ActionDropdown.allActions actions.
Proof.
  destruct actions as [l|[|first rest]]; simpl; try reflexivity. apply app_nil_r.
Qed.

(** X18: [getActions] always yields at least one group; the groups hold
    exactly the actions given to the component, in their order; and its
    result is already in the form it returns unchanged. *)
Theorem getActions_groups_all_actions (T : Type) (actions : ActionDropdown.Actions T) :
  ActionDropdown.getActions actions <> []
  /\ List.concat (ActionDropdown.getActions actions) = ActionDropdown.allActions actions
  /\ ActionDropdown.getActions (ActionDropdown.Grouped (ActionDropdown.getActions actions))
     = ActionDropdown.getActions actions.
Proof.
  destruct actions as [l|[|first rest]]; simpl; repeat split; try discriminate.
  apply app_nil_r.
Qed.

(** X19: the dropdown has a group to display for an entry exactly when some
    action has no [isDisplayed] or an [isDisplayed] that accepts the entry;
    in particular a component without actions has one group, which is not
    displayed. *)
Theorem some_group_displayed_iff_some_action_is (T : Type)
    (actions : ActionDropdown.Actions T) (entry : T) :
  existsb (fun group => ActionDropdown.areActionsDisplayed group entry)
          (ActionDropdown.getActions actions) = true
  <-> exists a, In a (ActionDropdown.allActions actions)
                /\ (ActionDropdown.isDisplayed a = None
                    \/ exists displayed, ActionDropdown.isDisplayed a = Some displayed
                                         /\ displayed entry = true).
Proof.
  rewrite existsb_exists. split.
  - intros (group & Hg & Hd). unfold ActionDropdown.areActionsDisplayed in Hd.
    apply existsb_exists in Hd. destruct Hd as (a & Ha & Hd).
    exists a. split.
    + rewrite <- getActions_concat.
      apply in_concat. now exists group.
    + destruct (ActionDropdown.isDisplayed a) as [displayed|]; [right|now left].
      now exists displayed.
  - intros (a & Ha & Hd).
    rewrite <- getActions_concat in Ha.
    apply in_concat in Ha. destruct Ha as (group & Hg & Ha).
    exists group. split; [exact Hg|].
    unfold ActionDropdown.areActionsDisplayed. apply existsb_exists.
    exists a. split; [exact Ha|].
    destruct Hd as [->|(displayed & -> & Hd)]; [reflexivity | exact Hd].
Qed.

(** * Properties of the scheduled video updates *)

(** X20: [areVideosToUpdate] answers true exactly when [listVideosToUpdate]
    would list a row at the same time, and every row listed is due. *)
Theorem areVideosToUpdate_iff_listed now table :
  (ScheduleVideoUpdate.areVideosToUpdate now table = true
   <-> ScheduleVideoUpdate.listVideosToUpdate now table <> [])
  /\ forall row, In row (ScheduleVideoUpdate.listVideosToUpdate now table) ->
                 ScheduleVideoUpdate.updateAt row <= now.
Proof.
  unfold ScheduleVideoUpdate.areVideosToUpdate, ScheduleVideoUpdate.listVideosToUpdate.
  split.
  - induction table as [|row rest IH]; simpl.
    + split; [discriminate | intros H; now contradiction H].
    + destruct (ScheduleVideoUpdate.isDue now row); [|exact IH].
      split; [discriminate | reflexivity].
  - intros row H. apply filter_In in H. destruct H as [_ H].
    unfold ScheduleVideoUpdate.isDue in H. now apply Z.leb_le.
Qed.


(** * Properties of the cache of previews *)

(** X22: the preview of an owned video is never fetched: [getFilePath]
    answers the path under the local previews directory without consulting
    the cache, and [loadRemoteFile] rejects without saving anything; a key
    that names no video gives undefined in both, again without a call. *)
Theorem owned_preview_is_never_fetched env parent key calls :
  (forall video, VideosPreviewCache.loadByUUIDWithFile env key = Some video ->
                 VideosPreviewCache.isOwned video = true ->
                 VideosPreviewCache.getFilePath env parent key calls
                 = (Resolved (Some (VideosPreviewCache.join env
                                      (VideosPreviewCache.PREVIEWS_DIR env)
                                      (VideosPreviewCache.getPreviewName video))),
                    calls))
  /\ (forall video,
        VideosPreviewCache.loadAndPopulateAccountAndServerAndTags env key = Some video ->
        VideosPreviewCache.isOwned video = true ->
        VideosPreviewCache.loadRemoteFile env parent key calls
        = (Rejected "Cannot load remote preview of owned video.", calls))
  /\ (VideosPreviewCache.loadByUUIDWithFile env key = None ->
      VideosPreviewCache.getFilePath env parent key calls = (Resolved None, calls))
  /\ (VideosPreviewCache.loadAndPopulateAccountAndServerAndTags env key = None ->
      VideosPreviewCache.loadRemoteFile env parent key calls = (Resolved None, calls)).
Proof.
  unfold VideosPreviewCache.getFilePath, VideosPreviewCache.loadRemoteFile.
  repeat split; intros; repeat match goal with H : _ = _ |- _ => rewrite H end;
    reflexivity.
Qed.

(** * The further properties at concrete inputs *)

(** In [healthyWorld] no actor resolves. *)
Lemma unresolved_actor_stops_reconciliation_witness :
  po_attributedTo attributedManifest = Some [channelActorUrl]
  /\ actorOf healthyWorld channelActorUrl = None
  /\ createOrUpdateVideoPlaylist healthyWorld attributedManifest {| acc_id := 3 |}
       (AudienceArray [PUBLIC_AUDIENCE]) storeBefore
     = (Rejected "cannot resolve actor", storeBefore).
Proof.
  split; [reflexivity|]. split; [reflexivity|].
  apply (unresolved_actor_stops_reconciliation healthyWorld attributedManifest
           {| acc_id := 3 |} [PUBLIC_AUDIENCE] storeBefore channelActorUrl);
    reflexivity.
Defined.

(** In [channelWorld] the attributed actor is the channel 21. *)
Lemma upserted_row_channel_witness :
  (forall attributedTo, po_attributedTo attributedManifest = Some [attributedTo] ->
                        actorOf channelWorld attributedTo <> None)
  /\ exists row,
       In row (playlists (snd (createOrUpdateVideoPlaylist channelWorld attributedManifest
                                 {| acc_id := 3 |} (AudienceArray [PUBLIC_AUDIENCE]) storeBefore)))
       /\ pl_url row = remotePlaylistUrl
       /\ pl_videoChannelId row = Some 21.
Proof.
  assert (H : forall attributedTo,
             po_attributedTo attributedManifest = Some [attributedTo] ->
             actorOf channelWorld attributedTo <> None).
  { intros x E. inversion E. subst x. discriminate. }
  split; [exact H|].
  exact (upserted_row_channel channelWorld attributedManifest {| acc_id := 3 |}
           [PUBLIC_AUDIENCE] storeBefore H).
Defined.

(** In [healthyWorld] the playlist answers 200. *)
Lemma refresh_keeps_rows_unless_404_witness :
  (forall body, response healthyWorld (pl_url stalePlaylist) <> Some (404, body))
  /\ In stalePlaylist (playlists storeBefore)
  /\ exists q,
       In q (playlists (snd (refreshVideoPlaylistIfNeeded healthyWorld stalePlaylist
                               storeBefore)))
       /\ pl_id q = pl_id stalePlaylist.
Proof.
  assert (H : forall body,
             response healthyWorld (pl_url stalePlaylist) <> Some (404, body)).
  { intros body E. vm_compute in E. discriminate. }
  split; [exact H|]. split; [now left|].
  exact (refresh_keeps_rows_unless_404 healthyWorld stalePlaylist storeBefore H
           stalePlaylist (or_introl eq_refl)).
Defined.

(** In [attributedWorld] the reconciliation of the remote playlist rejects
    on its attributed actor; the URL after it is not fetched. *)
Lemma createAccountPlaylists_rejection_escapes_witness :
  existsb (sameUrl remotePlaylistUrl) (playlists storeWithoutPlaylist) = false
  /\ response attributedWorld remotePlaylistUrl = Some (200, BodyPlaylist attributedManifest)
  /\ fst (createOrUpdateVideoPlaylist attributedWorld attributedManifest {| acc_id := 3 |}
            (AudienceArray [PUBLIC_AUDIENCE]) storeWithoutPlaylist)
     = Rejected "cannot resolve actor"
  /\ createAccountPlaylists attributedWorld [remotePlaylistUrl; evilPlaylistUrl]
       {| acc_id := 3 |} storeWithoutPlaylist
     = (Rejected "cannot resolve actor", storeWithoutPlaylist).
Proof.
  split; [reflexivity|]. split; [reflexivity|]. split; [reflexivity|].
  apply (createAccountPlaylists_rejection_escapes attributedWorld remotePlaylistUrl
           [evilPlaylistUrl] {| acc_id := 3 |} storeWithoutPlaylist 200 attributedManifest
           [PUBLIC_AUDIENCE] "cannot resolve actor"); reflexivity.
Defined.

(** The playlist of [remote.example] is already in [storeBefore]. *)
Lemma createAccountPlaylists_skips_known_witness :
  (forall u, In u [remotePlaylistUrl] ->
             existsb (sameUrl u) (playlists storeBefore) = true)
  /\ createAccountPlaylists healthyWorld [remotePlaylistUrl] {| acc_id := 3 |}
       storeBefore
     = (Resolved tt, storeBefore).
Proof.
  assert (H : forall u, In u [remotePlaylistUrl] ->
                        existsb (sameUrl u) (playlists storeBefore) = true).
  { intros u [<-|[]]. reflexivity. }
  split; [exact H|].
  exact (createAccountPlaylists_skips_known healthyWorld [remotePlaylistUrl]
           {| acc_id := 3 |} storeBefore H).
Defined.

(** A known playlist, a URL that answers an element object, a URL that does
    not answer. *)
Lemma createAccountPlaylists_ignores_unstorable_witness :
  let urls := [remotePlaylistUrl; elementUrl1; "https://nowhere.example/playlists/1"] in
  let run := createAccountPlaylists invalidBodyWorld urls {| acc_id := 3 |}
               storeBefore in
  (forall u, In u urls ->
             existsb (sameUrl u) (playlists storeBefore) = true
             \/ storable invalidBodyWorld u = false)
  /\ fst run = Resolved tt
  /\ playlists (snd run) = playlists storeBefore
  /\ elements (snd run) = elements storeBefore.
Proof.
  cbv zeta.
  assert (H : forall u,
             In u [remotePlaylistUrl; elementUrl1; "https://nowhere.example/playlists/1"] ->
             existsb (sameUrl u) (playlists storeBefore) = true
             \/ storable invalidBodyWorld u = false).
  { intros u [<-|[<-|[<-|[]]]]; [left | right | right]; reflexivity. }
  split; [exact H|].
  exact (createAccountPlaylists_ignores_unstorable invalidBodyWorld _ {| acc_id := 3 |}
           storeBefore H).
Defined.

(** The valid manifest of [healthyWorld]. *)
Lemma fetchRemoteVideoPlaylist_status_and_manifest_witness :
  let run := fetchRemoteVideoPlaylist healthyWorld remotePlaylistUrl storeBefore in
  response healthyWorld remotePlaylistUrl = Some (200, BodyPlaylist remoteManifest)
  /\ exists playlistObject,
       fst run = Resolved (200, playlistObject)
       /\ (forall o, playlistObject = Some o <->
                     BodyPlaylist remoteManifest = BodyPlaylist o
                     /\ playlistObjectShape healthyWorld o = true
                     /\ checkUrlsSameHost healthyWorld (po_id o) remotePlaylistUrl = true)
       /\ playlists (snd run) = playlists storeBefore
       /\ elements (snd run) = elements storeBefore.
Proof.
  cbv zeta. split; [reflexivity|].
  apply (fetchRemoteVideoPlaylist_status_and_manifest healthyWorld remotePlaylistUrl 200
           (BodyPlaylist remoteManifest) storeBefore).
  reflexivity.
Defined.

(** The three element URLs in [secondVideoMissingWorld]. *)
Lemma stored_elements_come_from_their_host_witness :
  let urls := [elementUrl1; elementUrl2; elementUrl3] in
  let run := resetVideoPlaylistElements secondVideoMissingWorld urls stalePlaylist
               storeBefore in
  let stored := elementsOf (pl_id stalePlaylist) (elements (snd run)) in
  fst run = Resolved tt
  /\ (List.length stored <= List.length urls)%nat
  /\ forall a, In a stored ->
       exists u statusCode e video,
         In u urls
         /\ response secondVideoMissingWorld u = Some (statusCode, BodyElement e)
         /\ playlistElementObjectShape secondVideoMissingWorld e = true
         /\ checkUrlsSameHost secondVideoMissingWorld (el_url a) u = true
         /\ videoOf secondVideoMissingWorld (eo_url e) = Some video
         /\ a = playlistElementObjectToDBAttributes e stalePlaylist video.
Proof.
  cbv zeta. split; [reflexivity|].
  apply (stored_elements_come_from_their_host secondVideoMissingWorld). reflexivity.
Defined.

(** The second element of [secondVideoMissingWorld] yields nothing. *)
Lemma failing_element_does_not_disturb_siblings_witness :
  let withU := resetVideoPlaylistElements secondVideoMissingWorld
                 ([elementUrl1] ++ elementUrl2 :: [elementUrl3]) stalePlaylist storeBefore in
  let without := resetVideoPlaylistElements secondVideoMissingWorld
                   ([elementUrl1] ++ [elementUrl3]) stalePlaylist storeBefore in
  fst (fetchPlaylistElement secondVideoMissingWorld stalePlaylist [] elementUrl2 storeBefore)
  = Resolved []
  /\ fst withU = fst without
  /\ elements (snd withU) = elements (snd without)
  /\ playlists (snd withU) = playlists (snd without).
Proof.
  cbv zeta. split; [reflexivity|].
  apply (failing_element_does_not_disturb_siblings secondVideoMissingWorld
           [elementUrl1] elementUrl2 [elementUrl3] stalePlaylist storeBefore eq_refl).
  discriminate.
Defined.

(** With the failing URL first, the rows of the two others are stored in
    the other order. *)
Example failing_first_element_changes_order :
  let withU := resetVideoPlaylistElements secondVideoMissingWorld
                 [elementUrl2; elementUrl1; elementUrl3] stalePlaylist storeBefore in
  let without := resetVideoPlaylistElements secondVideoMissingWorld
                   [elementUrl1; elementUrl3] stalePlaylist storeBefore in
  map el_url (elementsOf 7 (elements (snd withU))) = [elementUrl3; elementUrl1]
  /\ map el_url (elementsOf 7 (elements (snd without))) = [elementUrl1; elementUrl3].
Proof. split; reflexivity. Qed.

(** The four subscribers of the installation, with the emailer as sender
    and with a sender that rejects. *)
Lemma notify_delivers_witness :
  let us := [Notifier.alice; Notifier.carol; Notifier.bob; Notifier.dave] in
  let getter := fun u => Notifier.commentMention (Notifier.NotificationSetting u) in
  let attributes := Notifier.commentNotification Notifier.COMMENT_MENTION
                      Notifier.mentionComment in
  let options := fun sender =>
    {| Notifier.users := us;
       Notifier.settingGetter := getter;
       Notifier.notificationCreator :=
         fun user => Notifier.create Notifier.installation (attributes user);
       Notifier.emailSender := sender |} in
  let created := Notifier.delivered attributes [Notifier.alice; Notifier.carol; Notifier.dave]
                   [] Notifier.emptyStore in
  Notifier.notify Notifier.installation
    (options (Notifier.addMail Notifier.COMMENT_MENTION "comment")) Notifier.emptyStore
  = (Resolved tt,
     Notifier.delivered attributes [Notifier.alice; Notifier.carol; Notifier.dave]
       [{| Notifier.kind := Notifier.COMMENT_MENTION;
           Notifier.recipients := ["alice@local.example"; "dave@local.example"];
           Notifier.about := "comment" |}]
       Notifier.emptyStore)
  /\ Notifier.notify Notifier.installation
       (options (fun _ => Notifier.throw "cannot queue mail")) Notifier.emptyStore
     = (Rejected "cannot queue mail", created).
Proof.
  cbv zeta.
  assert (H : forall sender u,
             In u [Notifier.alice; Notifier.carol; Notifier.bob; Notifier.dave] ->
             Notifier.wantsWeb Notifier.installation
               {| Notifier.users := [Notifier.alice; Notifier.carol; Notifier.bob;
                                     Notifier.dave];
                  Notifier.settingGetter :=
                    fun u => Notifier.commentMention (Notifier.NotificationSetting u);
                  Notifier.notificationCreator :=
                    fun user =>
                      Notifier.create Notifier.installation
                        (Notifier.commentNotification Notifier.COMMENT_MENTION
                           Notifier.mentionComment user);
                  Notifier.emailSender := sender |} u = true ->
             Notifier.createRefused Notifier.installation
               (Notifier.commentNotification Notifier.COMMENT_MENTION
                  Notifier.mentionComment u) = false).
  { intros sender u [<-|[<-|[<-|[<-|[]]]]] _; reflexivity. }
  split.
  - rewrite (notify_delivers Notifier.installation _ _ _
               (Notifier.addMail Notifier.COMMENT_MENTION "comment")
               Notifier.emptyStore (H _)).
    reflexivity.
  - rewrite (notify_delivers Notifier.installation _ _ _
               (fun _ => Notifier.throw "cannot queue mail")
               Notifier.emptyStore (H _)).
    reflexivity.
Defined.

(** The creation is refused for erin, between alice and bob before her and
    carol after her. *)
Lemma notify_refusal_queues_no_mail_witness :
  let before := [Notifier.alice; Notifier.bob] in
  let after := [Notifier.carol] in
  let getter := fun u => Notifier.commentMention (Notifier.NotificationSetting u) in
  let attributes := Notifier.commentNotification Notifier.COMMENT_MENTION
                      Notifier.mentionComment in
  let options := Notifier.optionsOf Notifier.installation
                   (before ++ Notifier.erin :: after) getter attributes
                   Notifier.COMMENT_MENTION "comment" in
  let run := Notifier.notify Notifier.installation options Notifier.emptyStore in
  Notifier.wantsWeb Notifier.installation options Notifier.erin = true
  /\ Notifier.createRefused Notifier.installation (attributes Notifier.erin) = true
  /\ fst run = Rejected "cannot create notification"
  /\ Notifier.mails (snd run) = []
  /\ Notifier.sockets (snd run) = [(1, attributes Notifier.alice)].
Proof.
  cbv zeta. split; [reflexivity|]. split; [reflexivity|].
  apply (notify_refusal_queues_no_mail Notifier.installation
           [Notifier.alice; Notifier.bob] Notifier.erin [Notifier.carol]
           (fun u => Notifier.commentMention (Notifier.NotificationSetting u))
           (Notifier.commentNotification Notifier.COMMENT_MENTION Notifier.mentionComment)
           Notifier.COMMENT_MENTION "comment" Notifier.emptyStore).
  - intros x [<-|[<-|[]]] _; reflexivity.
  - reflexivity.
  - reflexivity.
Defined.

(** The address of bob is unverified, the addresses of alice and dave are
    verified, carol has not been asked; everybody asks for web and mail. *)
Lemma unverified_address_is_never_mailed_witness :
  let us := [Notifier.alice; Notifier.carol; Notifier.bob; Notifier.dave] in
  let getter := fun u : Notifier.UserModel => 3 in
  let attributes := Notifier.commentNotification Notifier.COMMENT_MENTION
                      Notifier.mentionComment in
  let options := Notifier.optionsOf Notifier.installation us getter attributes
                   Notifier.COMMENT_MENTION "comment" in
  let run := Notifier.notify Notifier.installation options Notifier.emptyStore in
  Notifier.REQUIRES_EMAIL_VERIFICATION Notifier.installation = true
  /\ Notifier.emailVerified Notifier.bob = Some false
  /\ fst run = Resolved tt
  /\ map Notifier.recipients (Notifier.mails (snd run))
     = [["alice@local.example"; "carol@local.example"; "dave@local.example"]]
  /\ map fst (Notifier.sockets (snd run)) = [1; 2; 3; 4].
Proof.
  cbv zeta. split; [reflexivity|]. split; [reflexivity|]. split; [reflexivity|].
  pose proof (unverified_address_is_never_mailed Notifier.installation
                [Notifier.alice; Notifier.carol; Notifier.bob; Notifier.dave]
                (fun _ => 3)
                (Notifier.commentNotification Notifier.COMMENT_MENTION
                   Notifier.mentionComment)
                Notifier.COMMENT_MENTION "comment" Notifier.emptyStore eq_refl) as H.
  cbv zeta in H. destruct H as [_ H]. destruct (H eq_refl) as [H1 H2].
  rewrite H1, H2. split; reflexivity.
Defined.

(** The public video of the installation and its four subscribers. *)
Lemma notifyOnNewVideo_reaches_subscribers_witness :
  let run := Notifier.notifyOnNewVideo Notifier.installation Notifier.publicVideo
               Notifier.emptyStore in
  Notifier.privacy Notifier.publicVideo = Notifier.PUBLIC
  /\ Notifier.state Notifier.publicVideo = Notifier.PUBLISHED
  /\ Notifier.VideoBlacklist Notifier.publicVideo = false
  /\ fst run = Resolved tt
  /\ map fst (Notifier.sockets (snd run)) = [1; 2; 4]
  /\ map Notifier.recipients (Notifier.mails (snd run))
     = [["alice@local.example"; "dave@local.example"]].
Proof.
  cbv zeta. split; [reflexivity|]. split; [reflexivity|]. split; [reflexivity|].
  pose proof (notifyOnNewVideo_reaches_subscribers Notifier.installation Notifier.publicVideo
                [Notifier.alice; Notifier.carol; Notifier.bob; Notifier.dave]
                Notifier.emptyStore eq_refl eq_refl eq_refl eq_refl) as H.
  cbv zeta in H.
  destruct H as (H1 & _ & H3 & H4).
  - intros u [<-|[<-|[<-|[<-|[]]]]] _; reflexivity.
  - split; [exact H1|]. split; [rewrite H3 | rewrite H4]; reflexivity.
Defined.

(** The comment of bob on the video of alice mentions alice, carol, bob and
    dave; dave mutes bob: only carol is notified. *)
Lemma mention_notifies_the_others_witness :
  let run := Notifier.notifyOfCommentMention Notifier.installation Notifier.mentionComment
               Notifier.emptyStore in
  Notifier.usersNamed Notifier.installation (Notifier.mentions Notifier.mentionComment)
  = Some [Notifier.alice; Notifier.carol; Notifier.bob; Notifier.dave]
  /\ Notifier.js_and (Notifier.NONE Notifier.installation) (Notifier.WEB Notifier.installation) = 0
  /\ Notifier.js_and (Notifier.NONE Notifier.installation) (Notifier.EMAIL Notifier.installation) = 0
  /\ fst run = Resolved tt
  /\ map fst (Notifier.sockets (snd run)) = [2]
  /\ Notifier.mails (snd run) = [].
Proof.
  cbv zeta. split; [reflexivity|]. split; [reflexivity|]. split; [reflexivity|].
  pose proof (mention_notifies_the_others Notifier.installation Notifier.mentionComment
                [Notifier.alice; Notifier.carol; Notifier.bob; Notifier.dave]
                Notifier.alice (fun account => account =? 104) Notifier.emptyStore
                eq_refl (fun _ => eq_refl) eq_refl eq_refl eq_refl) as H.
  cbv zeta in H.
  destruct H as (H1 & H2 & H3).
  - intros u [<-|[<-|[]]] _; reflexivity.
  - split; [exact H1|]. split; [rewrite H2 | rewrite H3]; reflexivity.
Defined.

(** X23: [notifyVideoOwnerOfNewComment] creates at most one notification, a
    NEW_COMMENT_ON_MY_VIDEO notification for the owner of the video, and
    none when the video is not local, when the owner is the author of the
    comment, or when the account of the owner mutes the author. *)
Theorem owner_notified_of_comments_of_others env comment s :
  let s' := snd (Notifier.notifyVideoOwnerOfNewComment env comment s) in
  Notifier.notifications s' = Notifier.notifications s
  \/ exists owner,
       Notifier.videoIsOwned comment = true
       /\ Notifier.ownerOfVideo env (Notifier.videoId comment) = Some (Some owner)
       /\ Notifier.commentAccountUserId comment <> Some (Notifier.user_id owner)
       /\ Notifier.mutedBy env (acc_id (Notifier.Account owner)) (Notifier.accountId comment)
          = Some false
       /\ Notifier.notifications s'
          = Notifier.notifications s
            ++ [Notifier.commentNotification Notifier.NEW_COMMENT_ON_MY_VIDEO comment owner].
Proof.
  cbv zeta.
  destruct (Notifier.videoIsOwned comment) eqn:VO;
    [| left; unfold Notifier.notifyVideoOwnerOfNewComment; now rewrite VO].
  destruct (Notifier.ownerOfVideo env (Notifier.videoId comment)) as [[owner|]|] eqn:O;
    [| left; unfold Notifier.notifyVideoOwnerOfNewComment; now rewrite VO, O
     | left; unfold Notifier.notifyVideoOwnerOfNewComment; now rewrite VO, O].
  assert (A : (match Notifier.commentAccountUserId comment with
               | Some commenter => commenter =? Notifier.user_id owner
               | None => false
               end) = false
              -> Notifier.commentAccountUserId comment <> Some (Notifier.user_id owner)).
  { destruct (Notifier.commentAccountUserId comment) as [c|]; [|discriminate].
    intros E H. inversion H. subst c. now rewrite Z.eqb_refl in E. }
  destruct (match Notifier.commentAccountUserId comment with
            | Some commenter => commenter =? Notifier.user_id owner
            | None => false
            end) eqn:Own;
    [left; unfold Notifier.notifyVideoOwnerOfNewComment; now rewrite VO, O, Own|].
  destruct (Notifier.mutedBy env (acc_id (Notifier.Account owner))
              (Notifier.accountId comment)) as [[|]|] eqn:M;
    [ left; unfold Notifier.notifyVideoOwnerOfNewComment; now rewrite VO, O, Own, M
    | | left; unfold Notifier.notifyVideoOwnerOfNewComment; now rewrite VO, O, Own, M].
  set (attributes := Notifier.commentNotification Notifier.NEW_COMMENT_ON_MY_VIDEO comment).
  set (options := Notifier.optionsOf env [owner]
         (fun user => Notifier.newCommentOnMyVideo (Notifier.NotificationSetting user))
         attributes Notifier.NEW_COMMENT_ON_MY_VIDEO (Notifier.comment_url comment)).
  assert (R : Notifier.notifyVideoOwnerOfNewComment env comment s
              = Notifier.notify env options
                  {| Notifier.notifications := Notifier.notifications s;
                     Notifier.sockets := Notifier.sockets s;
                     Notifier.mails := Notifier.mails s;
                     Notifier.logs :=
                       (Notifier.LevelInfo, "Notifying user %s of new comment %s.")
                       :: Notifier.logs s |}).
  { unfold Notifier.notifyVideoOwnerOfNewComment. now rewrite VO, O, Own, M. }
  rewrite R. unfold options. rewrite notify_run. cbv zeta. fold options.
  cbn [Notifier.reached].
  destruct (Notifier.wantsWeb env options owner) eqn:W; cbn [andb].
  - destruct (Notifier.createRefused env (attributes owner)).
    + left. cbn. now rewrite app_nil_r.
    + right. exists owner. split; [reflexivity|]. split; [reflexivity|].
      split; [now apply A|]. split; [exact M|].
      cbn [filter]. rewrite W. reflexivity.
  - left. cbn [filter]. rewrite W. cbn. now rewrite app_nil_r.
Qed.
